(** * sharelist-smb: a shallow embedding of the SMB dispatcher, the NTLM
  primitives, the command handlers and the ranged prefetcher ("Rectifier")

  Sources embedded here:
  - lib/ntlm.js                               (Module Ntlm, Module Ntlmv2)
  - lib/backends/sharelist: the Rectifier     (Module Rect)
  - lib/backends/sharelist/file.js, tree.js   (Module Sharelist)
  - lib/smb/cmd/*.js, cmd/trans2/*.js         (Module Cmd)
  - lib/smb/handler.js                        (Module Dispatch)
  - lib/ntlm.js: the LM and NTLM v1 functions (Module NtlmV1)
  - lib/smberror.js                           (Module SmbError)
  - lib/backends/sharelist: open, list, read
    and close of the tree and its files       (Module SharelistFs)
  Each is followed by a module with the vocabulary of the statements made
  about it; the theorems come last.

  Conventions.  A JavaScript number that holds an integer is a [Z]; a byte
  is a [Z] in [0, 256); a Node [Buffer] is a [list Z] of bytes.  A write
  [buf[i] = v] outside the Buffer is ignored by Node, exactly as stdpp's
  list insert; a [readUInt*] outside the Buffer raises RangeError.
  Exceptions are values of [result].  Callbacks are delivered in the order
  in which the source schedules them. *)

From Stdlib Require Import ZArith QArith Lia.
From stdpp Require Import base option list gmap strings vector.

Close Scope Q_scope.
Local Open Scope Z_scope.

(** ** JavaScript values and Node Buffers *)

Module JS.

Inductive exn : Type :=
| RangeError      (* Buffer read outside the buffer *)
| TypeError       (* property access on undefined / null *)
| ReferenceError  (* identifier not bound in scope *)
| AsyncError.     (* the Error of async: "Callback was already called." *)

Inductive result (A : Type) : Type :=
| Ok (a : A)
| Throw (e : exn).
Arguments Ok {A} a.
Arguments Throw {A} e.

#[export] Instance result_ret : MRet result := fun _ a => Ok a.
#[export] Instance result_bind : MBind result := fun _ _ f m =>
  match m with
  | Ok a => f a
  | Throw e => Throw e
  end.

#[export] Instance exn_eq_dec : EqDecision exn.
Proof. solve_decision. Defined.

Abbreviation bytes := (list Z).

(** ToUint8 of the value stored into a Buffer cell. *)
Definition u8 (v : Z) : Z := v mod 256.

(** [buf[i]] used as an operand of a bitwise operator: a cell outside the
    buffer reads as [undefined], which ToInt32 maps to 0. *)
Definition cell (buf : bytes) (i : nat) : Z := default 0 (buf !! i).

(** [buf[i] = v] *)
Definition put_cell (buf : bytes) (i : Z) (v : Z) : bytes :=
  if 0 <=? i then <[Z.to_nat i := u8 v]> buf else buf.

(** [buf.slice(start, end)]: negative indices count from the end, both are
    clamped to the buffer. *)
Definition clamp_index (len i : Z) : Z :=
  if i <? 0 then Z.max (len + i) 0 else Z.min i len.

Definition slice (buf : bytes) (start stop : Z) : bytes :=
  let len := Z.of_nat (length buf) in
  let s := clamp_index len start in
  let e := clamp_index len stop in
  take (Z.to_nat (e - s)) (drop (Z.to_nat s) buf).

(** [buf.slice(start)] *)
Definition slice_from (buf : bytes) (start : Z) : bytes :=
  slice buf start (Z.of_nat (length buf)).

Definition in_range (buf : bytes) (off width : Z) : bool :=
  (0 <=? off) && (off + width <=? Z.of_nat (length buf)).

Definition readUInt8 (buf : bytes) (off : Z) : result Z :=
  if in_range buf off 1 then Ok (cell buf (Z.to_nat off)) else Throw RangeError.

Definition readUInt16LE (buf : bytes) (off : Z) : result Z :=
  if in_range buf off 2
  then Ok (cell buf (Z.to_nat off) + 256 * cell buf (Z.to_nat off + 1))
  else Throw RangeError.

Definition readUInt32LE (buf : bytes) (off : Z) : result Z :=
  if in_range buf off 4
  then Ok (cell buf (Z.to_nat off)
           + 256 * cell buf (Z.to_nat off + 1)
           + 65536 * cell buf (Z.to_nat off + 2)
           + 16777216 * cell buf (Z.to_nat off + 3))
  else Throw RangeError.

Definition is_byte (v : Z) : Prop := 0 <= v < 256.

End JS.

Import JS.

(** ** lib/ntlm.js *)

Module Ntlm.

Definition PARITY_MASK : Z := 0x01.

(** [expandKey(key56)].  [new Buffer(8)] is uninitialised memory; every
    cell is assigned before the buffer is returned, zeros stand for it. *)
Definition expandKey (key56 : bytes) : bytes :=
  let key64 := replicate 8 0 in
  let key64 := put_cell key64 0 (Z.land (cell key56 0) 0xfe) in
  let key64 := put_cell key64 0 (Z.land (cell key64 0) (Z.lnot PARITY_MASK)) in
  let key64 := put_cell key64 1
    (Z.lor (Z.land (Z.shiftl (cell key56 0) 7) 0xff) (Z.shiftr (cell key56 1) 1)) in
  let key64 := put_cell key64 1 (Z.lor (cell key64 1) PARITY_MASK) in
  let key64 := put_cell key64 2
    (Z.lor (Z.land (Z.shiftl (cell key56 1) 6) 0xff) (Z.shiftr (cell key56 2) 2)) in
  let key64 := put_cell key64 2 (Z.land (cell key64 2) (Z.lnot PARITY_MASK)) in
  let key64 := put_cell key64 3
    (Z.lor (Z.land (Z.shiftl (cell key56 2) 5) 0xff) (Z.shiftr (cell key56 3) 3)) in
  let key64 := put_cell key64 3 (Z.lor (cell key64 3) PARITY_MASK) in
  let key64 := put_cell key64 4
    (Z.lor (Z.land (Z.shiftl (cell key56 3) 4) 0xff) (Z.shiftr (cell key56 4) 4)) in
  let key64 := put_cell key64 4 (Z.land (cell key64 4) (Z.lnot PARITY_MASK)) in
  let key64 := put_cell key64 5
    (Z.lor (Z.land (Z.shiftl (cell key56 4) 3) 0xff) (Z.shiftr (cell key56 5) 5)) in
  let key64 := put_cell key64 5 (Z.lor (cell key64 5) PARITY_MASK) in
  let key64 := put_cell key64 6
    (Z.lor (Z.land (Z.shiftl (cell key56 5) 2) 0xff) (Z.shiftr (cell key56 6) 6)) in
  let key64 := put_cell key64 6 (Z.land (cell key64 6) (Z.lnot PARITY_MASK)) in
  let key64 := put_cell key64 7 (Z.land (Z.shiftl (cell key56 6) 1) 0xff) in
  let key64 := put_cell key64 7 (Z.lor (cell key64 7) PARITY_MASK) in
  key64.

End Ntlm.

(** ** The claims' own reading of [expandKey], for comparison with the code *)

Module NtlmSpec.

(** Bit 0 of [v] replaced by the parity bit [p]. *)
Definition with_parity (p : bool) (v : Z) : Z :=
if p then Z.setbit v 0 else Z.clearbit v 0.

(** [((prev << (8-i)) & 0xff) | (cur >> i)] *)
Definition spread (i : Z) (prev cur : Z) : Z :=
Z.lor (Z.land (Z.shiftl prev (8 - i)) 0xff) (Z.shiftr cur i).

Definition expandKey_spec (key56 : bytes) : bytes :=
[ with_parity false (Z.land (cell key56 0) 0xfe);
  with_parity true  (spread 1 (cell key56 0) (cell key56 1));
  with_parity false (spread 2 (cell key56 1) (cell key56 2));
  with_parity true  (spread 3 (cell key56 2) (cell key56 3));
  with_parity false (spread 4 (cell key56 3) (cell key56 4));
  with_parity true  (spread 5 (cell key56 4) (cell key56 5));
  with_parity false (spread 6 (cell key56 5) (cell key56 6));
  with_parity true  (Z.land (Z.shiftl (cell key56 6) 1) 0xff) ].

Definition all_bytes : list Z := Z.of_nat <$> seq 0 256.

End NtlmSpec.

(** ** lib/utils.js *)

Module Utils.

(** Modelled from the spec: [utils.bufferEquals] (lib/utils.js is not among
    the sources), the byte comparison of two buffers: true exactly when
    they have the same length and the same bytes. *)
Definition bufferEquals (a b : bytes) : bool := bool_decide (a = b).

(** Modelled from the spec: [utils.EMPTY_BUFFER], the zero-length buffer. *)
Definition EMPTY_BUFFER : bytes := [].

(** Modelled from the spec: [utils.smbToSystemTime], SMB time (100-ns ticks
    since 1601-01-01 UTC) to epoch milliseconds. *)
Definition smbToSystemTime (ticks : Z) : Z := ticks / 10000 - 11644473600000.

(** Modelled from the spec: [utils.systemToSMBTime], the inverse. *)
Definition systemToSMBTime (ms : Z) : Z := (ms + 11644473600000) * 10000.

End Utils.

(** ** lib/ntlm.js: NTLMv2 *)

Module Ntlmv2.
Import Utils.

Definition MIN_BLOB_SIZE : Z := 36.
Definition BLOB_SIGNATURE : bytes := [0x01; 0x01; 0x00; 0x00].
Definition EOL : Z := 0x0000.

(** The object [parseNTLMv2Blob] builds.  [info] is the JavaScript object
    used as a map from attribute type to value. *)
Record Blob : Type := mkBlob {
  signature : bytes;
  reserved : bytes;
  timeStamp : Z;
  nonce : bytes;
  unknown : bytes;
  info : gmap Z bytes;
  unknown2 : bytes;
  unknownTrailer : option bytes
}.

(** [new Long(low, high)]: a signed 64-bit value from two 32-bit halves. *)
Definition Long (low high : Z) : Z :=
  let u := (low mod 2^32) + 2^32 * (high mod 2^32) in
  if u <? 2^63 then u else u - 2^64.

(** The [while (type !== EOL)] loop.  [off] and [type] are the loop's
    variables on entry; [None] is an exhausted [fuel], which
    [parse_info_fuel] below shows does not happen from [S (length blob)]. *)
Fixpoint parse_info (fuel : nat) (blob : bytes) (off type : Z) (info : gmap Z bytes)
  : option (result (Z * gmap Z bytes)) :=
  if type =? EOL then Some (Ok (off, info)) else
  match fuel with
  | O => None
  | S fuel' =>
    match readUInt16LE blob off with
    | Throw e => Some (Throw e)
    | Ok len =>
      let off := off + 2 in
      let info := <[type := slice blob off (off + len)]> info in
      let off := off + len in
      match readUInt16LE blob off with
      | Throw e => Some (Throw e)
      | Ok type => parse_info fuel' blob (off + 2) type info
      end
    end
  end.

(** [parseNTLMv2Blob(blob)]; [Ok None] is the [null] returned for a short
    blob. *)
Definition parseNTLMv2Blob (blob : bytes) : result (option Blob) :=
  if Z.of_nat (length blob) <? MIN_BLOB_SIZE then Ok None else
  let off := 0 in
  let signature := slice blob off 4 in
  let off := off + 4 in
  let reserved := slice blob off (off + 4) in
  let off := off + 4 in
  timeLow ← readUInt32LE blob off;
  let off := off + 4 in
  timeHigh ← readUInt32LE blob off;
  let off := off + 4 in
  let timeStamp := smbToSystemTime (Long timeLow timeHigh) in
  let nonce := slice blob off (off + 8) in
  let off := off + 8 in
  let unknown := slice blob off (off + 4) in
  let off := off + 4 in
  type ← readUInt16LE blob off;
  let off := off + 2 in
  '(off, info) ← default (Throw RangeError) (parse_info (S (length blob)) blob off type ∅);
  let off := off + 2 in
  let unknown2 := slice blob off (off + 4) in
  let off := off + 4 in
  let unknownTrailer :=
    if off <? Z.of_nat (length blob) then Some (slice_from blob off) else None in
  Ok (Some (mkBlob signature reserved timeStamp nonce unknown info unknown2 unknownTrailer)).

(** A JavaScript string is its sequence of UTF-16 code units;
    [new Buffer(s, 'utf16le')] writes each unit low byte first. *)
Abbreviation jsstring := (list Z).

Definition utf16le (s : jsstring) : bytes :=
  s ≫= (fun c => [c mod 256; (c / 256) mod 256]).

Section Crypto.

(** [crypto.createHmac('md5', key).update(data).digest()]: Node's HMAC-MD5;
    the digest is a buffer of 16 bytes. *)
Variable hmac_md5 : bytes -> bytes -> vec Z 16.

(** [String.prototype.toUpperCase] *)
Variable toUpperCase : jsstring -> jsstring.

Definition createNTLM2Hash (ntlmHash : bytes) (userName domainName : jsstring) : bytes :=
  let data := utf16le (toUpperCase userName ++ toUpperCase domainName) in
  vec_to_list (hmac_md5 ntlmHash data).

Definition calculateNTLM2Response (ntlm2Hash blob challenge : bytes) : bytes :=
  let data := challenge ++ blob in
  let hmac := vec_to_list (hmac_md5 ntlm2Hash data) in
  hmac ++ blob.

Definition calculateLM2Response (ntlm2Hash clientChallenge challenge : bytes) : bytes :=
  let data := challenge ++ clientChallenge in
  let hmac := vec_to_list (hmac_md5 ntlm2Hash data) in
  hmac ++ clientChallenge.

Definition validateLMv2Response (lm2Response ntlmHash : bytes)
    (userName domainName : jsstring) (challenge : bytes) : bool :=
  if negb (Z.of_nat (length lm2Response) =? 24) then false else
  let hash := createNTLM2Hash ntlmHash userName domainName in
  let nonce := slice_from lm2Response 16 in
  let resp := calculateLM2Response hash nonce challenge in
  bufferEquals resp lm2Response.

Definition validateNTLMv2Response (ntlm2Response ntlmHash : bytes)
    (userName domainName : jsstring) (challenge : bytes) : result bool :=
  if Z.of_nat (length ntlm2Response) <? 16 + MIN_BLOB_SIZE then Ok false else
  let hash := createNTLM2Hash ntlmHash userName domainName in
  let blob := slice_from ntlm2Response 16 in
  blobObj ← parseNTLMv2Blob blob;
  match blobObj with
  | None => Throw TypeError (* [blobObj.signature] of null *)
  | Some blobObj =>
    if negb (bufferEquals BLOB_SIGNATURE (signature blobObj)) then Ok false else
    let resp := calculateNTLM2Response hash blob challenge in
    Ok (bufferEquals resp ntlm2Response)
  end.

End Crypto.

End Ntlmv2.

(** ** The claims' vocabulary for NTLMv2 blobs and responses *)

Module Ntlmv2Spec.
Import Ntlmv2.

(** The attribute/value list that starts at [off] has a terminating entry
    whose type field lies inside the blob and is 0: either the type at
    [off] is 0, or it is an entry (type, len, value) inside the blob and the
    list that follows it has one. *)
Inductive eol_terminated (blob : bytes) : Z -> Prop :=
| eol_here (off : Z) :
    readUInt16LE blob off = Ok EOL -> eol_terminated blob off
| eol_later (off type len : Z) :
    readUInt16LE blob off = Ok type -> type <> EOL ->
    readUInt16LE blob (off + 2) = Ok len ->
    eol_terminated blob (off + 4 + len) ->
    eol_terminated blob off.

(** Fuel [fuel] is enough for a list whose next type field is at [p]. *)
Definition enough_fuel (blob : bytes) (fuel : nat) (p : Z) : Prop :=
  Z.of_nat (length blob) - p < 4 * Z.of_nat fuel + 2.

(** Offset of the attribute/value list in a blob. *)
Definition INFO_OFFSET : Z := 28.

(** A well-formed blob: length at least 36, the signature 0x01010000, an
    EOL-terminated target-info list. *)
Definition well_formed_blob (blob : bytes) : Prop :=
  MIN_BLOB_SIZE <= Z.of_nat (length blob)
  /\ slice blob 0 4 = BLOB_SIGNATURE
  /\ eol_terminated blob INFO_OFFSET.

(** Bit [i] of the buffer flipped: bit [i mod 8] of byte [i / 8]. *)
Definition flip_bit (buf : bytes) (i : nat) : bytes :=
  alter (fun b => Z.lxor b (2 ^ Z.of_nat (i mod 8))) (i / 8)%nat buf.

(** A blob with one target-info entry: type 2 (domain name), 4 bytes, then
    the terminator. *)
Definition sample_blob : bytes :=
  [0x01; 0x01; 0x00; 0x00;  0x00; 0x00; 0x00; 0x00;
   0x00; 0x90; 0xd3; 0x36; 0xb7; 0x34; 0xc3; 0x01;
   0xff; 0xff; 0xff; 0x00; 0x11; 0x22; 0x33; 0x44;
   0x00; 0x00; 0x00; 0x00;
   0x02; 0x00; 0x04; 0x00; 0x44; 0x00; 0x4d; 0x00;
   0x00; 0x00; 0x00; 0x00;
   0x00; 0x00; 0x00; 0x00].

(** A 36-byte blob whose list never meets a terminator. *)
Definition unterminated_blob : bytes :=
  [0x01; 0x01; 0x00; 0x00;  0x00; 0x00; 0x00; 0x00;
   0x00; 0x90; 0xd3; 0x36; 0xb7; 0x34; 0xc3; 0x01;
   0xff; 0xff; 0xff; 0x00; 0x11; 0x22; 0x33; 0x44;
   0x00; 0x00; 0x00; 0x00;
   0x02; 0x00; 0x04; 0x00; 0x44; 0x00; 0x4d; 0x00].

End Ntlmv2Spec.

(** ** lib/backends/sharelist: the Rectifier, with [readFile] and
    [closeFile] the module that file.js requires as ./utils *)

Module Rect.

(** The upstream HTTP request object [this.req], as far as the Rectifier
    drives it: [pause()], [resume()], [abort()]. *)
Record Request : Type := mkRequest {
  req_paused : bool;
  req_aborted : bool
}.

(** The one waiter the module registers: the closure of [readFile],
    [(rectifier) => rectifier.read(buffer, offset, length, position, cb)].
    [w_cb] names the callback [cb] of the file read it serves. *)
Record Waiter : Type := mkWaiter {
  w_buffer : bytes;
  w_offset : Z;
  w_length : Z;
  w_position : Z;
  w_cb : nat
}.

Record Rectifier : Type := mkRectifier {
  offset : Z;
  size : Z;
  buffers : list bytes;
  position : Z;
  tasks : list (Z * Waiter);
  loaded : bool;
  running : bool;
  closed : bool;
  paused : bool;
  length : Z;
  cacheSize : Z;
  req : option Request
}.

(** What the Rectifier does to the outside, in order. *)
Inductive Event : Type :=
| EvRequest                                     (* [request({...})] in start() *)
| EvPause                                       (* [this.req.pause()] *)
| EvResume                                      (* [this.req.resume()] *)
| EvAbort                                       (* [this.req.abort()] *)
| EvWaiter (target : Z) (w : Waiter)            (* a task's waiter [cb(this)] *)
| EvRead (cb : nat) (bytesRead : Z) (buffer : bytes)  (* [cb(null, length, buffer)] *)
| EvClosed (cb : nat).                          (* the callback of close() *)

(** [Math.round(size / 10)] on an integer [size]: the nearest integer, a
    half rounded up. *)
Definition round_tenth (size : Z) : Z := (size + 5) / 10.

(** [constructor(options, size, offset = 0)] *)
Definition constructor (size offset : Z) : Rectifier :=
  {| offset := offset;
     size := size;
     buffers := [];
     position := offset;
     tasks := [];
     loaded := false;
     running := false;
     closed := false;
     paused := false;
     length := 0;
     cacheSize := Z.max (round_tenth size) (2 * 1024 * 1024);
     req := None |}.

Definition set_buffers (r : Rectifier) (v : list bytes) : Rectifier :=
  mkRectifier (offset r) (size r) v (position r) (tasks r) (loaded r) (running r)
    (closed r) (paused r) (length r) (cacheSize r) (req r).
Definition set_length (r : Rectifier) (v : Z) : Rectifier :=
  mkRectifier (offset r) (size r) (buffers r) (position r) (tasks r) (loaded r) (running r)
    (closed r) (paused r) v (cacheSize r) (req r).
Definition set_position (r : Rectifier) (v : Z) : Rectifier :=
  mkRectifier (offset r) (size r) (buffers r) v (tasks r) (loaded r) (running r)
    (closed r) (paused r) (length r) (cacheSize r) (req r).
Definition set_offset (r : Rectifier) (v : Z) : Rectifier :=
  mkRectifier v (size r) (buffers r) (position r) (tasks r) (loaded r) (running r)
    (closed r) (paused r) (length r) (cacheSize r) (req r).
Definition set_tasks (r : Rectifier) (v : list (Z * Waiter)) : Rectifier :=
  mkRectifier (offset r) (size r) (buffers r) (position r) v (loaded r) (running r)
    (closed r) (paused r) (length r) (cacheSize r) (req r).
Definition set_loaded (r : Rectifier) (v : bool) : Rectifier :=
  mkRectifier (offset r) (size r) (buffers r) (position r) (tasks r) v (running r)
    (closed r) (paused r) (length r) (cacheSize r) (req r).
Definition set_running (r : Rectifier) (v : bool) : Rectifier :=
  mkRectifier (offset r) (size r) (buffers r) (position r) (tasks r) (loaded r) v
    (closed r) (paused r) (length r) (cacheSize r) (req r).
Definition set_closed (r : Rectifier) (v : bool) : Rectifier :=
  mkRectifier (offset r) (size r) (buffers r) (position r) (tasks r) (loaded r) (running r)
    v (paused r) (length r) (cacheSize r) (req r).
Definition set_paused (r : Rectifier) (v : bool) : Rectifier :=
  mkRectifier (offset r) (size r) (buffers r) (position r) (tasks r) (loaded r) (running r)
    (closed r) v (length r) (cacheSize r) (req r).
Definition set_req (r : Rectifier) (v : option Request) : Rectifier :=
  mkRectifier (offset r) (size r) (buffers r) (position r) (tasks r) (loaded r) (running r)
    (closed r) (paused r) (length r) (cacheSize r) v.

(** The [for] loop of [read] over one chunk [b], from its index [i] on
    ([b] here is what is left of the chunk from [i]).  [Some tail] is the
    exit through [break], with [tail = b.slice(i + 1)]. *)
Fixpoint copy_chunk (b : bytes) (length : Z) (buffer : bytes) (index : Z)
  : bytes * Z * option bytes :=
  match b with
  | [] => (buffer, index, None)
  | x :: b' =>
    let buffer := put_cell buffer index x in   (* buffer[index++] = b[i] *)
    let index := index + 1 in
    if index =? length
    then (buffer, index, Some b')
    else copy_chunk b' length buffer index
  end.

(** The [while (null != (b = this.buffers.shift()))] loop of [read]:
    the queue left, the destination, the index, and [flag]. *)
Fixpoint drain (bufs : list bytes) (length : Z) (buffer : bytes) (index : Z)
  : list bytes * bytes * Z * bool :=
  match bufs with
  | [] => ([], buffer, index, false)
  | b :: rest =>
    match copy_chunk b length buffer index with
    | (buffer, index, Some tail) => (tail :: rest, buffer, index, true)  (* unshift(b) *)
    | (buffer, index, None) => drain rest length buffer index
    end
  end.

(** [read(buffer, offset, length, position, cb)] *)
Definition read (r : Rectifier) (buffer : bytes) (offset length position : Z) (cb : nat)
  : Rectifier * list Event :=
  let length := if length >? Rect.length r then Rect.length r else length in
  let index := offset in
  let '(bufs, buffer, index, flag) := drain (buffers r) length buffer index in
  let r := if flag then set_length r (Rect.length r - length) else r in
  let r := set_buffers r bufs in
  (r, [EvRead cb length buffer]).

(** A waiter called with the rectifier. *)
Definition call_waiter (r : Rectifier) (w : Waiter) : Rectifier * list Event :=
  read r (w_buffer w) (w_offset w) (w_length w) (w_position w) (w_cb w).

(** [Math.max(...tasks.map(i => i[0]), 0)] *)
Definition farestChunk (tasks : list (Z * Waiter)) : Z :=
  foldr Z.max 0 (fst <$> tasks).

(** [x < y] on rationals, for [position - farestChunk < this.cacheSize / 5]:
    the quotient is not an integer division. *)
Definition Qltb (x y : Q) : bool := negb (Qle_bool y x).

(** The [for (let i of tasks)] loop of [updateTask], with the destructured
    [position] and [size]; the result carries the list [undone]. *)
Fixpoint run_tasks (position size : Z) (ts : list (Z * Waiter)) (r : Rectifier)
  : Rectifier * list (Z * Waiter) * list Event :=
  match ts with
  | [] => (r, [], [])
  | (p, cb) :: ts' =>
    if p <=? position then
      let '(r, ev) := call_waiter r cb in
      let '(r, undone, evs) := run_tasks position size ts' r in
      (r, undone, EvWaiter p cb :: ev ++ evs)
    else if p >? size then
      if loaded r then
        let '(r, ev) := call_waiter r cb in
        let '(r, undone, evs) := run_tasks position size ts' r in
        (r, undone, EvWaiter p cb :: ev ++ evs)
      else
        let '(r, undone, evs) := run_tasks position size ts' r in
        (r, (p, cb) :: undone, evs)
    else
      let '(r, undone, evs) := run_tasks position size ts' r in
      (r, (p, cb) :: undone, evs)
  end.

(** [this.req.pause()] and the like: a TypeError when [this.req] is
    undefined. *)
Definition with_req (r : Rectifier) (f : Request -> Request) : result Rectifier :=
  match req r with
  | None => Throw TypeError
  | Some q => Ok (set_req r (Some (f q)))
  end.

Definition req_pause (q : Request) : Request := mkRequest true (req_aborted q).
Definition req_resume (q : Request) : Request := mkRequest false (req_aborted q).
Definition req_abort (q : Request) : Request := mkRequest (req_paused q) true.

(** [updateTask()] *)
Definition updateTask (r : Rectifier) : result (Rectifier * list Event) :=
  let position := position r in
  let tasks := tasks r in
  let size := size r in
  let farestChunk := farestChunk tasks in
  '(r, ev0) ←
    (if position - farestChunk >? cacheSize r then
       r ← with_req r req_pause;
       Ok (set_paused r true, [EvPause])
     else if Qltb (inject_Z (position - farestChunk)) (inject_Z (cacheSize r) / 5)%Q then
       if paused r then
         r ← with_req r req_resume;
         Ok (set_paused r false, [EvResume])
       else Ok (r, [])
     else Ok (r, []));
  let '(r, undone, evs) := run_tasks position size tasks r in
  Ok (set_tasks r undone, ev0 ++ evs).

(** [start()]: the request is issued and kept in [this.req]. *)
Definition start (r : Rectifier) : Rectifier * list Event :=
  (set_req r (Some (mkRequest false false)), [EvRequest]).

(** [when(position, cb)] *)
Definition when (r : Rectifier) (position : Z) (cb : Waiter)
  : result (Rectifier * list Event) :=
  if closed r then Ok (r, []) else
  let r := set_tasks r (tasks r ++ [(position, cb)]) in
  let '(r, ev0) :=
    if negb (running r) then
      let '(r, ev) := start r in (set_running r true, ev)
    else (r, []) in
  '(r, evs) ← updateTask r;
  Ok (r, ev0 ++ evs).

(** [reset()] *)
Definition reset (r : Rectifier) : Rectifier :=
  set_running (set_loaded (set_tasks r []) false) false.

(** The ['response'] handler registered by [start()]. *)
Definition on_response (r : Rectifier) (statusCode : Z) : Rectifier :=
  if negb (statusCode =? 206) then set_position (set_offset r 0) 0 else r.

(** The ['data'] handler. *)
Definition on_data (r : Rectifier) (chunk : bytes) : result (Rectifier * list Event) :=
  let bytesRead := Z.of_nat (List.length chunk) in
  let r := set_buffers r (buffers r ++ [slice_from chunk 0]) in
  let r := set_length r (Rect.length r + bytesRead) in
  let r := set_position r (position r + bytesRead) in
  updateTask r.

(** The ['end'] handler. *)
Definition on_end (r : Rectifier) : result (Rectifier * list Event) :=
  updateTask (set_loaded r true).

(** [close(cb)] *)
Definition close (r : Rectifier) (cb : nat) : Rectifier * list Event :=
  let r := set_tasks r [] in
  let r := set_loaded r false in
  let r := set_closed r true in
  match req r with
  | Some q => (set_req r (Some (req_abort q)), [EvAbort; EvClosed cb])
  | None => (r, [])
  end.

(** [readFile(file, buffer, offset, length, position, cb)] on a file whose
    [outputType] is 'url': [file.fd] is never set for such a file, so every
    read makes a Rectifier of its own, from [position] on, and registers
    one waiter, for the end of the block to read. *)
Definition readFile_url (size : Z) (buffer : bytes) (offset length position : Z) (cb : nat)
  : result (Rectifier * list Event) :=
  let rectifier := constructor size position in
  when rectifier (position + length) (mkWaiter buffer offset length position cb).

(** What can happen to a Rectifier: the methods called on it and the
    events of its request.  The handlers of the request exist only once
    [start()] has made the request. *)
Inductive Op : Type :=
| OpWhen (position : Z) (cb : Waiter)
| OpRead (buffer : bytes) (offset length position : Z) (cb : nat)
| OpReset
| OpClose (cb : nat)
| OpResponse (statusCode : Z)
| OpData (chunk : bytes)
| OpEnd.

Definition step (r : Rectifier) (op : Op) : result (Rectifier * list Event) :=
  match op with
  | OpWhen position cb => when r position cb
  | OpRead buffer offset length position cb => Ok (read r buffer offset length position cb)
  | OpReset => Ok (reset r, [])
  | OpClose cb => Ok (close r cb)
  | OpResponse statusCode =>
    match req r with Some _ => Ok (on_response r statusCode, []) | None => Ok (r, []) end
  | OpData chunk =>
    match req r with Some _ => on_data r chunk | None => Ok (r, []) end
  | OpEnd =>
    match req r with Some _ => on_end r | None => Ok (r, []) end
  end.

Fixpoint run (r : Rectifier) (ops : list Op) : result (Rectifier * list Event) :=
  match ops with
  | [] => Ok (r, [])
  | op :: ops' =>
    '(r, ev) ← step r op;
    '(r, evs) ← run r ops';
    Ok (r, ev ++ evs)
  end.

End Rect.

(** ** The claims' vocabulary for the Rectifier *)

Module RectSpec.
Import Rect.

(** [length = sum(size(b) for b in buffers)] *)
Definition length_invariant (r : Rectifier) : Prop :=
  Rect.length r = Z.of_nat (List.length (concat (buffers r))).

(** [bs] written cell by cell from [index] on. *)
Fixpoint write_at (buffer : bytes) (index : Z) (bs : bytes) : bytes :=
  match bs with
  | [] => buffer
  | x :: bs' => write_at (put_cell buffer index x) (index + 1) bs'
  end.

(** [running] only after [start()]: a running Rectifier has its request. *)
Definition started (r : Rectifier) : Prop :=
  running r = true -> is_Some (req r).

(** [m] is the maximum of the targets of the task set. *)
Definition max_target (ts : list (Z * Waiter)) (m : Z) : Prop :=
  (exists w, (m, w) ∈ ts) /\ Forall (fun t => t.1 <= m) ts.

(** [m] is the greatest among 0 and the targets of the task set: 0 for
    the empty set and for targets that are all negative. *)
Definition max_target_or_zero (ts : list (Z * Waiter)) (m : Z) : Prop :=
  (m = 0 \/ exists w, (m, w) ∈ ts) /\ 0 <= m /\ Forall (fun t => t.1 <= m) ts.

(** A task that [updateTask] delivers: target <= position, or
    target > size while loaded. *)
Definition deliverable (r : Rectifier) (t : Z * Waiter) : bool :=
  (t.1 <=? position r) || ((t.1 >? size r) && loaded r).

(** The tasks whose waiters were invoked, in the order of the calls. *)
Definition waiters_invoked (evs : list Event) : list (Z * Waiter) :=
  omap (fun e => match e with EvWaiter p w => Some (p, w) | _ => None end) evs.

(** The requests issued. *)
Definition requests_made (evs : list Event) : list Event :=
  omap (fun e => match e with EvRequest => Some e | _ => None end) evs.

(** A rectifier with two chunks queued, and the destination of a read. *)
Definition sample_rectifier : Rectifier :=
  {| offset := 0; size := 8; buffers := [[1; 2; 3; 4]; [5; 6; 7; 8]];
     position := 8; tasks := []; loaded := true; running := true;
     closed := false; paused := false; length := 8;
     cacheSize := 2 * 1024 * 1024; req := Some (mkRequest false false) |}.

(** The scenario "Rectifier under backpressure" of the specification. *)
Definition backpressure_waiter : Waiter :=
  {| w_buffer := replicate 100 0; w_offset := 0; w_length := 100; w_position := 0; w_cb := 1 |}.

Definition backpressure_rectifier : Rectifier :=
  {| offset := 0; size := 10 * 1024 * 1024; buffers := [];
     position := 3 * 1024 * 1024; tasks := [(100, backpressure_waiter)];
     loaded := false; running := true; closed := false; paused := false;
     length := 0; cacheSize := 2 * 1024 * 1024; req := Some (mkRequest false false) |}.

(** A read of 100 bytes at the position -110 (the handler of READ_ANDX
    makes the position from a signed 64-bit offset), on a server that
    answers 200: the count restarts at 0 and the task keeps its target,
    -10.  Here 2 MiB less 5 bytes have arrived. *)
Definition negative_target_waiter : Waiter :=
  {| w_buffer := replicate 100 0; w_offset := 0; w_length := 100; w_position := -110;
     w_cb := 1 |}.

Definition negative_target_rectifier : Rectifier :=
  {| offset := 0; size := 10 * 1024 * 1024; buffers := [];
     position := 2 * 1024 * 1024 - 5; tasks := [(-10, negative_target_waiter)];
     loaded := false; running := true; closed := false; paused := false;
     length := 0; cacheSize := 2 * 1024 * 1024; req := Some (mkRequest false false) |}.

End RectSpec.

(** ** lib/ntstatus.js, lib/smberror.js, lib/smb/constants.js *)

Module Status.

(** Modelled from the spec: the named NTSTATUS constants of lib/ntstatus.js
    (not among the sources).  STATUS_SUCCESS is the value 0, the only one
    that is falsy in JavaScript. *)
Inductive NTSTATUS : Type :=
| STATUS_SUCCESS
| STATUS_MORE_PROCESSING_REQUIRED
| STATUS_NOT_IMPLEMENTED
| STATUS_NOT_SUPPORTED
| STATUS_UNSUCCESSFUL
| STATUS_NO_SUCH_FILE
| STATUS_ACCESS_DENIED
| STATUS_END_OF_FILE
| STATUS_OBJECT_NAME_COLLISION
| STATUS_NETWORK_ACCESS_DENIED
| STATUS_FILE_IS_A_DIRECTORY
| STATUS_SMB_BAD_TID
| STATUS_SMB_BAD_FID
| STATUS_SMB_BAD_COMMAND
| STATUS_SMB_NO_SUPPORT.

#[export] Instance NTSTATUS_eq_dec : EqDecision NTSTATUS.
Proof. solve_decision. Defined.

(** [status === other] *)
Definition status_eqb (a b : NTSTATUS) : bool := bool_decide (a = b).

(** An [SMBError], or any other error value handed to a callback:
    [status] is undefined on an error that is not an SMBError. *)
Record SMBError : Type := mkSMBError {
  err_status : option NTSTATUS
}.

(** [err.status || ntstatus.STATUS_UNSUCCESSFUL] *)
Definition status_or_unsuccessful (err : SMBError) : NTSTATUS :=
  match err_status err with
  | Some STATUS_SUCCESS | None => STATUS_UNSUCCESSFUL
  | Some s => s
  end.

(** The constants of lib/smb/constants.js and lib/common.js that the
    handlers read; the file is not among the sources, they are parameters
    of the handlers. *)
Record Constants : Type := mkConstants {
  INFO_PASSTHROUGH : Z;
  FILE_DISPOSITION_INFORMATION : Z;
  FILE_END_OF_FILE_INFORMATION : Z;
  FILE_ALLOCATION_INFORMATION : Z;
  FILE_RENAME_INFORMATION : Z;
  FILE_TYPE_DISK : Z;
  FILE_TYPE_MESSAGEMODEPIPE : Z;
  DIRECTORY_ACCESS_ALL : Z;
  FILE_ACCESS_ALL : Z;
  DIRECTORY_ACCESS_READONLY : Z;
  FILE_ACCESS_READONLY : Z;
  FILE_DIRECTORY_FILE : Z;
  ATTR_HIDDEN : Z;
  ATTR_SYSTEM : Z
}.

End Status.

(** ** lib/utils.js, as the handlers use it *)

Module Utils2.
Import Ntlmv2.

(** Modelled from the spec: [utils.calculatePadLength(offset, alignment)],
    the bytes to skip from [offset] to the next multiple of [alignment]. *)
Definition calculatePadLength (offset alignment : Z) : Z :=
  (alignment - offset mod alignment) mod alignment.

(** Modelled from the spec: [utils.extractUnicodeBytes(buf, off)], the
    UTF-16LE code units from [off] up to a null terminator (two zero bytes on
    a word boundary), terminator excluded. *)
Fixpoint unicode_units (l : bytes) : bytes :=
  match l with
  | lo :: hi :: rest =>
    if (lo =? 0) && (hi =? 0) then [] else lo :: hi :: unicode_units rest
  | _ => l
  end.

Definition extractUnicodeBytes (buf : bytes) (off : Z) : bytes :=
  unicode_units (slice_from buf off).

(** [buf.toString('utf16le')] *)
Fixpoint from_utf16le (l : bytes) : jsstring :=
  match l with
  | lo :: hi :: rest => (lo + 256 * hi) :: from_utf16le rest
  | _ => []
  end.

(** Modelled from the spec: [utils.ZERO_GUID], the all-zero GUID of 16
    bytes. *)
Definition ZERO_GUID : bytes := replicate 16 0.

End Utils2.

(** ** The npm packages [put] and [binary], as the handlers use them *)

Module Codec.

(** [put().word16le(x)] and the like: [n] bytes of [x], the low byte
    first. *)
Fixpoint word_le (n : nat) (x : Z) : bytes :=
  match n with
  | O => []
  | S n' => (x mod 256) :: word_le n' (x / 256)
  end.

Definition word8 (x : Z) : bytes := word_le 1 x.
Definition word16le (x : Z) : bytes := word_le 2 x.
Definition word32le (x : Z) : bytes := word_le 4 x.
Definition word64le (x : Z) : bytes := word_le 8 x.

(** The field of [n] bytes at [off] as [binary.parse(buf)...wordNle(name)]
    reads it, the low byte first, or [null] (here [None]) when the buffer
    ends before it: what the parser gives for a field when all the fields
    before it fit. *)
Fixpoint le_value (l : bytes) : Z :=
  match l with
  | [] => 0
  | b :: rest => b + 256 * le_value rest
  end.

Definition parse_word (buf : bytes) (off : Z) (n : nat) : option Z :=
  if off + Z.of_nat n <=? Z.of_nat (length buf)
  then Some (le_value (slice buf off (off + Z.of_nat n)))
  else None.

(** The parser of [binary.parse(buf)] keeps an offset, which [skip(n)]
    moves; [wordNle(name)] reads the field at the offset and moves past it,
    or, when the buffer ends before the field does, stores [null] (here
    [None]) and leaves the offset where it is. *)
Definition parse_next (buf : bytes) (off : Z) (n : nat) : option Z * Z :=
  if off + Z.of_nat n <=? Z.of_nat (length buf)
  then (Some (le_value (slice buf off (off + Z.of_nat n))), off + Z.of_nat n)
  else (None, off).

(** The fields of a chain [wordNle(..).wordNle(..)...], parsed one after
    the other from [off]; and which of them a buffer of [len] bytes
    holds. *)
Fixpoint parse_chain (buf : bytes) (off : Z) (ns : list nat) : list (option Z) :=
  match ns with
  | [] => []
  | n :: ns' => (parse_next buf off n).1 :: parse_chain buf (parse_next buf off n).2 ns'
  end.

Fixpoint chain_shape (len off : Z) (ns : list nat) : list bool :=
  match ns with
  | [] => []
  | n :: ns' =>
    if off + Z.of_nat n <=? len
    then true :: chain_shape len (off + Z.of_nat n) ns'
    else false :: chain_shape len off ns'
  end.

(** [v.toString(radix)] on a parsed field: a TypeError on [null]. *)
Definition toString_of (v : option Z) : result unit :=
  match v with
  | Some _ => Ok ()
  | None => Throw TypeError
  end.

(** A parsed field as an operand of [&]: [null] is 0. *)
Definition int_of (v : option Z) : Z := default 0 v.

(** The low and high 32 bits of a [Long]. *)
Definition getLowBitsUnsigned (v : Z) : Z := v mod 2^32.
Definition getHighBitsUnsigned (v : Z) : Z := (v / 2^32) mod 2^32.

(** [Long.prototype.toNumber()], [high * 2^32 + (low >>> 0)] in double
    arithmetic: the value itself when 53 bits hold it, and else the nearest
    number with 53 significant bits, a tie going to the even one. *)
Definition toNumber (v : Z) : Z :=
  let a := Z.abs v in
  let e := Z.log2 a - 52 in
  if e <=? 0 then v else
  let q := a / 2 ^ e in
  let r := a mod 2 ^ e in
  let half := 2 ^ (e - 1) in
  let q := if (half <? r) || ((r =? half) && Z.odd q) then q + 1 else q in
  Z.sgn v * (q * 2 ^ e).

End Codec.

(** ** lib/spi: the Tree and File contract the handlers consume *)

Module Spi.
Import Status Ntlmv2.

(** What a handler does to the backend besides asking it for values. *)
Inductive Effect : Type :=
| SetLastModifiedTime (fid : Z) (ms : Z)
| SetDeleteOnClose (fid : Z)
| CloseFile (fid : Z)
| SetLength (fid : Z) (length : Z)
| DeleteFile (fid : Z)
| Rename (fid : Z) (newPath : jsstring)
| OpenOrCreate (name : jsstring) (disposition : Z) (isDirectory : bool)
| ListFiles (pattern : jsstring)
| ReadFile (fid : Z) (length : Z) (position : option Z).

(** A [File]: the values of its getters, and what its asynchronous methods
    hand to their callbacks. *)
Record File : Type := mkFile {
  fid : Z;
  getName : jsstring;
  getPath : jsstring;
  isDirectory : bool;
  size : Z;
  getDataSize : Z;
  getAllocationSize : Z;
  getCreatedTime : Z;
  getLastModifiedTime : Z;
  getLastAccessedTime : Z;
  getLastChangedTime : Z;
  getAttributes : Z;
  getCreateAction : Z;
  onNamedPipe : bool;        (* [file.getTree().getShare().isNamedPipe()] *)
  setLength : Z -> option SMBError;
  delete : option SMBError;
  read : bytes -> Z -> Z -> option Z -> SMBError + (Z * bytes)
    (* [read(buffer, offset, length, position, cb)]: the error, or the count
       given to [cb] with what the buffer holds after the read; the position
       is [None] when the caller passes [null] *)
}.

Record Tree : Type := mkTree {
  isNamedPipe : bool;        (* [tree.getShare().isNamedPipe()] *)
  getFile : Z -> option File;
  closeFile : Z -> option SMBError;
  openOrCreate : jsstring -> Z -> bool -> SMBError + File;
  listFiles : jsstring -> SMBError + list File;   (* [tree.list(pattern, cb)] *)
  rename : File -> jsstring -> option SMBError
}.

(** [server.getTree(tid)] *)
Record Server : Type := mkServer {
  getTree : Z -> option Tree
}.

End Spi.

(** ** lib/smb/cmd: the command handlers *)

Module Cmd.
Import Status Utils Utils2 Codec Spi Ntlmv2.

(** [result.params] is a Buffer, except where a handler puts a status
    number there. *)
Inductive Params : Type :=
| PBuffer (b : bytes)
| PStatus (s : NTSTATUS).

(** The object a handler hands to its continuation. *)
Record Result : Type := mkResult {
  status : NTSTATUS;
  params : Params;
  data : bytes;
  wordCount : option Z;
  byteCount : option Z
}.

(** [{ status, params: utils.EMPTY_BUFFER, data: utils.EMPTY_BUFFER }] *)
Definition empty_result (s : NTSTATUS) : Result :=
  mkResult s (PBuffer EMPTY_BUFFER) EMPTY_BUFFER None None.

(** What a handler run amounts to: its effects on the backend, then either
    the result given to [cb] or the exception it raised. *)
Definition Outcome : Type := list Effect * result Result.

Definition respond (effects : list Effect) (r : Result) : Outcome := (effects, Ok r).
Definition raise (effects : list Effect) (e : exn) : Outcome := (effects, Throw e).

Section Handlers.

Variable SMB : Constants.
Variable server : Server.

(** [utils.getParentPath] (lib/utils.js) and Node's [path.join]. *)
Variable getParentPath : jsstring -> jsstring.
Variable Path_join : jsstring -> jsstring -> jsstring.

(** [utils.extractUnicodeBytes(buf, off)] (lib/utils.js, not among the
    sources): the bytes of the null-terminated UTF-16LE string at [off], or
    the exception it raises on a buffer it cannot decode. *)
Variable extractUnicodeBytes : bytes -> Z -> result bytes.

(** [buffer.kMaxLength], the largest size Node allows for a Buffer. *)
Variable kMaxLength : Z.

(** [new Buffer(size)]: [size] zero bytes (Node fills the memory with
    zeros since version 8); a RangeError when the size is negative or
    beyond [kMaxLength], a TypeError when it is [null]. *)
Definition new_Buffer_zeroed (size : option Z) : result bytes :=
  match size with
  | None => Throw TypeError
  | Some size =>
    if (size <? 0) || (kMaxLength <? size) then Throw RangeError
    else Ok (replicate (Z.to_nat size) 0)
  end.

(** cmd/close.js: [handle] *)
Definition close_handle (tid : Z) (commandParams commandData : bytes) : Outcome :=
  match readUInt16LE commandParams 0 with
  | Throw e => raise [] e
  | Ok fid =>
  match readUInt32LE commandParams 2 with
  | Throw e => raise [] e
  | Ok lastTimeModified =>
  match getTree server tid with
  | None => respond [] (empty_result STATUS_SMB_BAD_TID)
  | Some tree =>
  match getFile tree fid with
  | None => respond [] (empty_result STATUS_SMB_BAD_FID)
  | Some file =>
    let e1 :=
      if negb (lastTimeModified =? 0) && negb (lastTimeModified =? 0xffffffff)
      then [SetLastModifiedTime fid (lastTimeModified * 1000)] else [] in
    match closeFile tree fid with
    | Some err => respond (e1 ++ [CloseFile fid]) (empty_result STATUS_UNSUCCESSFUL)
    | None => respond (e1 ++ [CloseFile fid]) (empty_result STATUS_SUCCESS)
    end
  end end end end.

(** cmd/delete.js: [handle] *)
Definition delete_files (files : list File) : list Effect * option SMBError :=
  (DeleteFile <$> (fid <$> files),
   head (omap (fun f => delete f) files)).

Definition delete_handle (tid : Z) (commandParams commandData : bytes) (commandDataOffset : Z)
  : Outcome :=
  match readUInt16LE commandParams 0 with
  | Throw e => raise [] e
  | Ok searchAttributes =>
  let off := 0 in
  match readUInt8 commandData off with
  | Throw e => raise [] e
  | Ok bufferFormat =>
  let off := off + 1 in
  let off := off + calculatePadLength (commandDataOffset + off) 2 in
  match extractUnicodeBytes commandData off with
  | Throw e => raise [] e
  | Ok nameBytes =>
  let fileName := from_utf16le nameBytes in
  match getTree server tid with
  | None => respond [] (empty_result STATUS_SMB_BAD_TID)
  | Some tree =>
    match listFiles tree fileName with
    | inl err => respond [ListFiles fileName] (empty_result (status_or_unsuccessful err))
    | inr files =>
      if bool_decide (files = []) then
        respond [ListFiles fileName] (empty_result STATUS_NO_SUCH_FILE)
      else
        let '(effects, err) := delete_files files in
        respond (ListFiles fileName :: effects)
          (empty_result (match err with
                         | Some err => status_or_unsuccessful err
                         | None => STATUS_SUCCESS
                         end))
    end
  end end end end.

(** cmd/read_andx.js: [handle] *)
Definition DATA_OFFSET : Z := 60.

Definition read_andx_handle (tid : Z) (commandParams commandData : bytes) : Outcome :=
  (* [binary.parse(commandParams).skip(4).word16le('fid').word32le('offset')
     .word16le('maxCountOfBytesToReturn')]; the fields parsed after these
     are only logged *)
  let off := 0 + 4 in
  let '(fid, off) := parse_next commandParams off 2 in
  let '(offset, off) := parse_next commandParams off 4 in
  let '(maxCountOfBytesToReturn, off) := parse_next commandParams off 2 in
  let offsetHigh :=
    if Z.of_nat (length commandParams) =? 24
    then readUInt32LE commandParams 20 else Ok 0 in
  match offsetHigh with
  | Throw e => raise [] e
  | Ok offsetHigh =>
  let offset :=
    if negb (offsetHigh =? 0)
    then Some (toNumber (Long (int_of offset) offsetHigh)) else offset in
  match getTree server tid with
  | None => respond [] (empty_result STATUS_SMB_BAD_TID)
  | Some tree =>
  let maxCount :=
    if negb (isNamedPipe tree) then
      match readUInt16LE commandParams 14 with
      | Throw e => Throw e
      | Ok maxCountHigh =>
        (* [maxCountHigh << 16] is a 32-bit signed shift *)
        let high := Z.shiftl maxCountHigh 16 in
        let high := if high <? 2^31 then high else high - 2^32 in
        Ok (Some (int_of maxCountOfBytesToReturn + high))
      end
    else Ok maxCountOfBytesToReturn in
  match maxCount with
  | Throw e => raise [] e
  | Ok maxCount =>
  match fid ≫= getFile tree with   (* [tree.getFile(null)] finds no file *)
  | None => respond [] (empty_result STATUS_SMB_BAD_FID)
  | Some file =>
    if isDirectory file then respond [] (empty_result STATUS_FILE_IS_A_DIRECTORY) else
    match new_Buffer_zeroed maxCount with
    | Throw e => raise [] e
    | Ok buf =>
    let effects := [ReadFile (int_of fid) (Z.of_nat (length buf)) offset] in
    match read file buf 0 (Z.of_nat (length buf)) offset with
    | inl err => respond effects (empty_result (status_or_unsuccessful err))
    | inr (bytesRead, buffer) =>
      match readUInt8 commandParams 0, readUInt16LE commandParams 2 with
      | Ok next, Ok nextOffset =>
        let params :=
          word8 next ++ word8 0 ++ word16le nextOffset
          ++ word16le 0 ++ word16le 0 ++ word16le 0
          ++ word16le (Z.land bytesRead 0xffff)
          ++ word16le DATA_OFFSET
          ++ word16le (Z.shiftr bytesRead 16)
          ++ replicate 8 0 in
        match new_Buffer_zeroed (Some (1 + bytesRead)) with
        | Throw e => raise effects e
        | Ok [] => raise effects RangeError   (* [data.writeInt8(0, 0)] *)
        | Ok (_ :: rest) =>
          (* [buf.copy(data, 1, 0, bytesRead)]: as many bytes as [buf] has *)
          let copied := take (Z.to_nat bytesRead) buffer in
          let data := 0 :: copied ++ drop (length copied) rest in
          respond effects (mkResult STATUS_SUCCESS (PBuffer params) data None None)
        end
      | Throw e, _ | _, Throw e => raise effects e
      end
    end
    end
  end end end end.

(** cmd/trans2/trans2_set_fs_information.js: [handle], which serves the
    set-file-information levels *)
Definition success_with_status_params : Result :=
  mkResult STATUS_SUCCESS (PStatus STATUS_SUCCESS) EMPTY_BUFFER None None.

Definition read_u64 (buf : bytes) : result Z :=
  lo ← readUInt32LE buf 0;
  hi ← readUInt32LE buf 4;
  Ok (lo + 2^32 * hi).

Definition set_length_result (err : option SMBError) : Result :=
  match err with
  | Some err => empty_result (status_or_unsuccessful err)
  | None => success_with_status_params
  end.

Definition trans2_set_fs_information_handle (tid : Z) (commandParams commandData : bytes)
    (commandDataOffset : Z) : Outcome :=
  match readUInt16LE commandParams 0 with
  | Throw e => raise [] e
  | Ok fid =>
  match readUInt16LE commandParams 2 with
  | Throw e => raise [] e
  | Ok informationLevel =>
  if informationLevel <? INFO_PASSTHROUGH SMB then
    respond [] (empty_result STATUS_NOT_SUPPORTED)
  else
  match getTree server tid with
  | None => respond [] (empty_result STATUS_SMB_BAD_TID)
  | Some tree =>
  match getFile tree fid with
  | None => respond [] (empty_result STATUS_SMB_BAD_FID)
  | Some file =>
    if informationLevel =? FILE_DISPOSITION_INFORMATION SMB then
      match readUInt8 commandData 0 with
      | Throw e => raise [] e
      | Ok deletePending =>
        respond (if negb (deletePending =? 0) then [SetDeleteOnClose fid] else [])
          success_with_status_params
      end
    else if informationLevel =? FILE_END_OF_FILE_INFORMATION SMB then
      match read_u64 commandData with
      | Throw e => raise [] e
      | Ok endOfFile =>
        respond [SetLength fid endOfFile] (set_length_result (setLength file endOfFile))
      end
    else if informationLevel =? FILE_ALLOCATION_INFORMATION SMB then
      match read_u64 commandData with
      | Throw e => raise [] e
      | Ok allocationSize =>
        if (allocationSize =? 0) && negb (size file =? 0) then
          respond [SetLength fid 0] (set_length_result (setLength file 0))
        else
          respond [] success_with_status_params
      end
    else if informationLevel =? FILE_RENAME_INFORMATION SMB then
      let off := 0 in
      match readUInt8 commandData off with
      | Throw e => raise [] e
      | Ok replaceIfExists =>
      let off := off + 1 in
      let off := off + 3 in
      match readUInt32LE commandData off with
      | Throw e => raise [] e
      | Ok rootDirectory =>
      let off := off + 4 in
      match readUInt32LE commandData off with
      | Throw e => raise [] e
      | Ok fileNameLength =>
      let off := off + 4 in
      let off := off + calculatePadLength (commandDataOffset + off) 2 in
      match extractUnicodeBytes commandData off with
      | Throw e => raise [] e
      | Ok nameBytes =>
      let targetName := from_utf16le nameBytes in
      let targetPath := Path_join (getParentPath (getPath file)) targetName in
      respond [Rename fid targetPath]
        (empty_result (match rename tree file targetPath with
                       | Some err => status_or_unsuccessful err
                       | None => STATUS_SUCCESS
                       end))
      end end end end
    else
      respond [] (empty_result STATUS_NOT_IMPLEMENTED)
  end end end end.

(** cmd/nt_create_andx.js: [handle] *)
Definition NT_CREATE_REQUEST_OPLOCK : Z := 0x00000002.
Definition NT_CREATE_REQUEST_OPBATCH : Z := 0x00000004.
Definition NT_CREATE_OPEN_TARGET_DIR : Z := 0x00000008.
Definition NT_CREATE_REQUEST_EXTENDED_RESPONSE : Z := 0x00000010.

Definition NO_EAS : Z := 0x0001.
Definition NO_SUBSTREAMS : Z := 0x0002.
Definition NO_REPARSETAG : Z := 0x0004.

(** [x & mask ? a : b]: the conditional on a bitwise and. *)
Definition truthy (v : Z) : bool := negb (v =? 0).

Definition smb_time_words (ms : Z) : bytes :=
  let t := systemToSMBTime ms in
  word32le (getLowBitsUnsigned t) ++ word32le (getHighBitsUnsigned t).

(** [buildResult(file, callback)], with [next] and [nextOffset] the two
    reads of the AndX header it starts with. *)
Definition build_params (flags : Z) (next nextOffset : Z) (file : File) : bytes :=
  word8 next
  ++ word8 0
  ++ word16le nextOffset
  ++ word8 (if truthy (Z.land flags NT_CREATE_REQUEST_OPBATCH) then 2 else 0)
  ++ word16le (fid file)
  ++ word32le (getCreateAction file)
  ++ smb_time_words (getCreatedTime file)
  ++ smb_time_words (getLastAccessedTime file)
  ++ smb_time_words (getLastModifiedTime file)
  ++ smb_time_words (getLastChangedTime file)
  ++ word32le (getAttributes file)
  ++ word64le (getAllocationSize file)
  ++ word64le (getDataSize file)
  ++ word16le (if onNamedPipe file then FILE_TYPE_MESSAGEMODEPIPE SMB else FILE_TYPE_DISK SMB)
  ++ (if truthy (Z.land flags NT_CREATE_REQUEST_EXTENDED_RESPONSE) then
        word16le (Z.lor (Z.lor NO_EAS NO_SUBSTREAMS) NO_REPARSETAG)
        ++ word8 (if isDirectory file then 1 else 0)
        ++ ZERO_GUID
        ++ word64le 0
        ++ word32le (if isDirectory file then DIRECTORY_ACCESS_ALL SMB else FILE_ACCESS_ALL SMB)
        ++ word32le (if isDirectory file then DIRECTORY_ACCESS_READONLY SMB
                     else FILE_ACCESS_READONLY SMB)
      else
        word16le 0
        ++ word8 (if isDirectory file then 1 else 0)).

Definition buildResult (flags : Z) (commandParams : bytes) (file : File) : result Result :=
  next ← readUInt8 commandParams 0;
  nextOffset ← readUInt16LE commandParams 2;
  let params := build_params flags next nextOffset file in
  let result := mkResult STATUS_SUCCESS (PBuffer params) EMPTY_BUFFER None None in
  (* [params.length / 2 > 0x2a] *)
  if Z.of_nat (length params) >? 2 * 0x2a
  then Ok (mkResult STATUS_SUCCESS (PBuffer params) EMPTY_BUFFER (Some 0x2a) None)
  else Ok result.

Definition nt_create_andx_handle (tid : Z) (commandParams commandData : bytes)
    (commandDataOffset : Z) : Outcome :=
  (* skip(4), skip(1) *)
  let nameLength := parse_word commandParams 5 2 in
  let flags := parse_word commandParams 7 4 in
  let rootDirectoryFID := parse_word commandParams 11 4 in
  let desiredAccess := parse_word commandParams 15 4 in
  let allocationSize := parse_word commandParams 19 8 in
  let extFileAttributes := parse_word commandParams 27 4 in
  let shareAccess := parse_word commandParams 31 4 in
  let createDisposition := parse_word commandParams 35 4 in
  let createOptions := parse_word commandParams 39 4 in
  let impersonationLevel := parse_word commandParams 43 4 in
  let securityFlags := parse_word commandParams 47 1 in
  let off := calculatePadLength commandDataOffset 2 in
  match extractUnicodeBytes commandData off with
  | Throw e => raise [] e
  | Ok nameBytes =>
  let fileName := from_utf16le nameBytes in
  (* the arguments of [logger.debug]: [.toString(radix)] of parsed fields *)
  let logged :=
    _ ← toString_of flags; _ ← toString_of desiredAccess;
    _ ← toString_of extFileAttributes; _ ← toString_of shareAccess;
    _ ← toString_of createDisposition; _ ← toString_of createOptions;
    _ ← toString_of impersonationLevel; toString_of securityFlags in
  match logged with
  | Throw e => raise [] e
  | Ok _ =>
  match getTree server tid with
  | None => respond [] (empty_result STATUS_SMB_BAD_TID)
  | Some tree =>
    let isDir := truthy (Z.land (int_of createOptions) (FILE_DIRECTORY_FILE SMB)) in
    let effects := [OpenOrCreate fileName (int_of createDisposition) isDir] in
    match openOrCreate tree fileName (int_of createDisposition) isDir with
    | inl err => respond effects (empty_result (status_or_unsuccessful err))
    | inr file =>
      match buildResult (int_of flags) commandParams file with
      | Throw e => raise effects e
      | Ok result => respond effects result
      end
    end
  end end end.

End Handlers.

End Cmd.

(** ** lib/smb/handler.js: the dispatcher *)

Module Dispatch.
Import Status Cmd.

Record Flags : Type := mkFlags {
  reply : bool;
  ntStatus : bool;
  unicode : bool;
  pathnames_long_supported : bool
}.

Record Header : Type := mkHeader {
  h_status : NTSTATUS;
  h_flags : Flags;
  h_tid : Z
}.

Record Command : Type := mkCommand {
  commandId : Z;
  c_wordCount : Z;
  c_params : Params;
  c_byteCount : Z;
  c_data : bytes;
  paramsOffset : Z;
  dataOffset : Z
}.

Record Message : Type := mkMessage {
  header : Header;
  commands : list Command;
  processed : bool
}.

(** How a handler ends: it calls its continuation [cb] with a result or
    with none, or it raises, which the domain of the dispatcher turns into
    [process.exit(1)]. *)
Inductive HandlerEnd : Type :=
| Respond (r : option Result)
| Fault (e : exn).

Definition Handler : Type := Message -> Command -> HandlerEnd.

(** What the dispatcher does, in order. *)
Inductive Event : Type :=
| EvHandler (commandId : Z)                        (* [handler(msg, ...)] *)
| EvCallback (commandId : Z) (err : option NTSTATUS) (* the [callback] of eachSeries *)
| EvSend (status : NTSTATUS) (msg : Message)       (* [connection.sendRawMessage] *)
| EvDone                                           (* [cb()] *)
| EvExit.                                          (* [process.exit(1)] *)

(** How a run ends: normally, with the process gone, or with an
    exception that leaves [_handleRequest]. *)
Inductive End : Type :=
| Finished
| Exited
| Raised (e : exn).

Definition Trace : Type := list Event * End.

(** [t] and then, if [t] ended normally, [k]. *)
Definition and_then (t : Trace) (k : Trace) : Trace :=
  match t.2 with
  | Finished => (t.1 ++ k.1, k.2)
  | _ => t
  end.

(** [d.run(function () { ... })] with the domain's error handler:
    an exception raised inside is logged and the process exits. *)
Definition in_domain (t : Trace) : Trace :=
  match t.2 with
  | Raised _ => (t.1 ++ [EvExit], Exited)
  | _ => t
  end.

Definition set_processed (msg : Message) : Message :=
  mkMessage (header msg) (commands msg) true.

Definition set_header_status (msg : Message) (s : NTSTATUS) : Message :=
  mkMessage (mkHeader s (h_flags (header msg)) (h_tid (header msg)))
    (commands msg) (processed msg).

(** [sendResponse(msg, status, connection, server, cb)] *)
Definition reply_to (msg : Message) (status : NTSTATUS) : Message :=
  mkMessage (mkHeader status (mkFlags true true true true) (h_tid (header msg)))
    (commands msg) (processed msg).

Definition sendResponse (msg : Message) (status : NTSTATUS) : Trace :=
  ([EvSend status (reply_to msg status)], Finished).

(** [if (result.wordCount) cmd.wordCount = result.wordCount] *)
Definition override (old : Z) (new : option Z) : Z :=
  match new with
  | Some v => if v =? 0 then old else v
  | None => old
  end.

(** The stash of a successful result into the command at index [i]. *)
Definition stash (msg : Message) (i : nat) (cmd : Command) (r : Result) : Message :=
  let cmd' :=
    mkCommand (commandId cmd)
      (override (c_wordCount cmd) (wordCount r)) (params r)
      (override (c_byteCount cmd) (byteCount r)) (data r)
      (paramsOffset cmd) (dataOffset cmd) in
  mkMessage (header msg) (<[i := cmd']> (commands msg)) (processed msg).

(** The continuation async gives the iteratee: what follows a call of it,
    from the message as it stands and the error passed. *)
Definition Callback : Type := Message -> option NTSTATUS -> Trace.

(** A call of the continuation for command [id].  async lets it be called
    once; a second call raises an Error. *)
Definition call (called : bool) (callback : Callback) (id : Z)
    (msg : Message) (err : option NTSTATUS) : Trace :=
  if called then ([], Raised AsyncError)
  else and_then ([EvCallback id err], Finished) (callback msg err).

Section Dispatcher.

(** [SMB.COMMAND_TO_STRING[id]], [None] where the table has no entry, and
    [cmdHandlers[name]], the modules found in the directory cmd/. *)
Variable COMMAND_TO_STRING : Z -> option string.
Variable cmdHandlers : string -> option Handler.

(** The property name [cmdHandlers[command]] looks up. *)
Definition handler_key (command : option string) : string :=
  match command with
  | Some s => s
  | None => "undefined"
  end.

(** [!command] *)
Definition falsy (command : option string) : bool :=
  match command with
  | Some s => bool_decide (s = "")
  | None => true
  end.

(** [command.toUpperCase()] *)
Definition toUpperCase_of (command : option string) : result unit :=
  match command with
  | Some _ => Ok ()
  | None => Throw TypeError
  end.

(** The function the handler is given as [cb]. *)
Definition continuation (called : bool) (callback : Callback) (i : nat) (cmd : Command)
    (msg : Message) (r : option Result) : Trace :=
  match r with
  | None => call called callback (commandId cmd) (set_processed msg) None
  | Some r =>
    if status_eqb (status r) STATUS_SUCCESS
       || status_eqb (status r) STATUS_MORE_PROCESSING_REQUIRED
    then
      let msg := stash msg i cmd r in
      let msg :=
        if status_eqb (status r) STATUS_MORE_PROCESSING_REQUIRED
        then set_header_status msg (status r) else msg in
      call called callback (commandId cmd) msg None
    else
      call called callback (commandId cmd) msg (Some (status r))
  end.

(** The iteratee, [function (cmd, callback) { ... }], on the command at
    index [i].  There is no [return] after the call for an unknown
    command: the function goes on to look up a handler. *)
Definition iteratee (msg : Message) (i : nat) (cmd : Command) (callback : Callback) : Trace :=
  let command := COMMAND_TO_STRING (commandId cmd) in
  let unknown :=
    if falsy command
    then call false callback (commandId cmd) msg (Some STATUS_SMB_BAD_COMMAND)
    else ([], Finished) in
  let called := falsy command in
  and_then unknown
    match cmdHandlers (handler_key command) with
    | Some handler =>
      in_domain
        (and_then ([EvHandler (commandId cmd)], Finished)
           match handler msg cmd with
           | Fault e => ([], Raised e)
           | Respond r => continuation called callback i cmd msg r
           end)
    | None =>
      match toUpperCase_of command with
      | Throw e => ([], Raised e)
      | Ok _ => call called callback (commandId cmd) msg (Some STATUS_NOT_IMPLEMENTED)
      end
    end.

(** The final callback, [function (err) { ... }]. *)
Definition final (msg : Message) (err : option NTSTATUS) : Trace :=
  match err with
  | Some status => sendResponse msg status
  | None =>
    if processed msg then ([EvDone], Finished)
    else sendResponse msg (h_status (header msg))  (* [status || STATUS_SUCCESS] *)
  end.

(** [async.eachSeries(msg.commands, iteratee, final)], from the command at
    index [i] on. *)
Fixpoint eachSeries (msg : Message) (i : nat) (cmds : list Command) : Trace :=
  match cmds with
  | [] => final msg None
  | cmd :: rest =>
    iteratee msg i cmd
      (fun msg' err =>
         match err with
         | Some status => final msg' (Some status)
         | None => eachSeries msg' (S i) rest
         end)
  end.

(** [_handleRequest(msg, connection, server, cb)] *)
Definition _handleRequest (msg : Message) : Trace :=
  eachSeries msg 0 (commands msg).

(** The message after the command at index [i] has been handled without
    error, if it is. *)
Definition passes (msg : Message) (i : nat) (cmd : Command) : option Message :=
  let command := COMMAND_TO_STRING (commandId cmd) in
  if falsy command then None else
  match cmdHandlers (handler_key command) with
  | None => None
  | Some handler =>
    match handler msg cmd with
    | Fault _ => None
    | Respond None => Some (set_processed msg)
    | Respond (Some r) =>
      if status_eqb (status r) STATUS_MORE_PROCESSING_REQUIRED
      then Some (set_header_status (stash msg i cmd r) (status r))
      else if status_eqb (status r) STATUS_SUCCESS
      then Some (stash msg i cmd r)
      else None
    end
  end.

Fixpoint pass_all (msg : Message) (i : nat) (cmds : list Command) : option Message :=
  match cmds with
  | [] => Some msg
  | cmd :: rest =>
    match passes msg i cmd with
    | Some msg' => pass_all msg' (S i) rest
    | None => None
    end
  end.

(** The events of commands handled without error. *)
Definition pass_events (cmds : list Command) : list Event :=
  cmds ≫= (fun cmd => [EvHandler (commandId cmd); EvCallback (commandId cmd) None]).

End Dispatcher.

(** A handler of lib/smb/cmd as the dispatcher calls it. *)
Definition as_handler (h : Z -> bytes -> bytes -> Z -> Outcome) : Handler :=
  fun msg cmd =>
    match c_params cmd with
    | PStatus _ => Fault TypeError   (* a number has no [readUInt16LE] *)
    | PBuffer params =>
      match (h (h_tid (header msg)) params (c_data cmd) (dataOffset cmd)).2 with
      | Ok r => Respond (Some r)
      | Throw e => Fault e
      end
    end.

End Dispatch.

(** ** The claims' vocabulary for the dispatcher and the handlers *)

Module DispatchSpec.
Import Status Utils2 Spi Cmd Dispatch.

(** The callbacks of eachSeries for command [id]. *)
Definition callbacks_of (id : Z) (evs : list Event) : list (option NTSTATUS) :=
  omap (fun e => match e with
                 | EvCallback id' err => if id' =? id then Some err else None
                 | _ => None
                 end) evs.

(** The fields a handler decodes before it resolves the TID are inside the
    request: the fixed-size ones and, where there is one, the file name. *)
Definition close_well_formed (commandParams : bytes) : Prop :=
  6 <= Z.of_nat (length commandParams).
Definition delete_well_formed (extractUnicodeBytes : bytes -> Z -> result bytes)
    (commandParams commandData : bytes) (commandDataOffset : Z) : Prop :=
  2 <= Z.of_nat (length commandParams) /\ 1 <= Z.of_nat (length commandData)
  /\ exists name,
      extractUnicodeBytes commandData (1 + calculatePadLength (commandDataOffset + 1) 2)
      = Ok name.
Definition nt_create_andx_well_formed (extractUnicodeBytes : bytes -> Z -> result bytes)
    (commandParams commandData : bytes) (commandDataOffset : Z) : Prop :=
  48 <= Z.of_nat (length commandParams)
  /\ exists name,
      extractUnicodeBytes commandData (calculatePadLength commandDataOffset 2) = Ok name.

(** [extractUnicodeBytes] as the specification describes it. *)
Definition sample_extractUnicodeBytes (buf : bytes) (off : Z) : result bytes :=
  Ok (Utils2.extractUnicodeBytes buf off).
Definition set_file_information_well_formed (commandParams : bytes) : Prop :=
  4 <= Z.of_nat (length commandParams).

(** The constants as MS-CIFS and MS-SMB give them. *)
Definition ms_smb_constants : Constants :=
  {| INFO_PASSTHROUGH := 0x03e8;
     FILE_DISPOSITION_INFORMATION := 0x03e8 + 13;
     FILE_END_OF_FILE_INFORMATION := 0x03e8 + 20;
     FILE_ALLOCATION_INFORMATION := 0x03e8 + 19;
     FILE_RENAME_INFORMATION := 0x03e8 + 10;
     FILE_TYPE_DISK := 0x0000;
     FILE_TYPE_MESSAGEMODEPIPE := 0x0005;
     DIRECTORY_ACCESS_ALL := 0x001f01ff;
     FILE_ACCESS_ALL := 0x001f01ff;
     DIRECTORY_ACCESS_READONLY := 0x001200a9;
     FILE_ACCESS_READONLY := 0x001200a9;
     FILE_DIRECTORY_FILE := 0x00000001;
     ATTR_HIDDEN := 0x0002;
     ATTR_SYSTEM := 0x0004 |}.

(** [buffer.kMaxLength] of a 64-bit Node from version 3 to version 13. *)
Definition node_kMaxLength : Z := 2 ^ 31 - 1.

(** A server on which no TID resolves. *)
Definition no_tree_server : Server := {| getTree := fun _ => None |}.

(** The command table and the handlers of a server that knows CLOSE (0x04)
    only. *)
Definition sample_COMMAND_TO_STRING (id : Z) : option string :=
  if id =? 0x04 then Some "close" else None.

Definition sample_cmdHandlers (server : Server) (name : string) : option Handler :=
  if bool_decide (name = "close")
  then Some (as_handler (fun tid params data _ => close_handle server tid params data))
  else None.

(** A server with one tree, TID 1, and one open file in it, FID 1. *)
Definition sample_file : File :=
  {| fid := 1; getName := [97]; getPath := [47; 97]; isDirectory := false;
     size := 3; getDataSize := 3; getAllocationSize := 3;
     getCreatedTime := 1600000000000; getLastModifiedTime := 1600000000000;
     getLastAccessedTime := 0; getLastChangedTime := 1600000000000;
     getAttributes := 0x80; getCreateAction := 1; onNamedPipe := false;
     setLength := fun _ => Some (mkSMBError (Some STATUS_SMB_NO_SUPPORT));
     delete := Some (mkSMBError (Some STATUS_SMB_NO_SUPPORT));
     read := fun buffer _ _ _ => inr (0, buffer) |}.

Definition sample_tree : Tree :=
  {| isNamedPipe := false;
     getFile := fun fid => if fid =? 1 then Some sample_file else None;
     closeFile := fun _ => None;
     openOrCreate := fun _ _ _ => inr sample_file;
     listFiles := fun _ => inr [];
     rename := fun _ _ => Some (mkSMBError (Some STATUS_SMB_NO_SUPPORT)) |}.

Definition sample_server : Server :=
  {| getTree := fun tid => if tid =? 1 then Some sample_tree else None |}.

(** NT_CREATE_ANDX parameters (24 words): flags 0x16, that is OPLOCK,
    OPBATCH and EXTENDED_RESPONSE; and the same with flags 0. *)
Definition nt_create_params (flags : Z) : bytes :=
  [0xff; 0x00; 0x00; 0x00;  0x00;  0x02; 0x00;  flags; 0x00; 0x00; 0x00;
   0x00; 0x00; 0x00; 0x00;  0x9f; 0x01; 0x02; 0x00;
   0x00; 0x00; 0x00; 0x00; 0x00; 0x00; 0x00; 0x00;
   0x00; 0x00; 0x00; 0x00;  0x07; 0x00; 0x00; 0x00;
   0x01; 0x00; 0x00; 0x00;  0x40; 0x00; 0x00; 0x00;
   0x02; 0x00; 0x00; 0x00;  0x03].

(** TRANS2 set-file-information parameters: FID 1 and the information
    level. *)
Definition set_file_info_params (informationLevel : Z) : bytes :=
  [0x01; 0x00; informationLevel mod 256; informationLevel / 256; 0x00; 0x00].

Definition request_header : Header :=
  {| h_status := STATUS_SUCCESS; h_flags := mkFlags false false true true; h_tid := 1 |}.

(** CLOSE of FID 1, which the handler refuses (no tree has TID 1), and then
    a command 0xfe, which the table does not know. *)
Definition close_command : Command :=
  {| commandId := 0x04; c_wordCount := 3;
     c_params := PBuffer [0x01; 0x00; 0xff; 0xff; 0xff; 0xff];
     c_byteCount := 0; c_data := []; paramsOffset := 33; dataOffset := 41 |}.

Definition unknown_command : Command :=
  {| commandId := 0xfe; c_wordCount := 0; c_params := PBuffer [];
     c_byteCount := 0; c_data := []; paramsOffset := 33; dataOffset := 35 |}.

Definition close_then_unknown : Message :=
  {| header := request_header; commands := [close_command; unknown_command];
     processed := false |}.

Definition only_unknown : Message :=
  {| header := request_header; commands := [unknown_command]; processed := false |}.

End DispatchSpec.

(** ** lib/backends/sharelist: file.js and tree.js *)

Module Sharelist.
Import Status.

(** The names a module can refer to besides its own: what Node gives every
    module, and the globals the two files use. *)
Definition node_scope : list string :=
  ["require"; "module"; "exports"; "__filename"; "__dirname";
   "process"; "console"; "Promise"; "Date"; "Buffer"].

(** The top-level bindings of file.js: its [var] and [const] declarations
    and the class. *)
Definition file_js_scope : list string :=
  ["util"; "fs"; "Path"; "logger"; "perflog"; "async"; "File"; "SMBError";
   "readFile"; "closeFile"; "FSFile"].

(** The top-level bindings of tree.js. *)
Definition tree_js_scope : list string :=
  ["util"; "Path"; "fs"; "logger"; "perflog"; "async"; "Tree"; "FSFile";
   "SMBError"; "utils"; "mkdirp"; "FSTree"].

(** An identifier evaluated in a module (both files are in strict mode):
    a name bound nowhere is a ReferenceError. *)
Definition resolve (module_scope locals : list string) (name : string) : result unit :=
  if bool_decide (name ∈ locals ++ module_scope ++ node_scope)
  then Ok () else Throw ReferenceError.

(** The backend's state: the files that are open, and per path the
    counter [share.fileCount]. *)
Record FSFile : Type := mkFSFile {
  filePath : string;
  stats_type : string;
  stats_size : Z;
  realPath : string;
  writeable : bool
}.

(** The numbers file.js stores in [share.fileCount]: an integer or NaN. *)
Inductive Num : Type :=
| Int (n : Z)
| NaN.

(** [share.fileCount] is an Array ([this.fileCount = []], share.js) that
    file.js uses as a map from paths to counters: the properties the Array
    has of its own, [length] apart, and its [length]. *)
Record CountArray : Type := mkCountArray {
  a_own : gmap string Num;
  a_length : Z
}.

Record Backend : Type := mkBackend {
  fileCount : CountArray;
  files : list FSFile
}.

(** The canonical decimal form of an integer from 0 to 2^32 - 2 names an
    element of an Array. *)
Definition digit (c : Ascii.ascii) : option Z :=
  let n := Z.of_nat (Ascii.nat_of_ascii c) in
  if (48 <=? n) && (n <=? 57) then Some (n - 48) else None.

Fixpoint decimal (acc : Z) (s : string) : option Z :=
  match s with
  | EmptyString => Some acc
  | String c s' => d ← digit c; decimal (10 * acc + d) s'
  end.

Definition array_index (p : string) : option Z :=
  match p with
  | EmptyString => None
  | String c s' =>
    if bool_decide (digit c = Some 0) && negb (bool_decide (s' = EmptyString)) then None
    else v ← decimal 0 p; if v <? 2 ^ 32 - 1 then Some v else None
  end.

(** What a name resolves to up the prototype chain of an Array
    (Array.prototype, Object.prototype), as far as file.js can tell: whether
    the value is truthy, what it is as a number, and what an assignment
    through the Array does (both files are in strict mode). *)
Inductive Assign : Type :=
| MakesOwn   (* a writable data property: the Array gets a property of its own *)
| Ignored    (* an accessor whose setter does nothing with a number *)
| Refused.   (* not writable, or no setter: a TypeError *)

Record Inherited : Type := mkInherited {
  i_truthy : bool;
  i_number : Num;
  i_assign : Assign
}.

(** A function, as [constructor] or [push]: truthy, and NaN as a number. *)
Definition method : Inherited := mkInherited true NaN MakesOwn.

(** [__proto__]: it reads as Array.prototype, an empty Array, which is
    truthy and 0 as a number; its setter ignores what is no object. *)
Definition proto_accessor : Inherited := mkInherited true (Int 0) Ignored.

(** A value read from the Array. *)
Inductive Value : Type :=
| VUndefined
| VNumber (n : Num)
| VInherited (i : Inherited).

Definition ToBoolean (v : Value) : bool :=
  match v with
  | VUndefined => false
  | VNumber (Int n) => negb (n =? 0)
  | VNumber NaN => false
  | VInherited i => i_truthy i
  end.

Definition ToNumber (v : Value) : Num :=
  match v with
  | VUndefined => NaN
  | VNumber n => n
  | VInherited i => i_number i
  end.

Definition num_add (n : Num) (d : Z) : Num :=
  match n with
  | Int n => Int (n + d)
  | NaN => NaN
  end.

(** Whether a property survives [length = n]: the elements from [n] on
    are deleted. *)
Definition kept_by_length (n : Z) (p : string) : bool :=
  match array_index p with
  | Some i => i <? n
  | None => true
  end.

Section Prototype.

(** The properties the prototype chain of an Array defines, by name; no
    code of the repository adds to them. *)
Variable inherited : string -> option Inherited.

(** [fileCount[p]] *)
Definition array_get (a : CountArray) (p : string) : Value :=
  if bool_decide (p = "length") then VNumber (Int (a_length a)) else
  match a_own a !! p with
  | Some n => VNumber n
  | None =>
    match inherited p with
    | Some i => VInherited i
    | None => VUndefined
    end
  end.

(** [fileCount[p] = v]: [length] takes an integer from 0 to 2^32 - 1 and
    cuts the Array to it, and else raises a RangeError; an element beyond
    the end extends the Array. *)
Definition array_set (a : CountArray) (p : string) (v : Num) : result CountArray :=
  if bool_decide (p = "length") then
    match v with
    | Int n =>
      if (0 <=? n) && (n <? 2 ^ 32)
      then Ok (mkCountArray (filter (fun kv => kept_by_length n kv.1 = true) (a_own a)) n)
      else Throw RangeError
    | NaN => Throw RangeError
    end
  else
    let defined :=
      mkCountArray (<[p := v]> (a_own a))
        (match array_index p with
         | Some i => Z.max (a_length a) (i + 1)
         | None => a_length a
         end) in
    match a_own a !! p with
    | Some _ => Ok defined
    | None =>
      match inherited p with
      | None => Ok defined
      | Some i =>
        match i_assign i with
        | MakesOwn => Ok defined
        | Ignored => Ok a
        | Refused => Throw TypeError
        end
      end
    end.

(** [new FSFile(filePath, stats, tree)]: the state left, and the file or
    the exception raised. *)
Definition FSFile_new (b : Backend) (filePath : string) (stats_type : string)
    (stats_size : Z) : Backend * result FSFile :=
  let file := mkFSFile filePath stats_type stats_size filePath false in
  let fc := fileCount b in
  (* [if (!fileCount[realPath]) fileCount[realPath] = 0] *)
  match (if negb (ToBoolean (array_get fc filePath)) then array_set fc filePath (Int 0) else Ok fc) with
  | Throw e => (b, Throw e)
  | Ok fc =>
    (* [fileCount[realPath]++] *)
    match array_set fc filePath (num_add (ToNumber (array_get fc filePath)) 1) with
    | Throw e => (mkBackend fc (files b), Throw e)
    | Ok fc => (mkBackend fc (files b ++ [file]), Ok file)
    end
  end.

End Prototype.

(** A call of a callback, with the error it is given. *)
Inductive Call : Type :=
| CallBack (cb : nat) (err : option SMBError).

(** A function handed to [process.nextTick]. *)
Inductive Deferred : Type :=
| DeferNoSupport (module_scope : list string) (cb : nat)
    (* [function () { cb(new SMBError(ntstatus.STATUS_SMB_NO_SUPPORT)); }] *)
| DeferPlain (cb : nat).
    (* [function () { cb(); }] *)

(** The deferred function, run by the event loop: [cb], then [SMBError],
    then [ntstatus] are evaluated, and then the call is made. *)
Definition run_deferred (d : Deferred) : result (list Call) :=
  match d with
  | DeferNoSupport module_scope cb =>
    _ ← resolve module_scope ["cb"] "cb";
    _ ← resolve module_scope ["cb"] "SMBError";
    _ ← resolve module_scope ["cb"] "ntstatus";
    Ok [CallBack cb (Some (mkSMBError (Some STATUS_SMB_NO_SUPPORT)))]
  | DeferPlain cb => Ok [CallBack cb None]
  end.

(** file.js: [write(data, position, cb)], [setLength(length, cb)],
    [delete(cb)], [flush(cb)] *)
Definition FSFile_write (b : Backend) (file : FSFile) (data : bytes) (position : Z) (cb : nat)
  : Backend * list Deferred :=
  (b, [DeferNoSupport file_js_scope cb]).

Definition FSFile_setLength (b : Backend) (file : FSFile) (length : Z) (cb : nat)
  : Backend * list Deferred :=
  (b, [DeferNoSupport file_js_scope cb]).

Definition FSFile_delete (b : Backend) (file : FSFile) (cb : nat)
  : Backend * list Deferred :=
  (b, [DeferNoSupport file_js_scope cb]).

Definition FSFile_flush (b : Backend) (file : FSFile) (cb : nat)
  : Backend * list Deferred :=
  (b, [DeferPlain cb]).

(** tree.js: [createFile(name, cb)], [createDirectory(name, cb)],
    [delete(name, cb)], [deleteDirectory(name, cb)],
    [rename(oldName, newName, cb)], [disconnect(cb)] *)
Definition FSTree_createFile (b : Backend) (name : string) (cb : nat)
  : Backend * list Deferred :=
  (b, [DeferNoSupport tree_js_scope cb]).

Definition FSTree_createDirectory (b : Backend) (name : string) (cb : nat)
  : Backend * list Deferred :=
  (b, [DeferNoSupport tree_js_scope cb]).

Definition FSTree_delete (b : Backend) (name : string) (cb : nat)
  : Backend * list Deferred :=
  (b, [DeferNoSupport tree_js_scope cb]).

Definition FSTree_deleteDirectory (b : Backend) (name : string) (cb : nat)
  : Backend * list Deferred :=
  (b, [DeferNoSupport tree_js_scope cb]).

Definition FSTree_rename (b : Backend) (oldName newName : string) (cb : nat)
  : Backend * list Deferred :=
  (b, [DeferNoSupport tree_js_scope cb]).

Definition FSTree_disconnect (b : Backend) (cb : nat) : Backend * list Deferred :=
  (b, [DeferPlain cb]).

(** The mutation operations of the backend. *)
Inductive Mutation : Type :=
| FileWrite (file : FSFile) (data : bytes) (position : Z)
| FileSetLength (file : FSFile) (length : Z)
| FileDelete (file : FSFile)
| TreeCreateFile (name : string)
| TreeCreateDirectory (name : string)
| TreeDelete (name : string)
| TreeDeleteDirectory (name : string)
| TreeRename (oldName newName : string).

Definition invoke (b : Backend) (m : Mutation) (cb : nat) : Backend * list Deferred :=
  match m with
  | FileWrite file data position => FSFile_write b file data position cb
  | FileSetLength file length => FSFile_setLength b file length cb
  | FileDelete file => FSFile_delete b file cb
  | TreeCreateFile name => FSTree_createFile b name cb
  | TreeCreateDirectory name => FSTree_createDirectory b name cb
  | TreeDelete name => FSTree_delete b name cb
  | TreeDeleteDirectory name => FSTree_deleteDirectory b name cb
  | TreeRename oldName newName => FSTree_rename b oldName newName cb
  end.

(** The operation, and then the event loop running what it deferred:
    the state, the calls made, and the exception a deferred function
    raised, if one did. *)
Fixpoint run_all (ds : list Deferred) : list Call * option exn :=
  match ds with
  | [] => ([], None)
  | d :: ds' =>
    match run_deferred d with
    | Ok calls => let '(calls', e) := run_all ds' in (calls ++ calls', e)
    | Throw e => ([], Some e)
    end
  end.

Definition perform (b : Backend) (m : Mutation) (cb : nat)
  : Backend * list Call * option exn :=
  let '(b', ds) := invoke b m cb in
  let '(calls, e) := run_all ds in
  (b', calls, e).

End Sharelist.

(** ** lib/ntlm.js: the LM and NTLM (version 1) hashes and responses *)

Module NtlmV1.
Import Utils Ntlm Ntlmv2.

(** ['KGS!@#$%'], as [des.update] receives it. *)
Definition LM_MAGIC : bytes := [0x4b; 0x47; 0x53; 0x21; 0x40; 0x23; 0x24; 0x25].

(** [new Buffer(n)]: [n] bytes of whatever the memory holds, [mem]. *)
Definition new_Buffer (mem : bytes) (n : nat) : bytes :=
  take n (mem ++ replicate n 0).

(** [src.copy(target)]: as many bytes as both buffers have, from the start
    of [src] to the start of [target]. *)
Definition copy (src target : bytes) : bytes :=
  take (length target) src ++ drop (length src) target.

(** [buf.fill(value, start)]: from [start] to the end of the buffer; a
    [start] at or beyond the end fills nothing. *)
Definition fill (buf : bytes) (value : Z) (start : nat) : bytes :=
  take start buf ++ replicate (length buf - start) (u8 value).

(** [new Buffer(s, 'ascii')]: the low byte of every code unit. *)
Definition ascii (s : jsstring) : bytes := (fun c => c mod 256) <$> s.

Section Crypto.

(** [crypto.createCipheriv('des-ecb', key, '').update(data)]: Node's DES in
    ECB mode, the blocks [update] returns for [data]. *)
Variable des_ecb : bytes -> bytes -> bytes.

(** [crypto.createHash('md4').update(buf).digest()] *)
Variable md4 : bytes -> bytes.

(** [String.prototype.toUpperCase] *)
Variable toUpperCase : jsstring -> jsstring.

(** [createLMHash(pwd)] *)
Definition createLMHash (mem : bytes) (pwd : jsstring) : bytes :=
  let pwdBytes := ascii (toUpperCase (take 14 pwd)) in
  let keyBuf := new_Buffer mem 14 in
  let keyBuf := copy pwdBytes keyBuf in
  let keyBuf := fill keyBuf 0x0 (length pwdBytes) in
  let part1 := des_ecb (expandKey (slice keyBuf 0 7)) LM_MAGIC in
  let part2 := des_ecb (expandKey (slice_from keyBuf 7)) LM_MAGIC in
  part1 ++ part2.

(** [calculateLMResponse(lmHash, challenge)] *)
Definition calculateLMResponse (mem : bytes) (lmHash challenge : bytes) : bytes :=
  let hash := new_Buffer mem 21 in
  let hash := copy lmHash hash in
  let hash := fill hash 0x0 16 in
  let chunk1 := des_ecb (expandKey (slice hash 0 7)) challenge in
  let chunk2 := des_ecb (expandKey (slice hash 7 14)) challenge in
  let chunk3 := des_ecb (expandKey (slice_from hash 14)) challenge in
  chunk1 ++ chunk2 ++ chunk3.

(** [createNTLMHash(pwd)] *)
Definition createNTLMHash (pwd : jsstring) : bytes := md4 (utf16le pwd).

(** [calculateNTLMResponse(ntlmHash, challenge)] *)
Definition calculateNTLMResponse (mem : bytes) (ntlmHash challenge : bytes) : bytes :=
  let hash := new_Buffer mem 21 in
  let hash := copy ntlmHash hash in
  let hash := fill hash 0x0 16 in
  let chunk1 := des_ecb (expandKey (slice hash 0 7)) challenge in
  let chunk2 := des_ecb (expandKey (slice hash 7 14)) challenge in
  let chunk3 := des_ecb (expandKey (slice_from hash 14)) challenge in
  chunk1 ++ chunk2 ++ chunk3.

(** [validateLMResponse(lmResponse, lmHash, challenge)] *)
Definition validateLMResponse (mem : bytes) (lmResponse lmHash challenge : bytes) : bool :=
  if negb (Z.of_nat (length lmResponse) =? 24) then false else
  let resp := calculateLMResponse mem lmHash challenge in
  bufferEquals resp lmResponse.

(** [validateNTLMResponse(ntlmResponse, ntlmHash, challenge)] *)
Definition validateNTLMResponse (mem : bytes) (ntlmResponse ntlmHash challenge : bytes) : bool :=
  if negb (Z.of_nat (length ntlmResponse) =? 24) then false else
  let resp := calculateNTLMResponse mem ntlmHash challenge in
  bufferEquals resp ntlmResponse.

End Crypto.

End NtlmV1.

(** ** The vocabulary of the statements about lib/ntlm.js *)

Module NtlmV1Spec.
Import Ntlm Ntlmv2 NtlmV1.

(** The 7 key bytes read back from the 8 cells [expandKey] builds: byte [i]
    takes its high bits from bits 7..1 of cell [i] and its low bits from
    the top of cell [i + 1]. *)
Definition collapse_cell (i : Z) (cur next : Z) : Z :=
  Z.lor (Z.land (Z.shiftl (Z.shiftr cur 1) (i + 1)) 0xff) (Z.shiftr next (7 - i)).

Definition collapseKey (key64 : bytes) : bytes :=
  (fun i : nat => collapse_cell (Z.of_nat i) (cell key64 i) (cell key64 (S i))) <$> seq 0 7.

(** A key of [n] bytes as [expandKey] reads it: cut to 7 bytes, missing
    bytes read as 0. *)
Definition key7 (key : bytes) : bytes := take 7 (key ++ replicate 7 0).

(** A cipher that stands for DES in examples: it hands back the first
    block of the data. *)
Definition sample_des (key data : bytes) : bytes := take 8 data.

(** A digest that stands for HMAC-MD5 in examples. *)
Definition sample_hmac (key data : bytes) : vec Z 16 := vreplicate 16 7.

Definition sample_challenge : bytes := [0x01; 0x23; 0x45; 0x67; 0x89; 0xab; 0xcd; 0xef].
Definition sample_client_challenge : bytes := [0xff; 0xff; 0xff; 0x00; 0x11; 0x22; 0x33; 0x44].

(** A hash of 16 bytes. *)
Definition sample_hash : bytes := Z.of_nat <$> seq 1 16.

End NtlmV1Spec.

(** ** The layout of an NTLMv2 blob, written out *)

Module Ntlmv2BlobSpec.
Import Utils Ntlmv2 Codec.

(** One attribute of the target-info list: type, length, value. *)
Definition encode_entry (e : Z * bytes) : bytes :=
  word16le e.1 ++ word16le (Z.of_nat (length e.2)) ++ e.2.

(** A blob: signature, reserved (4), time stamp (8), client nonce (8),
    unknown (4), the attributes, the terminator (type 0, length 0),
    unknown (4), and what follows. *)
Definition encode_blob (rsv ts nce unk : bytes) (entries : list (Z * bytes))
    (unk2 trailer : bytes) : bytes :=
  BLOB_SIGNATURE ++ rsv ++ ts ++ nce ++ unk
  ++ (entries ≫= encode_entry) ++ [0; 0; 0; 0] ++ unk2 ++ trailer.

(** An attribute whose type is not the terminator's and whose type and
    length fit their 16-bit fields. *)
Definition valid_entry (e : Z * bytes) : Prop :=
  0 < e.1 < 65536 /\ Z.of_nat (length e.2) < 65536.

(** The type field the parser meets first: that of the first attribute, or
    the terminator's. *)
Definition next_type (entries : list (Z * bytes)) : Z :=
  match entries with
  | [] => EOL
  | e :: _ => e.1
  end.

(** The object the attributes build: a type listed twice keeps its last
    value. *)
Definition info_of (entries : list (Z * bytes)) : gmap Z bytes :=
  foldl (fun m e => <[e.1 := e.2]> m) ∅ entries.

End Ntlmv2BlobSpec.

(** ** The vocabulary of further statements about the dispatcher *)

Module DispatchSpec2.
Import Status Cmd Dispatch DispatchSpec.

(** The answers a run gives to the request: the responses it sends and the
    calls of [cb()] that stand for one. *)
Definition answers (evs : list Event) : nat :=
  length (omap (fun e => match e with EvSend _ _ | EvDone => Some e | _ => None end) evs).

(** The handlers a run calls, by command id, in order. *)
Definition handlers_called (evs : list Event) : list Z :=
  omap (fun e => match e with EvHandler id => Some id | _ => None end) evs.

(** How a run whose commands all pass ends: the response, or [cb()] when a
    handler asked for no further processing. *)
Definition final_events (msg : Message) : list Event :=
  if processed msg then [EvDone]
  else [EvSend (h_status (header msg)) (reply_to msg (h_status (header msg)))].

(** A run that answers the request at most once, and exactly once when it
    ends normally. *)
Definition answers_once (t : Trace) : Prop :=
  (answers t.1 <= 1)%nat /\ (t.2 = Finished -> answers t.1 = 1%nat).

(** A request of one CLOSE, and one whose CLOSE has a parameter block of a
    single byte. *)
Definition close_only : Message :=
  {| header := request_header; commands := [close_command]; processed := false |}.

Definition short_close_command : Command :=
  {| commandId := 0x04; c_wordCount := 0; c_params := PBuffer [0x01];
     c_byteCount := 0; c_data := []; paramsOffset := 33; dataOffset := 35 |}.

Definition short_close_only : Message :=
  {| header := request_header; commands := [short_close_command]; processed := false |}.

(** A server for which no handler module was loaded. *)
Definition no_cmdHandlers (name : string) : option Handler := None.

End DispatchSpec2.

(** ** The vocabulary of further statements about the command handlers *)

Module CmdSpec2.
Import Status Utils Utils2 Codec Spi Cmd Dispatch DispatchSpec.

(** The parameter block of a CLOSE request: the FID and the time of last
    modification, in seconds. *)
Definition close_params (fid lastTimeModified : Z) : bytes :=
  word16le fid ++ word32le lastTimeModified.

(** A READ_ANDX request of 12 words: the AndX header, the FID, the offset,
    the counts, the timeout (whose low word is the high word of the maximal
    count on a disk share), the remaining count and the high offset. *)
Definition read_andx_params (fid offset maxCount maxCountHigh : Z) : bytes :=
  [0xff; 0x00; 0x00; 0x00]
  ++ word16le fid ++ word32le offset ++ word16le maxCount ++ word16le 0
  ++ word16le maxCountHigh ++ word16le 0 ++ word16le 0 ++ word32le 0.

(** A [File.read] that keeps to its contract: it reports no more bytes
    than the buffer it was given holds, and hands that buffer back. *)
Definition read_in_bounds (file : File) : Prop :=
  forall (buffer : bytes) (offset length : Z) (position : option Z) (bytesRead : Z)
         (buffer' : bytes),
    read file buffer offset length position = inr (bytesRead, buffer') ->
    0 <= bytesRead <= Z.of_nat (List.length buffer)
    /\ List.length buffer' = List.length buffer.

(** The value of the little-endian field of [n] bytes at [off]. *)
Definition field (buf : bytes) (off : nat) (n : nat) : Z :=
  le_value (take n (drop off buf)).

(** A file whose reads give the first bytes of "abc". *)
Definition abc_file : File :=
  {| fid := 1; getName := [97]; getPath := [47; 97]; isDirectory := false;
     size := 3; getDataSize := 3; getAllocationSize := 3;
     getCreatedTime := 1600000000000; getLastModifiedTime := 1600000000000;
     getLastAccessedTime := 0; getLastChangedTime := 1600000000000;
     getAttributes := 0x80; getCreateAction := 1; onNamedPipe := false;
     setLength := fun _ => Some (mkSMBError (Some STATUS_SMB_NO_SUPPORT));
     delete := Some (mkSMBError (Some STATUS_SMB_NO_SUPPORT));
     read := fun buffer _ _ _ =>
       inr (Z.min 3 (Z.of_nat (length buffer)),
            take (length buffer) ([97; 98; 99] ++ drop 3 buffer)) |}.

Definition abc_tree : Tree :=
  {| isNamedPipe := false;
     getFile := fun fid => if fid =? 1 then Some abc_file else None;
     closeFile := fun _ => None;
     openOrCreate := fun _ _ _ => inr abc_file;
     listFiles := fun _ => inr [abc_file];
     rename := fun _ _ => Some (mkSMBError (Some STATUS_SMB_NO_SUPPORT)) |}.

Definition abc_server : Server :=
  {| getTree := fun tid => if tid =? 1 then Some abc_tree else None |}.

End CmdSpec2.

(** ** lib/smberror.js *)

Module SmbError.
Import Status.

(** The value handed to [fromSystemError] as [err]: a string, or an object
    with the properties of a Node system error, each of which may be
    missing. *)
Inductive SystemError : Type :=
| ErrString (s : string)
| ErrObject (message : option string) (errno : option Z) (code : option string)
    (path : option string).

(** An [SMBError], with its message. *)
Record Error : Type := mkError {
  e_status : NTSTATUS;
  e_message : string
}.

(** [s || d] on a string that may be missing: the empty string is falsy. *)
Definition or_string (s : option string) (d : string) : string :=
  match s with
  | Some s => if bool_decide (s = "") then d else s
  | None => d
  end.

(** Truthiness of a number and of a string that may be missing. *)
Definition truthy_number (n : option Z) : bool :=
  match n with
  | Some n => negb (n =? 0)
  | None => false
  end.

Definition truthy_string (s : option string) : bool :=
  match s with
  | Some s => negb (bool_decide (s = ""))
  | None => false
  end.

Section Tables.

(** [ntstatus.STATUS_TO_STRING] and the table [errno.errno] of the npm
    package errno, which gives a description and a code per number. *)
Variable STATUS_TO_STRING : NTSTATUS -> option string.
Variable errno_table : Z -> option (string * string).

(** [new SMBError(status, message)] *)
Definition SMBError_new (status : NTSTATUS) (message : option string) : Error :=
  mkError status (or_string message (or_string (STATUS_TO_STRING status) "unknown error")).

(** The [switch (code)] of [fromSystemError]. *)
Definition status_of_code (code : option string) (status : NTSTATUS) : NTSTATUS :=
  match code with
  | Some code =>
    if bool_decide (code = "EINVAL") then STATUS_NOT_IMPLEMENTED
    else if bool_decide (code = "ENOENT") then STATUS_NO_SUCH_FILE
    else if bool_decide (code = "EPERM") then STATUS_ACCESS_DENIED
    else if bool_decide (code = "EBADF") then STATUS_SMB_BAD_FID
    else if bool_decide (code = "EOF") then STATUS_END_OF_FILE
    else if bool_decide (code = "EEXIST") then STATUS_OBJECT_NAME_COLLISION
    else if bool_decide (code = "EACCES") then STATUS_NETWORK_ACCESS_DENIED
    else status
  | None => status
  end.

(** [SMBError.fromSystemError(err, message)] *)
Definition fromSystemError (err : SystemError) (message : option string) : Error :=
  let status := STATUS_UNSUCCESSFUL in
  let '(status, msg) :=
    match err with
    | ErrString s => (status, s)
    | ErrObject e_msg errno code path =>
      let msg := or_string e_msg (or_string (STATUS_TO_STRING status) "unknown error") in
      if truthy_number errno || truthy_string code then
        let '(msg, code) :=
          match errno ≫= errno_table with
          | Some (description, table_code) => (description, Some table_code)
          | None => (msg, code)
          end in
        let msg :=
          if truthy_string path then msg +:+ " [" +:+ default "" path +:+ "]" else msg in
        (status_of_code code status, msg)
      else (status, msg)
    end in
  let msg :=
    if truthy_string message then msg +:+ " [" +:+ default "" message +:+ "]" else msg in
  SMBError_new status (Some msg).

(** [SMBError.systemToSMBErrorTranslator(cb, message)], the function it
    returns, applied to [arguments]: [None] is a call without arguments,
    otherwise the first argument is the error (falsy: [None]) and the others
    follow. *)
Definition systemToSMBErrorTranslator {V : Type} (message : option string)
    (arguments : option (option SystemError * list V)) : option (option Error * list V) :=
  match arguments with
  | None => None
  | Some (err, rest) =>
    Some (match err with
          | Some err => Some (fromSystemError err message)
          | None => None
          end, rest)
  end.

End Tables.

(** The status a handler reports for an error: [err.status || STATUS_UNSUCCESSFUL]. *)
Definition as_SMBError (e : Error) : SMBError := mkSMBError (Some (e_status e)).

End SmbError.

(** ** The vocabulary of further statements about the Rectifier *)

Module RectSpec2.
Import Rect RectSpec.

(** The reads a run serves: the callback, the count and the buffer each
    [cb(null, length, buffer)] is given. *)
Definition reads_served (evs : list Event) : list (nat * Z * bytes) :=
  omap (fun e => match e with EvRead cb n buffer => Some (cb, n, buffer) | _ => None end) evs.

(** The waiter [readFile] registers for a read of [length] bytes at
    [position] into [buffer], from its index 0. *)
Definition read_waiter (buffer : bytes) (length position : Z) (cb : nat) : Waiter :=
  mkWaiter buffer 0 length position cb.

(** A Rectifier that waits for the stream to reach the one read it was
    made for: [stream] is what has arrived, [start] where the stream
    began. *)
Record feeding (r : Rectifier) (start target : Z) (w : Waiter) (stream : bytes) : Prop := {
  feeding_buffers : concat (buffers r) = stream;
  feeding_bytes : Forall (Forall is_byte) (buffers r);
  feeding_length : Rect.length r = Z.of_nat (List.length stream);
  feeding_position : position r = start + Z.of_nat (List.length stream);
  feeding_tasks : tasks r = [(target, w)];
  feeding_paused : paused r = false;
  feeding_loaded : loaded r = false;
  feeding_req : is_Some (req r);
  feeding_cacheSize : 0 <= cacheSize r
}.

End RectSpec2.

(** ** lib/backends/sharelist: opening, listing, reading and closing *)

Module SharelistFs.
Import Status Rect Sharelist SmbError.

(** What [instance.command('ls', path)] resolves to: an entry with its
    type, whether it has a [body], its size, and its children when the
    entry has the property. *)
Record Child : Type := mkChild {
  c_name : string;
  c_type : string;
  c_size : Z
}.

Record Resp : Type := mkResp {
  resp_type : string;
  resp_body : bool;
  resp_size : Z;
  resp_children : option (list Child)
}.

(** What a tree does to the outside. *)
Inductive TreeEvent : Type :=
| SetRuntime (path : string)                     (* [instance.setRuntime({..., path})] *)
| Ls (path : string)                             (* [instance.command('ls', path)] *)
| ConsoleLog                                     (* [console.log(err)] *)
| OpenCb (cb : nat) (result : Error + FSFile)    (* the callback of [open] *)
| ListCb (cb : nat) (files : list FSFile).       (* the callback of [list], [cb(null, files)] *)

(** [(name.match(/\/[^\/]+/) || [''])[0]]: the first slash that is
    followed by something else than a slash, with what follows it up to
    the next slash; the empty string when there is none. *)
Definition slash : Ascii.ascii := Ascii.ascii_of_nat 47.

Fixpoint segment (s : list Ascii.ascii) : list Ascii.ascii :=
  match s with
  | [] => []
  | c :: rest => if bool_decide (c = slash) then [] else c :: segment rest
  end.

Fixpoint match_base (s : list Ascii.ascii) : list Ascii.ascii :=
  match s with
  | [] => []
  | c :: rest =>
    if bool_decide (c = slash) then
      match segment rest with
      | [] => match_base rest
      | seg => c :: seg
      end
    else match_base rest
  end.

Definition basePath (name : string) : string :=
  String.string_of_list_ascii (match_base (String.list_ascii_of_string name)).

(** [pattern.endsWith('/*')] and [pattern.replace(/\/\*$/, '')] *)
Definition endsWith (s suffix : string) : bool :=
  (String.length suffix <=? String.length s)%nat
  && String.eqb (String.substring (String.length s - String.length suffix)
                   (String.length suffix) s) suffix.

Definition strip_wildcard (pattern : string) : string :=
  if endsWith pattern "/*" then String.substring 0 (String.length pattern - 2) pattern else pattern.

Section Instance.

(** How the promise of [instance.command('ls', path)] settles: [None] is a
    rejection, or a value that is no object, on which the first property
    access raises into the same [catch]. *)
Variable ls : string -> option Resp.

(** [ntstatus.STATUS_TO_STRING] and the table of the package errno, which
    [SMBError.fromSystemError] looks into. *)
Variable STATUS_TO_STRING : NTSTATUS -> option string.
Variable errno_table : Z -> option (string * string).

(** What [err + 'open file error '] makes of the rejection, and of an
    exception raised under [then]. *)
Variable rejection_text : string.
Variable exception_text : exn -> string.

(** The properties the prototype chain of an Array defines. *)
Variable inherited : string -> option Inherited.

(** tree.js: [open(name, cb)] *)
Definition FSTree_open (b : Backend) (name : string) (cb : nat)
  : Backend * list TreeEvent :=
  let events := [SetRuntime (basePath name); Ls name] in
  match ls name with
  | Some resp =>
    if negb (bool_decide (resp_type resp = "folder")) && negb (resp_body resp) then
      match FSFile_new inherited b name (resp_type resp) (resp_size resp) with
      | (b, Ok k) => (b, events ++ [OpenCb cb (inr k)])
      | (b, Throw e) =>
        (* the exception of the constructor reaches [catch] *)
        (b, events ++ [ConsoleLog;
                       OpenCb cb (inl (fromSystemError STATUS_TO_STRING errno_table
                                         (ErrString "SHARELIST") (Some (exception_text e))))])
      end
    else
      (b, events ++ [OpenCb cb (inl (fromSystemError STATUS_TO_STRING errno_table
                                       (ErrString "SHARELIST") (Some "it is NOT a file ")))])
  | None =>
    (b, events ++ [ConsoleLog;
                   OpenCb cb (inl (fromSystemError STATUS_TO_STRING errno_table
                                     (ErrString "SHARELIST") (Some rejection_text)))])
  end.

(** [resp.children.map(i => new FSFile(i.name, i, this))]: the files, or
    the exception of the first constructor that raises one, with the state
    the constructors before it left. *)
Fixpoint new_children (b : Backend) (children : list Child)
  : Backend * result (list FSFile) :=
  match children with
  | [] => (b, Ok [])
  | i :: rest =>
    match FSFile_new inherited b (c_name i) (c_type i) (c_size i) with
    | (b, Throw e) => (b, Throw e)
    | (b, Ok k) =>
      match new_children b rest with
      | (b, Throw e) => (b, Throw e)
      | (b, Ok ks) => (b, Ok (k :: ks))
      end
    end
  end.

(** tree.js: [list(pattern, cb)].  The promise has no [catch]: a rejection,
    the TypeError of [resp.children.map] on an entry without children, and
    an exception of a constructor end in no call of [cb]. *)
Definition FSTree_list (b : Backend) (pattern : string) (cb : nat)
  : Backend * list TreeEvent :=
  let events := [SetRuntime (basePath pattern)] in
  if endsWith pattern "/*" then
    let parentPath := strip_wildcard pattern in
    match ls parentPath with
    | Some resp =>
      match resp_children resp with
      | Some children =>
        match new_children b children with
        | (b, Ok k) => (b, events ++ [Ls parentPath; ListCb cb k])
        | (b, Throw _) => (b, events ++ [Ls parentPath])
        end
      | None => (b, events ++ [Ls parentPath])
      end
    | None => (b, events ++ [Ls parentPath])
    end
  else (b, events ++ [ListCb cb []]).

End Instance.

(** The part of an open file that [readFile] and [closeFile] change:
    [stats.outputType] (missing: 'url'), [stats.size], and the properties
    [rectifier] and [fd]. *)
Record Handle : Type := mkHandle {
  h_path : string;                 (* [realPath] *)
  h_outputType : option string;
  h_size : Z;
  h_rectifier : option Rectifier;
  h_fd : option Z
}.

(** What reading and closing do to the outside. *)
Inductive FileEvent : Type :=
| OfRectifier (e : Event)                                    (* what a Rectifier does *)
| FsOpen                                                     (* [fs.open(data.url, 'r', ...)] *)
| FsRead (fd : Z) (offset length position : Z) (cb : nat)    (* [fs.read(fd, ..., cb)] *)
| FsClose (fd : Z)                                           (* [fs.close(fd, ...)] *)
| FileCb (cb : nat) (err : option string).                   (* [cb(err)] *)

(** [file.fd] as a condition: a missing descriptor and the descriptor 0
    are falsy. *)
Definition truthy_fd (fd : option Z) : option Z :=
  match fd with
  | Some n => if n =? 0 then None else Some n
  | None => None
  end.

Section Fs.

(** What [fs.open] hands its callback, a descriptor or an error, and the
    error [fs.close] hands its own, if any. *)
Variable fs_open : option Z.
Variable fs_close : Z -> option string.

(** The properties the prototype chain of an Array defines. *)
Variable inherited : string -> option Inherited.

(** utils.js: [closeFile(file, cb)] *)
Definition closeFile (file : Handle) (cb : nat) : Handle * list FileEvent :=
  match h_rectifier file with
  | Some rectifier =>
    let '(_, evs) := close rectifier cb in
    (mkHandle (h_path file) (h_outputType file) (h_size file) None (h_fd file),
     OfRectifier <$> evs)
  | None =>
    match truthy_fd (h_fd file) with
    | Some fd =>
      (mkHandle (h_path file) (h_outputType file) (h_size file) (h_rectifier file) None,
       [FsClose fd; FileCb cb (fs_close fd)])
    | None => (file, [])
    end
  end.

(** utils.js: [readFile(file, buffer, offset, length, position, cb)] *)
Definition readFile (file : Handle) (buffer : bytes) (offset length position : Z) (cb : nat)
  : result (Handle * list FileEvent) :=
  let outputType := default "url" (h_outputType file) in
  if bool_decide (outputType = "url") then
    let file :=
      match truthy_fd (h_fd file) with
      | None =>
        mkHandle (h_path file) (h_outputType file) (h_size file)
          (Some (constructor (h_size file) position)) (h_fd file)
      | Some _ => file
      end in
    match h_rectifier file with
    | Some rectifier =>
      match when rectifier (position + length) (mkWaiter buffer offset length position cb) with
      | Ok (rectifier, evs) =>
        Ok (mkHandle (h_path file) (h_outputType file) (h_size file) (Some rectifier)
              (h_fd file),
            OfRectifier <$> evs)
      | Throw e => Throw e
      end
    | None => Throw TypeError   (* [file.rectifier.when] on undefined *)
    end
  else if bool_decide (outputType = "file") then
    match truthy_fd (h_fd file) with
    | Some fd => Ok (file, [FsRead fd offset length position cb])
    | None =>
      match fs_open with
      | None =>
        Ok (file, [FsOpen; FileCb cb (Some "unable to get file descriptor due to unexpeced error")])
      | Some fd =>
        Ok (mkHandle (h_path file) (h_outputType file) (h_size file) (h_rectifier file) (Some fd),
            [FsOpen; FsRead fd offset length position cb])
      end
    end
  else Ok (file, [FileCb cb (Some "unsupport type")]).

(** file.js: [close(cb)]: [closeFile], and then
    [fileCount[this.realPath]--]; the counters left, or the exception the
    assignment raised. *)
Definition FSFile_close (fileCount : CountArray) (file : Handle) (cb : nat)
  : result CountArray * Handle * list FileEvent :=
  let '(file', evs) := closeFile file cb in
  (array_set inherited fileCount (h_path file)
     (num_add (ToNumber (array_get inherited fileCount (h_path file))) (-1)),
   file', evs).

End Fs.

(** The handle of a file as the constructor leaves it: no rectifier, no
    descriptor. *)
Definition handle_of (file : FSFile) (outputType : option string) : Handle :=
  mkHandle (realPath file) outputType (stats_size file) None None.

(** How often [name] is among the names of the children. *)
Definition times_listed (name : string) (children : list Child) : Z :=
  Z.of_nat (List.length (filter (fun i => c_name i = name) children)).

(** The counter of a path: 0 when the Array has no property of that name,
    and when the property holds NaN. *)
Definition count_of (fileCount : CountArray) (path : string) : Z :=
  match a_own fileCount !! path with
  | Some (Int n) => n
  | _ => 0
  end.

(** A name that is a counter and nothing else: not [length], not an
    element of the Array, and not defined up the prototype chain. *)
Definition plain_key (inherited : string -> option Inherited) (p : string) : Prop :=
  p <> "length" /\ array_index p = None /\ inherited p = None.

(** The methods and accessors a path could meet, in part. *)
Definition sample_inherited (p : string) : option Inherited :=
  if bool_decide (p = "constructor") then Some method
  else if bool_decide (p = "push") then Some method
  else if bool_decide (p = "__proto__") then Some proto_accessor
  else None.

(** What [err + 'open file error '] makes of an exception, in part. *)
Definition sample_exception_text (e : exn) : string :=
  match e with
  | RangeError => "RangeError: Invalid array lengthopen file error "
  | _ => "Erroropen file error "
  end.

(** A listing in which "/a" is a file of 3 bytes and "/d" a folder with
    two children. *)
Definition sample_ls (path : string) : option Resp :=
  if bool_decide (path = "/a") then Some (mkResp "file" false 3 None)
  else if bool_decide (path = "/d") then
    Some (mkResp "folder" false 0 (Some [mkChild "x" "file" 1; mkChild "y" "file" 2]))
  else None.

Definition empty_backend : Backend := mkBackend (mkCountArray ∅ 0) [].

End SharelistFs.

(** * Theorems *)

Module NtlmFacts.
Import Ntlm NtlmSpec.

Lemma all_bytes_complete (v : Z) : is_byte v -> v ∈ all_bytes.
Proof.
intros [Hlo Hhi]. unfold all_bytes.
apply list_elem_of_fmap. exists (Z.to_nat v). split; [lia|].
apply list_elem_of_In, in_seq. lia.
Qed.

Lemma forall_bytes1 (P : Z -> bool) :
  forallb P all_bytes = true -> forall a, is_byte a -> P a = true.
Proof.
intros H a Ha. rewrite forallb_forall in H. apply H.
apply list_elem_of_In, all_bytes_complete, Ha.
Qed.

Lemma forall_bytes2 (P : Z -> Z -> bool) :
  forallb (fun a => forallb (P a) all_bytes) all_bytes = true ->
  forall a b, is_byte a -> is_byte b -> P a b = true.
Proof.
intros H a b Ha Hb.
apply (forall_bytes1 (P a)); [|exact Hb].
apply (forall_bytes1 (fun a => forallb (P a) all_bytes)); assumption.
Qed.

(** The two statements that build cell [i] of the key, for [i] odd. *)
Lemma odd_cell (i : Z) (a b : Z) :
  1 <= i <= 6 -> is_byte a -> is_byte b ->
  u8 (Z.lor (u8 (spread i a b)) PARITY_MASK) = with_parity true (spread i a b).
Proof.
intros Hi Ha Hb.
assert (Hc : i = 1 \/ i = 2 \/ i = 3 \/ i = 4 \/ i = 5 \/ i = 6) by lia.
apply Z.eqb_eq.
destruct Hc as [->|[->|[->|[->|[->| ->]]]]];
  (revert a b Ha Hb; apply forall_bytes2; vm_compute; reflexivity).
Qed.

(** The same for [i] even. *)
Lemma even_cell (i : Z) (a b : Z) :
  1 <= i <= 6 -> is_byte a -> is_byte b ->
  u8 (Z.land (u8 (spread i a b)) (Z.lnot PARITY_MASK)) = with_parity false (spread i a b).
Proof.
intros Hi Ha Hb.
assert (Hc : i = 1 \/ i = 2 \/ i = 3 \/ i = 4 \/ i = 5 \/ i = 6) by lia.
apply Z.eqb_eq.
destruct Hc as [->|[->|[->|[->|[->| ->]]]]];
  (revert a b Ha Hb; apply forall_bytes2; vm_compute; reflexivity).
Qed.

Lemma first_cell (a : Z) :
  is_byte a ->
  u8 (Z.land (u8 (Z.land a 0xfe)) (Z.lnot PARITY_MASK)) = with_parity false (Z.land a 0xfe).
Proof.
intros Ha. apply Z.eqb_eq. revert a Ha. apply forall_bytes1. vm_compute. reflexivity.
Qed.

Lemma last_cell (a : Z) :
  is_byte a ->
  u8 (Z.lor (u8 (Z.land (Z.shiftl a 1) 0xff)) PARITY_MASK)
  = with_parity true (Z.land (Z.shiftl a 1) 0xff).
Proof.
intros Ha. apply Z.eqb_eq. revert a Ha. apply forall_bytes1. vm_compute. reflexivity.
Qed.

(** The code builds the cells the claim describes. *)
Lemma expandKey_cells (key56 : bytes) :
  length key56 = 7%nat -> Forall is_byte key56 ->
  expandKey key56 = expandKey_spec key56.
Proof.
intros Hlen Hb.
do 8 (destruct key56 as [|? key56]; try discriminate Hlen).
clear Hlen.
repeat match goal with
       | H : Forall _ (_ :: _) |- _ => apply Forall_cons in H; destruct H as [? H]
       end.
unfold expandKey, expandKey_spec.
cbv [put_cell cell Z.leb Z.compare Z.to_nat id
  replicate list_insert list_lookup lookup default from_option alter list_alter
  Pos.to_nat Pos.iter_op Nat.add insert].
repeat (apply (f_equal2 cons);
  [ first [ apply first_cell | apply last_cell
          | apply (odd_cell 1) | apply (even_cell 2) | apply (odd_cell 3)
          | apply (even_cell 4) | apply (odd_cell 5) | apply (even_cell 6) ];
    (assumption || lia) | ]).
reflexivity.
Qed.

(** C5.  For every 7-byte input, expandKey returns 8 bytes: cell 0 is
    [in[0] & 0xfe] with the parity bit (bit 0) cleared; cell [i], for
    [1 <= i <= 6], is [((in[i-1] << (8-i)) & 0xff) | (in[i] >> i)] with the
    parity bit set when [i] is odd and cleared when [i] is even; cell 7 is
    [(in[6] << 1) & 0xff] with the parity bit set. *)
Theorem expandKey_bit_pattern (key56 : bytes) :
  length key56 = 7%nat -> Forall is_byte key56 ->
  expandKey key56 = expandKey_spec key56 /\ length (expandKey key56) = 8%nat.
Proof.
intros Hlen Hb. rewrite (expandKey_cells key56 Hlen Hb).
split; reflexivity.
Qed.

(** Only bit 0 of the first cell is cleared: bit 1 of [in[0]] is kept. *)
Lemma expandKey_first_cell (key56 : bytes) :
  length key56 = 7%nat -> Forall is_byte key56 ->
  expandKey key56 !! 0%nat = Some (Z.land (cell key56 0) 0xfe).
Proof.
intros Hlen Hb. rewrite (expandKey_cells key56 Hlen Hb).
destruct key56 as [|a key56]; [discriminate|]. clear Hlen.
apply Forall_cons in Hb as [Ha _]. cbn [expandKey_spec lookup list_lookup cell default from_option].
f_equal. apply Z.eqb_eq. revert a Ha. apply forall_bytes1. vm_compute. reflexivity.
Qed.

Lemma expandKey_witness :
  expandKey [0x4b; 0x47; 0x53; 0x21; 0x40; 0x23; 0x24]
  = expandKey_spec [0x4b; 0x47; 0x53; 0x21; 0x40; 0x23; 0x24]
  /\ length (expandKey [0x4b; 0x47; 0x53; 0x21; 0x40; 0x23; 0x24]) = 8%nat.
Proof.
apply (expandKey_bit_pattern [0x4b; 0x47; 0x53; 0x21; 0x40; 0x23; 0x24]).
- reflexivity.
- repeat constructor; unfold is_byte; lia.
Defined.

End NtlmFacts.

Module Ntlmv2Facts.
Import Utils Ntlmv2 Ntlmv2Spec.

Lemma cell_is_byte (buf : bytes) (i : nat) : Forall is_byte buf -> is_byte (cell buf i).
Proof.
intros Hb. unfold cell. destruct (buf !! i) as [v|] eqn:E; simpl.
- eapply Forall_lookup_1; eauto.
- unfold is_byte; lia.
Qed.

Lemma readUInt16LE_in_range (buf : bytes) (off : Z) :
  0 <= off -> off + 2 <= Z.of_nat (length buf) ->
  exists v, readUInt16LE buf off = Ok v.
Proof.
intros H0 H1. unfold readUInt16LE, in_range.
rewrite (proj2 (Z.leb_le _ _) H0), (proj2 (Z.leb_le _ _) H1). simpl. eauto.
Qed.

Lemma readUInt32LE_in_range (buf : bytes) (off : Z) :
  0 <= off -> off + 4 <= Z.of_nat (length buf) ->
  exists v, readUInt32LE buf off = Ok v.
Proof.
intros H0 H1. unfold readUInt32LE, in_range.
rewrite (proj2 (Z.leb_le _ _) H0), (proj2 (Z.leb_le _ _) H1). simpl. eauto.
Qed.

(** What a successful 16-bit read tells: it was inside the buffer and, on a
    buffer of bytes, its value is a 16-bit number. *)
Lemma readUInt16LE_Ok (buf : bytes) (off v : Z) :
  readUInt16LE buf off = Ok v ->
  0 <= off /\ off + 2 <= Z.of_nat (length buf)
  /\ (Forall is_byte buf -> 0 <= v < 65536).
Proof.
unfold readUInt16LE, in_range.
destruct (0 <=? off) eqn:E0; [|discriminate].
destruct (off + 2 <=? Z.of_nat (length buf)) eqn:E1; [|discriminate].
simpl. intros [= <-]. apply Z.leb_le in E0, E1.
repeat split; try assumption;
  pose proof (cell_is_byte buf (Z.to_nat off) H);
  pose proof (cell_is_byte buf (Z.to_nat off + 1) H); unfold is_byte in *; lia.
Qed.

(** The only exception a Buffer read raises. *)
Lemma readUInt16LE_Throw (buf : bytes) (off : Z) (e : exn) :
  readUInt16LE buf off = Throw e -> e = RangeError.
Proof. unfold readUInt16LE. destruct (in_range buf off 2); congruence. Qed.

Lemma eol_terminated_read (blob : bytes) (p : Z) :
  eol_terminated blob p -> exists type, readUInt16LE blob p = Ok type.
Proof. intros [q H | q ty len H _ _ _]; eauto. Qed.

(** The loop decides whether the list is terminated: it ends normally on a
    terminated list and raises RangeError on any other, and never exhausts
    enough fuel. *)
Lemma parse_info_decides (blob : bytes) :
  Forall is_byte blob ->
  forall fuel p type info,
    readUInt16LE blob p = Ok type ->
    enough_fuel blob fuel p ->
    (eol_terminated blob p
     /\ exists off' info', parse_info fuel blob (p + 2) type info = Some (Ok (off', info')))
    \/ (~ eol_terminated blob p
        /\ parse_info fuel blob (p + 2) type info = Some (Throw RangeError)).
Proof.
intros Hb. induction fuel as [|fuel IH]; intros p type info Hread Hfuel.
- apply readUInt16LE_Ok in Hread as (_ & Hp & _). unfold enough_fuel in Hfuel. lia.
- simpl. destruct (Z.eqb_spec type EOL) as [->|Hne].
  { left. split; [by apply eol_here | eauto]. }
  destruct (readUInt16LE blob (p + 2)) as [len|e] eqn:Hlen.
  2:{ right. rewrite (readUInt16LE_Throw _ _ _ Hlen). split; [|done].
      intros Ht. inversion Ht; congruence. }
  pose proof (readUInt16LE_Ok _ _ _ Hlen) as (_ & _ & Hl2). specialize (Hl2 Hb).
  replace (p + 2 + 2 + len) with (p + 4 + len) by lia.
  destruct (readUInt16LE blob (p + 4 + len)) as [ty'|e] eqn:Hty'.
  2:{ right. rewrite (readUInt16LE_Throw _ _ _ Hty'). split; [|done].
      intros Ht. inversion Ht as [|q ty2 len2 H1 H2 H3 H4]; [congruence|]. subst q.
      assert (len2 = len) as -> by congruence.
      apply eol_terminated_read in H4 as [? H4]. congruence. }
  edestruct (IH (p + 4 + len) ty') as [[Ht Hok]|[Hnt Hthrow]];
    [exact Hty' | unfold enough_fuel in *; lia | | ].
  + left. split; [eapply eol_later; eauto | exact Hok].
  + right. split; [|exact Hthrow].
    intros Ht. inversion Ht as [|q ty2 len2 H1 H2 H3 H4]; [congruence|]. subst q.
    assert (len2 = len) as -> by congruence. contradiction.
Qed.

(** A blob of at least 36 bytes: the fixed fields are read inside it. *)
Lemma parseNTLMv2Blob_reads (blob : bytes) :
  MIN_BLOB_SIZE <= Z.of_nat (length blob) ->
  exists timeLow timeHigh type,
    readUInt32LE blob 8 = Ok timeLow /\ readUInt32LE blob 12 = Ok timeHigh
    /\ readUInt16LE blob INFO_OFFSET = Ok type
    /\ enough_fuel blob (S (length blob)) INFO_OFFSET.
Proof.
unfold MIN_BLOB_SIZE, INFO_OFFSET. intros Hlen.
destruct (readUInt32LE_in_range blob 8) as [tl Htl]; [lia..|].
destruct (readUInt32LE_in_range blob 12) as [th Hth]; [lia..|].
destruct (readUInt16LE_in_range blob 28) as [ty Hty]; [lia..|].
exists tl, th, ty. unfold enough_fuel. repeat split; try assumption. lia.
Qed.

(** On a blob of at least 36 bytes the parse returns an object when the
    target-info list is terminated inside the blob, and raises RangeError
    (a read past the end) when it is not. *)
Lemma parseNTLMv2Blob_cases (blob : bytes) :
  Forall is_byte blob ->
  MIN_BLOB_SIZE <= Z.of_nat (length blob) ->
  (eol_terminated blob INFO_OFFSET
   /\ exists obj, parseNTLMv2Blob blob = Ok (Some obj) /\ signature obj = slice blob 0 4)
  \/ (~ eol_terminated blob INFO_OFFSET /\ parseNTLMv2Blob blob = Throw RangeError).
Proof.
intros Hb Hlen.
destruct (parseNTLMv2Blob_reads blob Hlen) as (tl & th & ty & Htl & Hth & Hty & Hfuel).
unfold parseNTLMv2Blob.
destruct (Z.ltb_spec (Z.of_nat (length blob)) MIN_BLOB_SIZE) as [Hlt|_]; [lia|].
cbv zeta.
change (0 + 4 + 4) with 8. change (8 + 4) with 12. change (12 + 4 + 8 + 4) with INFO_OFFSET.
rewrite Htl. cbn [mbind result_bind]. rewrite Hth. cbn [mbind result_bind].
rewrite Hty. cbn [mbind result_bind].
destruct (parse_info_decides blob Hb _ _ _ ∅ Hty Hfuel) as [[Ht (off' & info' & ->)]|[Hnt ->]].
- left. split; [assumption|]. simpl. eauto.
- right. split; [assumption|]. reflexivity.
Qed.

(** C9.  parseNTLMv2Blob is total only under the precondition that the
    attribute/value list has a terminating entry (type 0) inside the blob:
    some blob of length >= 36 without one makes the parse read past the end
    of the buffer (RangeError); every blob of length >= 36 with one is parsed
    to an object, and for every blob of length >= 36 without one the parse
    ends in the out-of-bounds read. *)
Theorem parseNTLMv2Blob_total_iff_terminated :
  (exists blob : bytes,
      Forall is_byte blob /\ MIN_BLOB_SIZE <= Z.of_nat (length blob)
      /\ ~ eol_terminated blob INFO_OFFSET
      /\ parseNTLMv2Blob blob = Throw RangeError)
  /\ (forall blob : bytes,
      Forall is_byte blob -> MIN_BLOB_SIZE <= Z.of_nat (length blob) ->
      eol_terminated blob INFO_OFFSET ->
      exists obj, parseNTLMv2Blob blob = Ok (Some obj))
  /\ (forall blob : bytes,
      Forall is_byte blob -> MIN_BLOB_SIZE <= Z.of_nat (length blob) ->
      ~ eol_terminated blob INFO_OFFSET ->
      parseNTLMv2Blob blob = Throw RangeError).
Proof.
split; [|split].
- exists unterminated_blob.
  assert (Hb : Forall is_byte unterminated_blob)
    by (apply Forall_forall; intros x Hx; unfold is_byte;
        repeat (apply elem_of_cons in Hx as [->|Hx]; [lia|]); by apply elem_of_nil in Hx).
  assert (Hl : MIN_BLOB_SIZE <= Z.of_nat (length unterminated_blob)) by (vm_compute; discriminate).
  destruct (parseNTLMv2Blob_cases _ Hb Hl) as [[_ (obj & Hobj & _)]|[Hnt Hthrow]].
  + vm_compute in Hobj. discriminate.
  + auto.
- intros blob Hb Hlen Ht.
  destruct (parseNTLMv2Blob_cases _ Hb Hlen) as [[_ (obj & Hobj & _)]|[Hnt _]]; [eauto|contradiction].
- intros blob Hb Hlen Hnt.
  destruct (parseNTLMv2Blob_cases _ Hb Hlen) as [[Ht _]|[_ Hthrow]]; [contradiction|assumption].
Qed.

Lemma slice_from_app (h blob : bytes) :
  slice_from (h ++ blob) (Z.of_nat (length h)) = blob.
Proof.
unfold slice_from, slice, clamp_index. rewrite length_app.
destruct (Z.ltb_spec (Z.of_nat (length h)) 0) as [?|_]; [lia|].
destruct (Z.ltb_spec (Z.of_nat (length h + length blob)) 0) as [?|_]; [lia|].
rewrite !Z.min_l by lia. rewrite Nat2Z.id, drop_app_length.
apply take_ge. lia.
Qed.

Lemma flip_bit_length (buf : bytes) (i : nat) : length (flip_bit buf i) = length buf.
Proof. unfold flip_bit. apply length_alter. Qed.

Lemma lxor_pow2_neq (b : Z) (k : nat) : Z.lxor b (2 ^ Z.of_nat k) <> b.
Proof.
intros H. apply (f_equal (Z.lxor b)) in H.
rewrite <- Z.lxor_assoc, Z.lxor_nilpotent, Z.lxor_0_l in H.
pose proof (Z.pow_pos_nonneg 2 (Z.of_nat k)). lia.
Qed.

(** Flipping a bit of a buffer changes the buffer. *)
Lemma flip_bit_neq (buf : bytes) (i : nat) :
  (i < 8 * length buf)%nat -> flip_bit buf i <> buf.
Proof.
intros Hi Heq. unfold flip_bit in Heq.
assert (Hlt : (i / 8 < length buf)%nat) by (apply Nat.Div0.div_lt_upper_bound; lia).
destruct (lookup_lt_is_Some_2 buf (i / 8)%nat Hlt) as [b Hb].
apply (f_equal (fun l => l !! (i / 8)%nat)) in Heq.
rewrite list_lookup_alter_eq, Hb in Heq. simpl in Heq.
injection Heq. apply lxor_pow2_neq.
Qed.

(** A bit of the first part of [h ++ blob] is a bit of [h]. *)
Lemma flip_bit_app_l (h blob : bytes) (i : nat) :
  (i < 8 * length h)%nat -> flip_bit (h ++ blob) i = flip_bit h i ++ blob.
Proof.
intros Hi. unfold flip_bit. apply alter_app_l.
apply Nat.Div0.div_lt_upper_bound; lia.
Qed.

Lemma flip_bit_app_r (h blob : bytes) (i : nat) :
  flip_bit (h ++ blob) (8 * length h + i) = h ++ flip_bit blob i.
Proof.
unfold flip_bit.
replace ((8 * length h + i) `div` 8)%nat with (length h + i `div` 8)%nat.
2:{ rewrite (Nat.mul_comm 8), Nat.div_add_l by lia. reflexivity. }
replace ((8 * length h + i) `mod` 8)%nat with (i `mod` 8)%nat.
2:{ rewrite (Nat.mul_comm 8), Nat.add_comm, Nat.Div0.mod_add. reflexivity. }
apply alter_app_r.
Qed.

Section Crypto.
Variable hmac_md5 : bytes -> bytes -> vec Z 16.
Variable toUpperCase : jsstring -> jsstring.
Variables (ntlmHash : bytes) (userName domainName : jsstring) (challenge : bytes).

Abbreviation hash := (createNTLM2Hash hmac_md5 toUpperCase ntlmHash userName domainName).

(** Validation of a response [h ++ blob] whose first 16 bytes are [h]:
    the blob is parsed, its signature compared, the HMAC recomputed. *)
Lemma validateNTLMv2Response_app (h blob : bytes) :
  length h = 16%nat -> MIN_BLOB_SIZE <= Z.of_nat (length blob) ->
  validateNTLMv2Response hmac_md5 toUpperCase (h ++ blob) ntlmHash userName domainName challenge
  = blobObj ← parseNTLMv2Blob blob;
    match blobObj with
    | None => Throw TypeError
    | Some blobObj =>
      if negb (bufferEquals BLOB_SIGNATURE (signature blobObj)) then Ok false
      else Ok (bufferEquals (calculateNTLM2Response hmac_md5 hash blob challenge) (h ++ blob))
    end.
Proof.
intros Hh Hlen. unfold validateNTLMv2Response.
rewrite length_app, Hh.
destruct (Z.ltb_spec (Z.of_nat (16 + length blob)) (16 + MIN_BLOB_SIZE)) as [?|_]; [lia|].
assert (E : slice_from (h ++ blob) 16 = blob).
{ pose proof (slice_from_app h blob) as E. rewrite Hh in E. exact E. }
cbv zeta. rewrite E. reflexivity.
Qed.

(** First half of C4: the response computed for a well-formed blob is
    accepted. *)
Lemma validateNTLMv2Response_accepts (blob : bytes) :
  Forall is_byte blob -> well_formed_blob blob ->
  validateNTLMv2Response hmac_md5 toUpperCase
    (calculateNTLM2Response hmac_md5 hash blob challenge)
    ntlmHash userName domainName challenge = Ok true.
Proof.
intros Hb (Hlen & Hsig & Ht). unfold calculateNTLM2Response at 1.
rewrite validateNTLMv2Response_app; [|apply length_vec_to_list|assumption].
destruct (parseNTLMv2Blob_cases blob Hb Hlen) as [[_ (obj & -> & Hobj)]|[Hnt _]]; [|contradiction].
cbn [mbind result_bind]. rewrite Hobj, Hsig.
unfold bufferEquals. rewrite !bool_decide_eq_true_2 by reflexivity. reflexivity.
Qed.

(** Second half of C4, for the bits of the leading HMAC: flipping any of
    the first 128 bits of an accepted response makes validation return
    false. *)
Lemma validateNTLMv2Response_rejects_hmac_bit (blob : bytes) (i : nat) :
  Forall is_byte blob -> well_formed_blob blob -> (i < 128)%nat ->
  validateNTLMv2Response hmac_md5 toUpperCase
    (flip_bit (calculateNTLM2Response hmac_md5 hash blob challenge) i)
    ntlmHash userName domainName challenge = Ok false.
Proof.
intros Hb (Hlen & Hsig & Ht) Hi. unfold calculateNTLM2Response at 1.
set (h := vec_to_list (hmac_md5 hash (challenge ++ blob))).
assert (Hh : length h = 16%nat) by apply length_vec_to_list.
rewrite flip_bit_app_l by lia.
rewrite validateNTLMv2Response_app; [|by rewrite flip_bit_length|assumption].
destruct (parseNTLMv2Blob_cases blob Hb Hlen) as [[_ (obj & -> & Hobj)]|[Hnt _]]; [|contradiction].
cbn [mbind result_bind]. rewrite Hobj, Hsig.
unfold bufferEquals at 1. rewrite bool_decide_eq_true_2 by reflexivity. cbn [negb].
unfold bufferEquals, calculateNTLM2Response. fold h.
rewrite bool_decide_eq_false_2; [reflexivity|].
intros Heq. apply app_inv_tail in Heq. symmetry in Heq. revert Heq. apply flip_bit_neq. lia.
Qed.

(** C4 at the failing input.  The sample blob is well formed; flipping bit 0
    of byte 47 of its response (byte 31 of the blob, the high byte of the
    length of its target-info entry) makes validateNTLMv2Response raise
    RangeError out of parseNTLMv2Blob: it does not return false. *)
Theorem validateNTLMv2Response_flipped_bit_throws :
  well_formed_blob sample_blob
  /\ validateNTLMv2Response hmac_md5 toUpperCase
       (flip_bit (calculateNTLM2Response hmac_md5 hash sample_blob challenge) (8 * 47))
       ntlmHash userName domainName challenge = Throw RangeError.
Proof.
split.
- split; [vm_compute; discriminate|]. split; [reflexivity|].
  eapply eol_later; [reflexivity|discriminate|reflexivity|].
  apply eol_here. reflexivity.
- unfold calculateNTLM2Response.
  set (h := vec_to_list (hmac_md5 hash (challenge ++ sample_blob))).
  assert (Hh : length h = 16%nat) by apply length_vec_to_list.
  change (8 * 47)%nat with (8 * 16 + 8 * 31)%nat. rewrite <- Hh at 1.
  rewrite flip_bit_app_r.
  rewrite validateNTLMv2Response_app; [|assumption|vm_compute; discriminate].
  reflexivity.
Qed.

End Crypto.

End Ntlmv2Facts.

Module RectReadFacts.
Import Rect RectSpec.

Lemma write_at_app (buffer : bytes) (index : Z) (bs cs : bytes) :
  write_at buffer index (bs ++ cs)
  = write_at (write_at buffer index bs) (index + Z.of_nat (List.length bs)) cs.
Proof.
revert buffer index. induction bs as [|x bs IH]; intros buffer index; simpl.
- by rewrite Z.add_0_r.
- rewrite IH. f_equal. lia.
Qed.

Lemma u8_byte (v : Z) : is_byte v -> u8 v = v.
Proof. intros Hv. unfold u8. apply Z.mod_small. exact Hv. Qed.

(** Inside the destination, the cells written are the cells copied. *)
Lemma write_at_inside (bs : bytes) :
  Forall is_byte bs ->
  forall (buffer : bytes) (n : nat),
    (n + List.length bs <= List.length buffer)%nat ->
    write_at buffer (Z.of_nat n) bs
    = take n buffer ++ bs ++ drop (n + List.length bs) buffer.
Proof.
induction 1 as [|x bs Hx Hbs IH]; intros buffer n Hn; simpl in *.
- by rewrite Nat.add_0_r, take_drop.
- replace (Z.of_nat n + 1) with (Z.of_nat (S n)) by lia.
  rewrite IH.
  2:{ unfold put_cell. destruct (0 <=? Z.of_nat n); rewrite ?length_insert; lia. }
  unfold put_cell. destruct (Z.leb_spec 0 (Z.of_nat n)) as [_|?]; [|lia].
  rewrite Nat2Z.id, u8_byte by assumption.
  rewrite (take_S_r _ _ x).
  2:{ apply list_lookup_insert_eq. lia. }
  rewrite take_insert_ge by lia.
  rewrite drop_insert_lt by lia.
  rewrite <- app_assoc. simpl. by rewrite Nat.add_succ_r.
Qed.

(** The inner loop stops exactly when [index] reaches [length]. *)
Lemma copy_chunk_spec (b : bytes) (length : Z) :
  forall (buffer : bytes) (index : Z),
    index < length ->
    copy_chunk b length buffer index
    = if decide (length - index <= Z.of_nat (List.length b))
      then (write_at buffer index (take (Z.to_nat (length - index)) b), length,
            Some (drop (Z.to_nat (length - index)) b))
      else (write_at buffer index b, index + Z.of_nat (List.length b), None).
Proof.
induction b as [|x b IH]; intros buffer index Hlt; simpl.
- rewrite decide_False by (simpl; lia). by rewrite Z.add_0_r.
- destruct (Z.eqb_spec (index + 1) length) as [<-|Hne].
  + rewrite decide_True by lia.
    replace (index + 1 - index) with 1 by lia. reflexivity.
  + rewrite IH by lia. destruct (decide (length - (index + 1) <= Z.of_nat (List.length b))).
    * rewrite decide_True by lia.
      replace (Z.to_nat (length - index)) with (S (Z.to_nat (length - (index + 1)))) by lia.
      reflexivity.
    * rewrite decide_False by lia. do 2 f_equal. lia.
Qed.

Lemma drain_spec (bufs : list bytes) (length : Z) :
  forall (buffer : bytes) (index : Z),
    index < length ->
    length - index <= Z.of_nat (List.length (concat bufs)) ->
    exists bufs',
      drain bufs length buffer index
      = (bufs', write_at buffer index (take (Z.to_nat (length - index)) (concat bufs)),
         length, true)
      /\ concat bufs' = drop (Z.to_nat (length - index)) (concat bufs).
Proof.
induction bufs as [|b bufs IH]; intros buffer index Hlt Hle; simpl in *.
- lia.
- rewrite copy_chunk_spec by assumption.
  destruct (decide (length - index <= Z.of_nat (List.length b))) as [Hb|Hb].
  + eexists. rewrite take_app_le, drop_app_le by lia. split; reflexivity.
  + rewrite length_app in Hle.
    destruct (IH (write_at buffer index b) (index + Z.of_nat (List.length b))) as (bufs' & -> & Hc);
      [lia..|].
    exists bufs'. split.
    * rewrite take_app_ge by lia. rewrite write_at_app.
      replace (Z.to_nat (length - index) - List.length b)%nat
        with (Z.to_nat (length - (index + Z.of_nat (List.length b)))) by lia.
      reflexivity.
    * rewrite Hc, drop_app_ge by lia. f_equal. lia.
Qed.

(** C2 for a destination offset 0 and a positive count: [read] takes
    [min len length] bytes off the head of the queue, puts them at the
    head of the destination, keeps the rest of the queue (the tail of a
    partly consumed chunk first), decrements [length], and calls back with
    [(null, len, buffer)]. *)
Lemma read_from_start (r : Rectifier) (buffer : bytes) (len position : Z) (cb : nat) :
  length_invariant r -> Forall (Forall is_byte) (buffers r) ->
  0 < len -> 0 < Rect.length r ->
  let n := Z.min len (Rect.length r) in
  (Z.to_nat n <= List.length buffer)%nat ->
  exists r',
    read r buffer 0 len position cb
    = (r', [EvRead cb n (take (Z.to_nat n) (concat (buffers r)) ++ drop (Z.to_nat n) buffer)])
    /\ concat (buffers r') = drop (Z.to_nat n) (concat (buffers r))
    /\ Rect.length r' = Rect.length r - n
    /\ length_invariant r'.
Proof.
intros Hinv Hbytes Hlen Hpos n Hbuf. unfold read.
assert (Hn : (if len >? Rect.length r then Rect.length r else len) = n).
{ unfold n. destruct (Z.gtb_spec len (Rect.length r)); lia. }
rewrite Hn.
assert (0 < n) by (unfold n; lia).
assert (n <= Z.of_nat (List.length (concat (buffers r))))
  by (unfold length_invariant in Hinv; rewrite <- Hinv; unfold n; lia).
destruct (drain_spec (buffers r) n buffer 0) as (bufs' & -> & Hc); [lia..|].
rewrite Z.sub_0_r in *.
eexists. split; [|split; [|split]].
- do 3 f_equal. change 0 with (Z.of_nat 0).
  rewrite write_at_inside.
  + rewrite take_0, length_take. simpl. do 2 f_equal. lia.
  + apply Forall_take. by apply Forall_concat.
  + rewrite length_take. lia.
- exact Hc.
- reflexivity.
- unfold length_invariant in *. simpl. rewrite Hc, length_drop. lia.
Qed.

(** C2 at the failing input: two chunks [1,2,3,4] and [5,6,7,8] are
    queued ([length] = 8) and [read(buffer, 2, 2, 0, cb)] is called on a
    destination of 8 zero bytes.  The code copies six bytes, not two, into
    [buffer[2..8]], empties the queue, leaves [length] at 8 and reports 2
    bytes read; the claim has [buffer[2..4] = [1,2]], the queue
    [[3,4],[5,6,7,8]] and [length] = 6. *)
Theorem read_at_offset_overruns :
  length_invariant sample_rectifier
  /\ read sample_rectifier (replicate 8 0) 2 2 0 7
     = (set_buffers sample_rectifier [], [EvRead 7 2 [0; 0; 1; 2; 3; 4; 5; 6]])
  /\ ~ length_invariant (read sample_rectifier (replicate 8 0) 2 2 0 7).1.
Proof.
split; [reflexivity|]. split; [reflexivity|].
unfold length_invariant. simpl. discriminate.
Qed.

(** The same defect with offset 0 and a count of 0: the queue is emptied
    into the destination and [length] stays. *)
Lemma read_zero_drains :
  read sample_rectifier (replicate 8 0) 0 0 0 7
  = (set_buffers sample_rectifier [], [EvRead 7 0 [1; 2; 3; 4; 5; 6; 7; 8]]).
Proof. reflexivity. Qed.

End RectReadFacts.

Module RectFacts.
Import Rect RectSpec.

(** [read] touches the queue and [length], nothing else. *)
Lemma read_frame (r : Rectifier) (buffer : bytes) (off len pos : Z) (cb : nat) :
  let r' := (read r buffer off len pos cb).1 in
  position r' = position r /\ size r' = size r /\ loaded r' = loaded r
  /\ tasks r' = tasks r /\ closed r' = closed r /\ paused r' = paused r
  /\ req r' = req r /\ cacheSize r' = cacheSize r /\ running r' = running r.
Proof.
unfold read.
destruct (drain (buffers r) _ buffer off) as [[[bufs buffer'] index] [|]]; simpl; tauto.
Qed.

Lemma read_events (r : Rectifier) (buffer : bytes) (off len pos : Z) (cb : nat) :
  waiters_invoked (read r buffer off len pos cb).2 = []
  /\ requests_made (read r buffer off len pos cb).2 = [].
Proof.
unfold read.
destruct (drain (buffers r) _ buffer off) as [[[bufs buffer'] index] [|]]; simpl; tauto.
Qed.

Lemma waiters_invoked_app (evs1 evs2 : list Event) :
  waiters_invoked (evs1 ++ evs2) = waiters_invoked evs1 ++ waiters_invoked evs2.
Proof. apply omap_app. Qed.

Lemma requests_made_app (evs1 evs2 : list Event) :
  requests_made (evs1 ++ evs2) = requests_made evs1 ++ requests_made evs2.
Proof. apply omap_app. Qed.

(** The loop of [updateTask] calls the waiters of the deliverable tasks,
    in order, and leaves the others in [undone]. *)
Lemma run_tasks_spec (pos sz : Z) (ts : list (Z * Waiter)) :
  forall r : Rectifier,
    let d := fun t : Z * Waiter => (t.1 <=? pos) || ((t.1 >? sz) && loaded r) in
    let '(r', undone, evs) := run_tasks pos sz ts r in
    undone = filter (fun t => negb (d t)) ts
    /\ waiters_invoked evs = filter (fun t => d t) ts
    /\ requests_made evs = []
    /\ loaded r' = loaded r /\ closed r' = closed r /\ paused r' = paused r
    /\ req r' = req r /\ position r' = position r /\ size r' = size r
    /\ cacheSize r' = cacheSize r /\ running r' = running r.
Proof.
induction ts as [|[p w] ts IH]; intros r d; simpl.
- repeat split.
- unfold call_waiter.
  pose proof (read_frame r (w_buffer w) (w_offset w) (w_length w) (w_position w) (w_cb w))
    as (F1 & F2 & F3 & F4 & F5 & F6 & F7 & F8 & F9).
  pose proof (read_events r (w_buffer w) (w_offset w) (w_length w) (w_position w) (w_cb w))
    as (E1 & E2).
  destruct (read r (w_buffer w) (w_offset w) (w_length w) (w_position w) (w_cb w))
    as [r1 ev] eqn:Hread. simpl in *.
  assert (Hcall : forall r2 undone evs,
    run_tasks pos sz ts r1 = (r2, undone, evs) ->
    d (p, w) = true ->
    undone = filter (fun t => negb (d t)) ((p, w) :: ts)
    /\ waiters_invoked (EvWaiter p w :: ev ++ evs) = filter (fun t => d t) ((p, w) :: ts)
    /\ requests_made (EvWaiter p w :: ev ++ evs) = []
    /\ loaded r2 = loaded r /\ closed r2 = closed r /\ paused r2 = paused r
    /\ req r2 = req r /\ position r2 = position r /\ size r2 = size r
    /\ cacheSize r2 = cacheSize r /\ running r2 = running r).
  { intros r2 undone evs Hrun Hd. specialize (IH r1). rewrite Hrun in IH. simpl in IH.
    rewrite F3 in IH. fold d in IH.
    destruct IH as (I1 & I2 & I3 & I4 & I5 & I6 & I7 & I8 & I9 & I10 & I11).
    rewrite filter_cons_False by (rewrite Hd; simpl; tauto).
    rewrite filter_cons_True by (rewrite Hd; simpl; tauto).
    cbn [waiters_invoked requests_made omap list_omap].
    fold (waiters_invoked (ev ++ evs)). fold (requests_made (ev ++ evs)).
    rewrite waiters_invoked_app, requests_made_app, E1, E2, I2, I3. simpl.
    repeat split; first [exact I1 | congruence]. }
  assert (Hskip : forall r2 undone evs,
    run_tasks pos sz ts r = (r2, undone, evs) ->
    d (p, w) = false ->
    (p, w) :: undone = filter (fun t => negb (d t)) ((p, w) :: ts)
    /\ waiters_invoked evs = filter (fun t => d t) ((p, w) :: ts)
    /\ requests_made evs = []
    /\ loaded r2 = loaded r /\ closed r2 = closed r /\ paused r2 = paused r
    /\ req r2 = req r /\ position r2 = position r /\ size r2 = size r
    /\ cacheSize r2 = cacheSize r /\ running r2 = running r).
  { intros r2 undone evs Hrun Hd. specialize (IH r). rewrite Hrun in IH. simpl in IH.
    fold d in IH.
    destruct IH as (I1 & I2 & I3 & I4 & I5 & I6 & I7 & I8 & I9 & I10 & I11).
    rewrite filter_cons_True by (rewrite Hd; simpl; tauto).
    rewrite filter_cons_False by (rewrite Hd; simpl; tauto).
    rewrite I1, I2. repeat split; assumption. }
  unfold d in Hcall, Hskip. simpl in Hcall, Hskip.
  destruct (p <=? pos) eqn:E1'.
  + destruct (run_tasks pos sz ts r1) as [[r2 undone] evs] eqn:Hrun.
    apply Hcall; reflexivity.
  + destruct (p >? sz) eqn:E2'; [destruct (loaded r) eqn:E3'|].
    * destruct (run_tasks pos sz ts r1) as [[r2 undone] evs] eqn:Hrun.
      apply Hcall; reflexivity.
    * destruct (run_tasks pos sz ts r) as [[r2 undone] evs] eqn:Hrun.
      apply Hskip; reflexivity.
    * destruct (run_tasks pos sz ts r) as [[r2 undone] evs] eqn:Hrun.
      apply Hskip; reflexivity.
Qed.

Lemma Qltb_lt (x y : Q) : Qltb x y = true <-> (x < y)%Q.
Proof.
unfold Qltb. rewrite negb_true_iff. split.
- intros H. apply Qnot_le_lt. intros Hle. apply Qle_bool_iff in Hle. congruence.
- intros H. destruct (Qle_bool y x) eqn:E; [|reflexivity].
  apply Qle_bool_iff in E. exfalso. eapply Qlt_not_le; eauto.
Qed.

(** [a < c / 5] on rationals, for integers [a] and [c]. *)
Lemma lt_fifth (a c : Z) : (inject_Z a < inject_Z c / 5)%Q <-> 5 * a < c.
Proof.
change (a * 5 < c * 1 * 1 <-> 5 * a < c). lia.
Qed.

(** The value the code computes is the maximum of the targets, when that
    is not negative. *)
Lemma farestChunk_max (ts : list (Z * Waiter)) (m : Z) :
  max_target ts m -> 0 <= m -> farestChunk ts = m.
Proof.
intros [[w Hin] Hle] Hm. unfold farestChunk.
assert (Hub : foldr Z.max 0 (fst <$> ts) <= m).
{ clear Hin. induction Hle as [|t ts Ht _ IH]; [simpl; lia|].
  rewrite fmap_cons. cbn [foldr]. lia. }
assert (Hlb : m <= foldr Z.max 0 (fst <$> ts)).
{ clear Hle Hub. induction ts as [|t ts IH]; [by apply elem_of_nil in Hin|].
  rewrite fmap_cons. cbn [foldr].
  apply elem_of_cons in Hin as [<-|Hin]; [simpl; lia|]. specialize (IH Hin). lia. }
lia.
Qed.

Lemma farestChunk_nil : farestChunk [] = 0.
Proof. reflexivity. Qed.

(** The value the code computes is the greatest among 0 and the targets. *)
Lemma farestChunk_max_or_zero (ts : list (Z * Waiter)) (m : Z) :
  max_target_or_zero ts m -> farestChunk ts = m.
Proof.
intros (Hin & Hm & Hle). unfold farestChunk.
assert (Hub : foldr Z.max 0 (fst <$> ts) <= m).
{ clear Hin. induction Hle as [|t ts Ht _ IH]; [simpl; lia|].
  rewrite fmap_cons. cbn [foldr]. lia. }
assert (Hlb : m <= foldr Z.max 0 (fst <$> ts)).
{ assert (H0 : 0 <= foldr Z.max 0 (fst <$> ts)).
  { clear. induction ts as [|t ts IH]; [simpl; lia|]. rewrite fmap_cons. cbn [foldr]. lia. }
  destruct Hin as [->|[w Hin]]; [exact H0|].
  clear Hle Hub H0. induction ts as [|t ts IH]; [by apply elem_of_nil in Hin|].
  rewrite fmap_cons. cbn [foldr].
  apply elem_of_cons in Hin as [<-|Hin]; [simpl; lia|]. specialize (IH Hin). lia. }
lia.
Qed.

(** The cache size fixed by the constructor is at least 2 MiB. *)
Lemma constructor_cacheSize (size offset : Z) :
  cacheSize (constructor size offset) = Z.max (round_tenth size) (2 * 1024 * 1024)
  /\ 2 * 1024 * 1024 <= cacheSize (constructor size offset).
Proof. simpl. lia. Qed.

(** [updateTask] leaves alone what the constructor fixed, and keeps the
    request object. *)
Lemma updateTask_frame (r r' : Rectifier) (evs : list Event) :
  updateTask r = Ok (r', evs) ->
  size r' = size r /\ cacheSize r' = cacheSize r /\ closed r' = closed r
  /\ running r' = running r /\ position r' = position r /\ loaded r' = loaded r
  /\ (is_Some (req r) -> is_Some (req r')).
Proof.
unfold updateTask, with_req. intros Hup.
assert (Hgen : forall r0 ev0,
  size r0 = size r -> cacheSize r0 = cacheSize r -> closed r0 = closed r ->
  running r0 = running r -> position r0 = position r -> loaded r0 = loaded r ->
  (is_Some (req r) -> is_Some (req r0)) ->
  (let '(r1, undone, evs1) := run_tasks (position r) (size r) (tasks r) r0 in
   Ok (set_tasks r1 undone, ev0 ++ evs1)) = Ok (r', evs) ->
  size r' = size r /\ cacheSize r' = cacheSize r /\ closed r' = closed r
  /\ running r' = running r /\ position r' = position r /\ loaded r' = loaded r
  /\ (is_Some (req r) -> is_Some (req r'))).
{ intros r0 ev0 H1 H2 H3 H4 H5 H6 H7 Hrun.
  pose proof (run_tasks_spec (position r) (size r) (tasks r) r0) as Hspec.
  destruct (run_tasks _ _ _ r0) as [[r1 undone] evs1]. simpl in Hspec.
  destruct Hspec as (_ & _ & _ & I4 & I5 & I6 & I7 & I8 & I9 & I10 & I11).
  injection Hrun as <- <-. simpl.
  rewrite I4, I5, I7, I8, I9, I10, I11. repeat split; auto. }
destruct (position r - farestChunk (tasks r) >? cacheSize r).
- destruct (req r) as [q|]; [|discriminate Hup]. cbn [mbind result_bind] in Hup.
  eapply Hgen; [..|exact Hup]; simpl; eauto.
- destruct (Qltb _ _); [destruct (paused r)|].
  + destruct (req r) as [q|]; [|discriminate Hup]. cbn [mbind result_bind] in Hup.
    eapply Hgen; [..|exact Hup]; simpl; eauto.
  + cbn [mbind result_bind] in Hup. eapply Hgen; [..|exact Hup]; auto.
  + cbn [mbind result_bind] in Hup. eapply Hgen; [..|exact Hup]; auto.
Qed.

(** With the request object there, [updateTask] returns. *)
Lemma updateTask_returns (r : Rectifier) :
  is_Some (req r) -> exists r' evs, updateTask r = Ok (r', evs).
Proof.
intros [q Hreq]. unfold updateTask, with_req. rewrite Hreq.
destruct (_ >? _); [|destruct (Qltb _ _); [destruct (paused r)|]];
  cbn [mbind result_bind]; destruct (run_tasks _ _ _ _) as [[r1 undone] evs]; eauto.
Qed.

(** [running] is set only once [start()] has made the request, so every
    Rectifier the module builds satisfies [started]; on such a one [when]
    returns, and reaches [updateTask] with the request object there. *)
Lemma constructor_started (size offset : Z) : started (constructor size offset).
Proof. unfold started. simpl. discriminate. Qed.

Lemma when_returns (r : Rectifier) (position : Z) (w : Waiter) :
  started r -> exists r' evs, when r position w = Ok (r', evs) /\ started r'.
Proof.
unfold started, when. intros Hinv.
destruct (closed r); [eauto|].
change (running (set_tasks r (tasks r ++ [(position, w)]))) with (running r).
destruct (running r) eqn:Hrun; cbn [negb start].
- destruct (updateTask_returns (set_tasks r (tasks r ++ [(position, w)]))) as (r' & evs & Hup);
    [simpl; auto|].
  rewrite Hup. cbn [mbind result_bind]. eexists _, _. split; [reflexivity|].
  apply updateTask_frame in Hup as (_ & _ & _ & _ & _ & _ & Hreq). simpl in Hreq. auto.
- destruct (updateTask_returns
              (set_running (set_req (set_tasks r (tasks r ++ [(position, w)]))
                              (Some (mkRequest false false))) true)) as (r' & evs & Hup);
    [simpl; eauto|].
  rewrite Hup. cbn [mbind result_bind]. eexists _, _. split; [reflexivity|].
  apply updateTask_frame in Hup as (_ & _ & _ & _ & _ & _ & Hreq). simpl in Hreq. eauto.
Qed.

(** No operation changes [size] or [cacheSize], and [started] is kept: the
    hypotheses of the back-pressure theorem below hold at every call of
    [updateTask] on a Rectifier made
    by the constructor. *)
Lemma step_keeps_construction (r r' : Rectifier) (op : Op) (evs : list Event) :
  step r op = Ok (r', evs) ->
  size r' = size r /\ cacheSize r' = cacheSize r /\ (started r -> started r').
Proof.
unfold started. destruct op as [p w|buffer off len pos cb| |cb|status|chunk|]; simpl.
- unfold when. destruct (closed r); [intros [= <- <-]; auto|].
  change (running (set_tasks r (tasks r ++ [(p, w)]))) with (running r).
  destruct (running r) eqn:Hrun; cbn [negb start].
  + destruct (updateTask _) as [[r1 ev1]|] eqn:Hup; [|discriminate].
    cbn [mbind result_bind]. intros [= <- <-].
    apply updateTask_frame in Hup as (H1 & H2 & _ & H4 & _ & _ & Hreq). simpl in *.
    repeat split; auto.
  + destruct (updateTask _) as [[r1 ev1]|] eqn:Hup; [|discriminate].
    cbn [mbind result_bind]. intros [= <- <-].
    apply updateTask_frame in Hup as (H1 & H2 & _ & H4 & _ & _ & Hreq). simpl in *.
    repeat split; eauto.
- pose proof (read_frame r buffer off len pos cb) as (_ & F2 & _ & _ & _ & _ & F7 & F8 & F9).
  destruct (read r buffer off len pos cb) as [r1 ev]. simpl in *.
  intros [= <- <-]. rewrite F7, F9. auto.
- intros [= <- <-]. simpl. repeat split; auto. discriminate.
- unfold close. simpl. destruct (req r) eqn:Hreq; intros [= <- <-]; simpl;
    rewrite ?Hreq; repeat split; eauto.
- destruct (req r) eqn:Hreq; intros [= <- <-]; [|rewrite ?Hreq; auto].
  unfold on_response. destruct (negb _); simpl; rewrite ?Hreq; auto.
- destruct (req r) eqn:Hreq; [|intros [= <- <-]; rewrite ?Hreq; auto].
  unfold on_data. intros Hup.
  apply updateTask_frame in Hup as (H1 & H2 & _ & H4 & _ & _ & Hq). simpl in *.
  rewrite Hreq in Hq. repeat split; auto.
- destruct (req r) eqn:Hreq; [|intros [= <- <-]; rewrite ?Hreq; auto].
  unfold on_end. intros Hup.
  apply updateTask_frame in Hup as (H1 & H2 & _ & H4 & _ & _ & Hq). simpl in *.
  rewrite Hreq in Hq. repeat split; auto.
Qed.

(** [readFile] on a file served by URL: a Rectifier is made for the read
    and the waiter registered; the call returns. *)
Lemma readFile_url_returns (size : Z) (buffer : bytes) (offset length position : Z) (cb : nat) :
  exists r evs, readFile_url size buffer offset length position cb = Ok (r, evs).
Proof.
unfold readFile_url.
destruct (when_returns (constructor size position) (position + length)
            (mkWaiter buffer offset length position cb) (constructor_started _ _))
  as (r & evs & Hwhen & _).
eauto.
Qed.

(** C3, amended.  On a Rectifier whose request exists and whose cache
    size is the one the constructor computes, [updateTask] returns; with
    [farthest] the greatest among 0 and the targets of the task set (0 when
    there is no task, and when every target is negative):
    if [position - farthest > cacheSize] the upstream request is paused and
    [paused] becomes true; if [position - farthest < cacheSize / 5] and the
    upstream was paused it is resumed and [paused] becomes false; the
    waiters of exactly the tasks with [target <= position], or with
    [target > size] while [loaded], are invoked, in order, and exactly the
    other tasks are retained. *)
Theorem updateTask_pause_resume_deliver (r : Rectifier) (q : Request) :
  req r = Some q ->
  cacheSize r = Z.max (round_tenth (size r)) (2 * 1024 * 1024) ->
  exists (r' : Rectifier) (evs : list Event),
    updateTask r = Ok (r', evs)
    /\ (forall farthest : Z,
          max_target_or_zero (tasks r) farthest ->
          (position r - farthest > cacheSize r ->
             paused r' = true /\ req r' = Some (req_pause q) /\ EvPause ∈ evs)
          /\ ((inject_Z (position r - farthest) < inject_Z (cacheSize r) / 5)%Q ->
              paused r = true ->
              paused r' = false /\ req r' = Some (req_resume q) /\ EvResume ∈ evs))
    /\ tasks r' = filter (fun t => negb (deliverable r t)) (tasks r)
    /\ waiters_invoked evs = filter (fun t => deliverable r t) (tasks r).
Proof.
intros Hreq Hcache.
assert (Hc : 0 < cacheSize r) by lia.
unfold updateTask, with_req. rewrite Hreq.
destruct (Z.gtb_spec (position r - farestChunk (tasks r)) (cacheSize r)) as [Hgt|Hle].
- cbn [mbind result_bind].
  pose proof (run_tasks_spec (position r) (size r) (tasks r)
                (set_paused (set_req r (Some (req_pause q))) true)) as Hrun.
  destruct (run_tasks _ _ _ _) as [[r1 undone] evs]. simpl in Hrun.
  destruct Hrun as (I1 & I2 & I3 & I4 & I5 & I6 & I7 & I8 & I9 & I10 & I11).
  eexists _, _. split; [reflexivity|]. simpl. split; [|by rewrite I1, I2].
  intros farthest Hmax. rewrite (farestChunk_max_or_zero _ _ Hmax) in Hgt.
  split.
  + intros _. rewrite I6, I7. repeat split. apply elem_of_cons; by left.
  + intros Hq _. apply lt_fifth in Hq. lia.
- destruct (Qltb _ _) eqn:Hq; [destruct (paused r) eqn:Hp|].
  + cbn [mbind result_bind].
    pose proof (run_tasks_spec (position r) (size r) (tasks r)
                  (set_paused (set_req r (Some (req_resume q))) false)) as Hrun.
    destruct (run_tasks _ _ _ _) as [[r1 undone] evs]. simpl in Hrun.
    destruct Hrun as (I1 & I2 & I3 & I4 & I5 & I6 & I7 & I8 & I9 & I10 & I11).
    eexists _, _. split; [reflexivity|]. simpl. split; [|by rewrite I1, I2].
    intros farthest Hmax. rewrite (farestChunk_max_or_zero _ _ Hmax) in Hle.
    split; [intros ?; lia|].
    intros _ _. rewrite I6, I7. repeat split. apply elem_of_cons; by left.
  + cbn [mbind result_bind].
    pose proof (run_tasks_spec (position r) (size r) (tasks r) r) as Hrun.
    destruct (run_tasks _ _ _ _) as [[r1 undone] evs]. simpl in Hrun.
    destruct Hrun as (I1 & I2 & I3 & I4 & I5 & I6 & I7 & I8 & I9 & I10 & I11).
    eexists _, _. split; [reflexivity|]. simpl. split; [|by rewrite I1, I2].
    intros farthest Hmax. rewrite (farestChunk_max_or_zero _ _ Hmax) in Hle.
    split; [intros ?; lia|]. intros _ ?. congruence.
  + cbn [mbind result_bind].
    pose proof (run_tasks_spec (position r) (size r) (tasks r) r) as Hrun.
    destruct (run_tasks _ _ _ _) as [[r1 undone] evs]. simpl in Hrun.
    destruct Hrun as (I1 & I2 & I3 & I4 & I5 & I6 & I7 & I8 & I9 & I10 & I11).
    eexists _, _. split; [reflexivity|]. simpl. split; [|by rewrite I1, I2].
    intros farthest Hmax. rewrite (farestChunk_max_or_zero _ _ Hmax) in Hle, Hq.
    split; [intros ?; lia|]. intros Hlt _.
    apply Qltb_lt in Hlt. congruence.
Qed.

(** C3 on the scenario of the specification: size 10 MiB, so a cache of
    2 MiB; the position is 3 MiB when a waiter for position 100 is in the
    task list.  The waiter is called, and the upstream is paused. *)
Lemma updateTask_backpressure_witness :
  exists (r' : Rectifier) (evs : list Event),
    updateTask backpressure_rectifier = Ok (r', evs)
    /\ paused r' = true /\ req r' = Some (mkRequest true false)
    /\ tasks r' = []
    /\ waiters_invoked evs = [(100, backpressure_waiter)].
Proof.
destruct (updateTask_pause_resume_deliver backpressure_rectifier (mkRequest false false)
            eq_refl eq_refl) as (r' & evs & Hup & Hpr & Ht & Hw).
exists r', evs. split; [exact Hup|].
destruct (Hpr 100) as [Hp _].
- split; [right; exists backpressure_waiter; apply elem_of_cons; by left|].
  split; [lia|]. apply Forall_cons. split; [simpl; lia|apply Forall_nil_2].
- destruct Hp as (? & ? & ?); [simpl; lia|].
  repeat split; assumption.
Defined.

(** C3 as stated fails: with the one target -10 the maximum of the targets
    is -10, and [position - (-10)] exceeds the cache size; the code takes
    [Math.max(-10, 0)], finds [position - 0] within the cache size, and does
    not pause the upstream. *)
Lemma negative_target_is_not_the_farthest :
  max_target (tasks negative_target_rectifier) (-10)
  /\ position negative_target_rectifier - (-10) > cacheSize negative_target_rectifier
  /\ farestChunk (tasks negative_target_rectifier) = 0
  /\ updateTask negative_target_rectifier
     = Ok (set_tasks negative_target_rectifier [],
           [EvWaiter (-10) negative_target_waiter; EvRead 1 0 (replicate 100 0)])
  /\ paused (set_tasks negative_target_rectifier []) = false
  /\ req (set_tasks negative_target_rectifier []) = Some (mkRequest false false).
Proof.
split.
{ split; [exists negative_target_waiter; apply elem_of_cons; by left|].
  apply Forall_cons. split; [simpl; lia|apply Forall_nil_2]. }
split; [simpl; lia|]. split; [reflexivity|]. split; [reflexivity|]. split; reflexivity.
Qed.

(** After [close()]: [closed] is true and the task list is empty. *)
Lemma close_closed (r : Rectifier) (cb : nat) :
  closed (close r cb).1 = true /\ tasks (close r cb).1 = [].
Proof. unfold close. simpl. destruct (req r); simpl; auto. Qed.

(** On a closed Rectifier [when] returns at once: nothing is registered,
    no request is made. *)
Lemma when_closed (r : Rectifier) (position : Z) (w : Waiter) :
  closed r = true -> when r position w = Ok (r, []).
Proof. intros Hc. unfold when. by rewrite Hc. Qed.

(** [updateTask] with no task calls no waiter; it needs the request object
    only in order to pause or resume it. *)
Lemma updateTask_no_tasks (r : Rectifier) (q : Request) :
  req r = Some q -> tasks r = [] ->
  exists (r' : Rectifier) (evs : list Event),
    updateTask r = Ok (r', evs)
    /\ closed r' = closed r /\ tasks r' = []
    /\ waiters_invoked evs = [] /\ requests_made evs = [].
Proof.
intros Hreq Hts. unfold updateTask, with_req. rewrite Hreq, Hts.
destruct (_ >? _); [|destruct (Qltb _ _); [destruct (paused r)|]];
  cbn; eexists _, _; (split; [reflexivity|]); simpl; auto.
Qed.

(** A closed Rectifier with no task stays so under every operation, which
    returns normally, calls no waiter and makes no request. *)
Lemma step_closed (r : Rectifier) (op : Op) :
  closed r = true -> tasks r = [] ->
  exists (r' : Rectifier) (evs : list Event),
    step r op = Ok (r', evs)
    /\ closed r' = true /\ tasks r' = []
    /\ waiters_invoked evs = [] /\ requests_made evs = [].
Proof.
intros Hc Hts. destruct op as [p w|buffer off len pos cb| |cb|status|chunk|]; simpl.
- rewrite when_closed by assumption. eexists _, _. split; [reflexivity|]. auto.
- pose proof (read_frame r buffer off len pos cb) as (_ & _ & _ & F4 & F5 & _).
  pose proof (read_events r buffer off len pos cb) as (E1 & E2).
  destruct (read r buffer off len pos cb) as [r1 ev]. simpl in *.
  eexists _, _. split; [reflexivity|]. repeat split; congruence.
- eexists _, _. split; [reflexivity|]. simpl. auto.
- unfold close. simpl. destruct (req r); eexists _, _; (split; [reflexivity|]); simpl; auto.
- destruct (req r); eexists _, _; (split; [reflexivity|]); auto.
  unfold on_response. destruct (negb _); simpl; auto.
- destruct (req r) as [q|] eqn:Hreq; [|eexists _, _; (split; [reflexivity|]); auto].
  unfold on_data.
  destruct (updateTask_no_tasks
              (set_position
                 (set_length (set_buffers r (buffers r ++ [slice_from chunk 0]))
                    (Rect.length (set_buffers r (buffers r ++ [slice_from chunk 0]))
                     + Z.of_nat (List.length chunk)))
                 (position
                    (set_length (set_buffers r (buffers r ++ [slice_from chunk 0]))
                       (Rect.length (set_buffers r (buffers r ++ [slice_from chunk 0]))
                        + Z.of_nat (List.length chunk)))
                  + Z.of_nat (List.length chunk))) q)
    as (r' & evs & Hup & H1 & H2 & H3 & H4); [assumption..|].
  exists r', evs. split; [exact Hup|]. simpl in H1. repeat split; congruence.
- destruct (req r) as [q|] eqn:Hreq; [|eexists _, _; (split; [reflexivity|]); auto].
  unfold on_end.
  destruct (updateTask_no_tasks (set_loaded r true) q)
    as (r' & evs & Hup & H1 & H2 & H3 & H4); [assumption..|].
  exists r', evs. split; [exact Hup|]. simpl in H1. repeat split; congruence.
Qed.

Lemma run_closed (ops : list Op) :
  forall r : Rectifier,
    closed r = true -> tasks r = [] ->
    exists (r' : Rectifier) (evs : list Event),
      run r ops = Ok (r', evs)
      /\ closed r' = true /\ tasks r' = []
      /\ waiters_invoked evs = [] /\ requests_made evs = [].
Proof.
induction ops as [|op ops IH]; intros r Hc Hts; simpl.
- eexists _, _. split; [reflexivity|]. auto.
- destruct (step_closed r op Hc Hts) as (r1 & ev & -> & Hc1 & Hts1 & Hw1 & Hq1).
  cbn [mbind result_bind].
  destruct (IH r1 Hc1 Hts1) as (r2 & evs & -> & Hc2 & Hts2 & Hw2 & Hq2).
  cbn [mbind result_bind].
  eexists _, _. split; [reflexivity|].
  rewrite waiters_invoked_app, requests_made_app, Hw1, Hw2, Hq1, Hq2. auto.
Qed.

(** C10.  Once [close()] has been called on a Rectifier, [closed] is true
    and the task list is empty; whatever happens to it afterwards (calls of
    its methods, events of its request), every operation returns, [closed]
    stays true and the task list empty, a call [when(position, cb)] returns
    at once with nothing registered and no request made, and no waiter is
    called. *)
Theorem close_is_final (r : Rectifier) (cb : nat) (ops : list Op) :
  closed (close r cb).1 = true
  /\ tasks (close r cb).1 = []
  /\ exists (r' : Rectifier) (evs : list Event),
      run (close r cb).1 ops = Ok (r', evs)
      /\ closed r' = true /\ tasks r' = []
      /\ waiters_invoked evs = [] /\ requests_made evs = []
      /\ forall (position : Z) (w : Waiter), when r' position w = Ok (r', []).
Proof.
destruct (close_closed r cb) as [Hc Hts].
split; [exact Hc|]. split; [exact Hts|].
destruct (run_closed ops _ Hc Hts) as (r' & evs & Hrun & Hc' & Hts' & Hw & Hq).
exists r', evs. repeat split; try assumption.
intros position w. by apply when_closed.
Qed.

End RectFacts.

Module CmdFacts.
Import Status Utils Utils2 Codec Spi Cmd Ntlmv2 DispatchSpec.

Lemma status_or_unsuccessful_fails (err : SMBError) :
  status_or_unsuccessful err <> STATUS_SUCCESS.
Proof. unfold status_or_unsuccessful. destruct (err_status err) as [[]|]; discriminate. Qed.

Lemma readUInt8_in_range (buf : bytes) (off : Z) :
  0 <= off -> off + 1 <= Z.of_nat (length buf) -> exists v, readUInt8 buf off = Ok v.
Proof.
intros H0 H1. unfold readUInt8, in_range.
rewrite (proj2 (Z.leb_le _ _) H0), (proj2 (Z.leb_le _ _) H1). simpl. eauto.
Qed.

Lemma parse_word_in_range (buf : bytes) (off : Z) (n : nat) :
  off + Z.of_nat n <= Z.of_nat (length buf) -> exists v, parse_word buf off n = Some v.
Proof.
intros H. unfold parse_word. rewrite (proj2 (Z.leb_le _ _) H). eauto.
Qed.

(** The parser on a field that fits reads it where [parse_word] does. *)
Lemma parse_next_fits (buf : bytes) (off : Z) (n : nat) :
  off + Z.of_nat n <= Z.of_nat (length buf) ->
  parse_next buf off n = (parse_word buf off n, off + Z.of_nat n).
Proof.
intros H. unfold parse_next, parse_word. by rewrite (proj2 (Z.leb_le _ _) H).
Qed.

Lemma parse_chain_shape (buf : bytes) (ns : list nat) :
  forall off : Z,
    (fun v : option Z => match v with Some _ => true | None => false end)
      <$> parse_chain buf off ns
    = chain_shape (Z.of_nat (length buf)) off ns.
Proof.
induction ns as [|n ns IH]; intros off; [reflexivity|].
cbn [parse_chain chain_shape fmap list_fmap]. unfold parse_next at 1 2.
destruct (_ <=? _); cbn [fst snd]; f_equal; apply IH.
Qed.

(** NT_CREATE_ANDX is modelled with its fields at fixed offsets.  That is
    what the parser gives when the parameters hold them all (48 bytes).
    When they do not, the parser leaves [null] in one of the fields the
    handler formats for its log (flags, desiredAccess, extFileAttributes,
    shareAccess, createDisposition, createOptions, impersonationLevel,
    securityFlags), as the fixed offsets do in securityFlags: the handler
    raises the same TypeError either way. *)
Lemma nt_create_andx_fields_in_sequence (buf : bytes) :
  let fields := parse_chain buf (0 + 4 + 1) [2; 4; 4; 4; 8; 4; 4; 4; 4; 4; 1]%nat in
  (48 <= Z.of_nat (length buf) ->
   fields = [parse_word buf 5 2; parse_word buf 7 4; parse_word buf 11 4;
             parse_word buf 15 4; parse_word buf 19 8; parse_word buf 27 4;
             parse_word buf 31 4; parse_word buf 35 4; parse_word buf 39 4;
             parse_word buf 43 4; parse_word buf 47 1])
  /\ (Z.of_nat (length buf) < 48 ->
      parse_word buf 47 1 = None
      /\ Exists (fun i => fields !! i = Some None) [1; 3; 5; 6; 7; 8; 9; 10]%nat).
Proof.
cbv zeta. split.
- intros Hlen. cbn [parse_chain].
  repeat (rewrite parse_next_fits by (cbn; lia); cbn [fst snd]). reflexivity.
- intros Hlen. split.
  { unfold parse_word. destruct (Z.leb_spec (47 + Z.of_nat 1) (Z.of_nat (length buf)));
      [lia|reflexivity]. }
  assert (Hshape : Exists (fun i => chain_shape (Z.of_nat (length buf)) (0 + 4 + 1)
                                      [2; 4; 4; 4; 8; 4; 4; 4; 4; 4; 1]%nat !! i = Some false)
                     [1; 3; 5; 6; 7; 8; 9; 10]%nat).
  { assert (Hn : (length buf < 48)%nat) by lia. clear Hlen.
    generalize dependent (length buf). intros n Hn.
    do 48 (destruct n as [|n];
           [apply (bool_decide_unpack _); vm_compute; exact I|]).
    lia. }
  rewrite <- parse_chain_shape in Hshape.
  eapply Exists_impl; [exact Hshape|]. cbn beta. intros i Hi.
  rewrite list_lookup_fmap in Hi.
  destruct (parse_chain buf (0 + 4 + 1) _ !! i) as [[v|]|]; cbn in Hi;
    [discriminate|reflexivity|discriminate].
Qed.

(** Whether [flags & 0x4] is non-zero is bit 2 of [flags]. *)
Lemma opbatch_bit (flags : Z) :
  truthy (Z.land flags NT_CREATE_REQUEST_OPBATCH) = Z.testbit flags 2.
Proof.
unfold truthy, NT_CREATE_REQUEST_OPBATCH.
assert (H : Z.land flags 4 = if Z.testbit flags 2 then 4 else 0).
{ apply Z.bits_inj'. intros n Hn. rewrite Z.land_spec.
  destruct (Z.eq_dec n 2) as [->|Hne].
  - destruct (Z.testbit flags 2); reflexivity.
  - change 4 with (2 ^ 2). rewrite Z.pow2_bits_false by lia.
    rewrite andb_false_r. destruct (Z.testbit flags 2).
    + by rewrite Z.pow2_bits_false by lia.
    + by rewrite Z.bits_0. }
rewrite H. destruct (Z.testbit flags 2); reflexivity.
Qed.

Section Handlers.
Variable SMB : Constants.
Variable server : Server.
Variable getParentPath : jsstring -> jsstring.
Variable Path_join : jsstring -> jsstring -> jsstring.
Variable extractUnicodeBytes : bytes -> Z -> result bytes.
Variable kMaxLength : Z.

(** The fifth byte of the response parameters, after the AndX header (next
    command, reserved, offset), is OpLockLevel. *)
Lemma build_params_oplock (flags next nextOffset : Z) (file : File) :
  build_params SMB flags next nextOffset file !! 4%nat
  = Some (if Z.testbit flags 2 then 2 else 0).
Proof.
unfold build_params. rewrite opbatch_bit.
unfold word8, word16le. cbn [word_le app lookup list_lookup].
destruct (Z.testbit flags 2); reflexivity.
Qed.

Lemma length_word_le (n : nat) (x : Z) : length (word_le n x) = n.
Proof. revert x. induction n as [|n IH]; intros x; simpl; [reflexivity|]. by rewrite IH. Qed.

(** A response has 100 bytes of parameters (50 words) when the extended
    response is asked for and 68 (34 words) when it is not. *)
Lemma build_params_length (flags next nextOffset : Z) (file : File) :
  length (build_params SMB flags next nextOffset file)
  = if truthy (Z.land flags NT_CREATE_REQUEST_EXTENDED_RESPONSE) then 100%nat else 68%nat.
Proof.
unfold build_params, smb_time_words, word8, word16le, word32le, word64le, ZERO_GUID.
destruct (truthy (Z.land flags NT_CREATE_REQUEST_EXTENDED_RESPONSE));
  repeat rewrite ?length_app, ?length_word_le, ?length_replicate; reflexivity.
Qed.

(** C8.  Every NT_CREATE_ANDX response with status STATUS_SUCCESS has a
    parameter buffer whose OpLockLevel byte (byte 4) is 2 if the flags of
    the request include the batch-oplock bit 0x4 (bit 2) and 0 otherwise;
    and whenever the length of that buffer, halved, exceeds 0x2a, the
    result's wordCount override is 0x2a. *)
Theorem nt_create_andx_oplock_and_wordCount
    (tid : Z) (commandParams commandData : bytes) (commandDataOffset : Z)
    (effects : list Effect) (r : Result) :
  nt_create_andx_handle SMB server extractUnicodeBytes
    tid commandParams commandData commandDataOffset
  = (effects, Ok r) ->
  status r = STATUS_SUCCESS ->
  exists (flags : Z) (buf : bytes),
    parse_word commandParams 7 4 = Some flags
    /\ params r = PBuffer buf
    /\ buf !! 4%nat = Some (if Z.testbit flags 2 then 2 else 0)
    /\ ((inject_Z (Z.of_nat (length buf)) / 2 > 0x2a)%Q -> wordCount r = Some 0x2a).
Proof.
unfold nt_create_andx_handle. intros Hrun Hok.
destruct (extractUnicodeBytes commandData _) as [nameBytes|]; [|discriminate Hrun].
destruct (parse_word commandParams 7 4) as [flags|] eqn:Hflags; [|discriminate Hrun].
cbn [toString_of mbind result_bind] in Hrun.
repeat match type of Hrun with
       | context [toString_of ?v] =>
         destruct v; cbn [toString_of mbind result_bind] in Hrun; [|discriminate Hrun]
       end.
destruct (getTree server tid) as [tree|].
2:{ injection Hrun as <- <-. discriminate Hok. }
destruct (openOrCreate tree _ _ _) as [err|file].
{ injection Hrun as <- <-. simpl in Hok. by apply status_or_unsuccessful_fails in Hok. }
destruct (buildResult SMB _ commandParams file) as [res|e] eqn:Hbuild; [|discriminate Hrun].
injection Hrun as <- <-. clear Hok.
unfold buildResult in Hbuild.
destruct (readUInt8 commandParams 0) as [next|]; [|discriminate Hbuild].
destruct (readUInt16LE commandParams 2) as [nextOffset|]; [|discriminate Hbuild].
cbn [mbind result_bind int_of default from_option id] in Hbuild.
exists flags, (build_params SMB flags next nextOffset file).
split; [reflexivity|].
destruct (Z.gtb_spec (Z.of_nat (length (build_params SMB flags next nextOffset file))) (2 * 42))
  as [Hgt|Hle]; injection Hbuild as <-; cbn [params wordCount].
- split; [reflexivity|]. split; [apply build_params_oplock|]. reflexivity.
- split; [reflexivity|]. split; [apply build_params_oplock|].
  intros Hq. exfalso. revert Hq.
  unfold Qlt, Qdiv, Qmult, Qinv, inject_Z. cbn [Qnum Qden]. lia.
Qed.

(** The override is there exactly for the extended response. *)
Lemma nt_create_andx_wordCount_iff_extended
    (flags : Z) (commandParams : bytes) (file : File) (r : Result) :
  buildResult SMB flags commandParams file = Ok r ->
  wordCount r
  = if truthy (Z.land flags NT_CREATE_REQUEST_EXTENDED_RESPONSE) then Some 0x2a else None.
Proof.
unfold buildResult. intros Hbuild.
destruct (readUInt8 commandParams 0) as [next|]; [|discriminate Hbuild].
destruct (readUInt16LE commandParams 2) as [nextOffset|]; [|discriminate Hbuild].
cbn [mbind result_bind] in Hbuild. rewrite build_params_length in Hbuild.
destruct (truthy _); simpl in Hbuild; injection Hbuild as <-; reflexivity.
Qed.

(** A well-formed NT_CREATE_ANDX request on a resolvable TID whose open
    succeeds does get a STATUS_SUCCESS response. *)
Lemma nt_create_andx_succeeds
    (tid : Z) (commandParams commandData : bytes) (commandDataOffset : Z)
    (tree : Tree) (file : File) :
  nt_create_andx_well_formed extractUnicodeBytes commandParams commandData commandDataOffset ->
  getTree server tid = Some tree ->
  (forall name disposition isDir, openOrCreate tree name disposition isDir = inr file) ->
  exists effects r,
    nt_create_andx_handle SMB server extractUnicodeBytes
      tid commandParams commandData commandDataOffset
    = (effects, Ok r) /\ status r = STATUS_SUCCESS.
Proof.
intros [Hlen [name Hname]] Htree Hopen. unfold nt_create_andx_handle. rewrite Hname.
repeat match goal with
       | |- context [parse_word commandParams ?off ?n] =>
         let v := fresh "v" in let Hv := fresh "Hv" in
         destruct (parse_word_in_range commandParams off n) as [v Hv];
         [simpl; lia | rewrite Hv]
       end.
cbn [toString_of mbind result_bind]. rewrite Htree, Hopen.
unfold buildResult.
destruct (readUInt8_in_range commandParams 0) as [next ->]; [lia..|].
destruct (Ntlmv2Facts.readUInt16LE_in_range commandParams 2) as [nextOffset ->]; [lia..|].
cbn [mbind result_bind]. destruct (_ >? _); eexists _, _; split; reflexivity.
Qed.

(** C7, amended.  When the TID of the header does not resolve to a Tree,
    the handlers CLOSE, DELETE, READ_ANDX and NT_CREATE_ANDX respond
    STATUS_SMB_BAD_TID with empty params and data to every request that has
    the fixed-size fields they decode; TRANS2 set-file-information responds
    STATUS_SMB_BAD_TID when the information level is at least
    INFO_PASSTHROUGH.  When the level is below INFO_PASSTHROUGH it responds
    STATUS_NOT_SUPPORTED, whether or not the TID resolves. *)
Theorem bad_tid_preflight (tid : Z) (commandParams commandData : bytes)
    (commandDataOffset : Z) :
  (getTree server tid = None ->
   (close_well_formed commandParams ->
    close_handle server tid commandParams commandData
    = ([], Ok (empty_result STATUS_SMB_BAD_TID)))
   /\ (delete_well_formed extractUnicodeBytes commandParams commandData commandDataOffset ->
       delete_handle server extractUnicodeBytes tid commandParams commandData commandDataOffset
       = ([], Ok (empty_result STATUS_SMB_BAD_TID)))
   /\ read_andx_handle server kMaxLength tid commandParams commandData
      = ([], Ok (empty_result STATUS_SMB_BAD_TID))
   /\ (nt_create_andx_well_formed extractUnicodeBytes
         commandParams commandData commandDataOffset ->
       nt_create_andx_handle SMB server extractUnicodeBytes
         tid commandParams commandData commandDataOffset
       = ([], Ok (empty_result STATUS_SMB_BAD_TID)))
   /\ (set_file_information_well_formed commandParams ->
       exists informationLevel,
         readUInt16LE commandParams 2 = Ok informationLevel
         /\ trans2_set_fs_information_handle SMB server getParentPath Path_join
              extractUnicodeBytes tid commandParams commandData commandDataOffset
            = ([], Ok (empty_result
                         (if informationLevel <? INFO_PASSTHROUGH SMB
                          then STATUS_NOT_SUPPORTED else STATUS_SMB_BAD_TID)))))
  /\ (set_file_information_well_formed commandParams ->
      exists informationLevel,
        readUInt16LE commandParams 2 = Ok informationLevel
        /\ (informationLevel < INFO_PASSTHROUGH SMB ->
            trans2_set_fs_information_handle SMB server getParentPath Path_join
              extractUnicodeBytes tid commandParams commandData commandDataOffset
            = ([], Ok (empty_result STATUS_NOT_SUPPORTED)))).
Proof.
split; [intros Htree; repeat split|].
- unfold close_well_formed, close_handle. intros Hwf.
  destruct (Ntlmv2Facts.readUInt16LE_in_range commandParams 0) as [v ->]; [lia..|].
  destruct (Ntlmv2Facts.readUInt32LE_in_range commandParams 2) as [w ->]; [lia..|].
  by rewrite Htree.
- unfold delete_well_formed, delete_handle. intros (Hp & Hd & name & Hname).
  destruct (Ntlmv2Facts.readUInt16LE_in_range commandParams 0) as [v ->]; [lia..|].
  destruct (readUInt8_in_range commandData 0) as [w ->]; [lia..|].
  cbv zeta. change (0 + 1) with 1. by rewrite Hname, Htree.
- unfold read_andx_handle.
  destruct (parse_next commandParams (0 + 4) 2) as [fid off1].
  destruct (parse_next commandParams off1 4) as [offset off2].
  destruct (parse_next commandParams off2 2) as [maxCountOfBytesToReturn off3].
  destruct (Z.eqb_spec (Z.of_nat (length commandParams)) 24) as [Hlen|Hlen].
  + destruct (Ntlmv2Facts.readUInt32LE_in_range commandParams 20) as [w ->]; [lia..|].
    by rewrite Htree.
  + by rewrite Htree.
- unfold nt_create_andx_well_formed, nt_create_andx_handle. intros (Hwf & name & Hname).
  rewrite Hname.
  repeat match goal with
         | |- context [parse_word commandParams ?off ?n] =>
           let v := fresh "v" in let Hv := fresh "Hv" in
           destruct (parse_word_in_range commandParams off n) as [v Hv];
           [simpl; lia | rewrite Hv]
         end.
  cbn [toString_of mbind result_bind]. by rewrite Htree.
- unfold set_file_information_well_formed, trans2_set_fs_information_handle. intros Hwf.
  destruct (Ntlmv2Facts.readUInt16LE_in_range commandParams 0) as [v ->]; [lia..|].
  destruct (Ntlmv2Facts.readUInt16LE_in_range commandParams 2) as [level ->]; [lia..|].
  exists level. split; [reflexivity|].
  destruct (level <? INFO_PASSTHROUGH SMB); [reflexivity|]. by rewrite Htree.
- unfold set_file_information_well_formed, trans2_set_fs_information_handle. intros Hwf.
  destruct (Ntlmv2Facts.readUInt16LE_in_range commandParams 0) as [v ->]; [lia..|].
  destruct (Ntlmv2Facts.readUInt16LE_in_range commandParams 2) as [level ->]; [lia..|].
  exists level. split; [reflexivity|]. intros Hlt.
  by rewrite (proj2 (Z.ltb_lt _ _) Hlt).
Qed.

End Handlers.

(** C7 as stated fails: TRANS2 set-file-information with the information
    level 0x0101 (below INFO_PASSTHROUGH) on a TID that does not resolve is
    answered STATUS_NOT_SUPPORTED, not STATUS_SMB_BAD_TID. *)
Lemma set_file_information_level_checked_before_tid :
  getTree no_tree_server 1 = None
  /\ trans2_set_fs_information_handle ms_smb_constants no_tree_server
       (fun p => p) (fun a b => a ++ b)
       sample_extractUnicodeBytes 1 (set_file_info_params 0x0101) [] 0
     = ([], Ok (empty_result STATUS_NOT_SUPPORTED))
  /\ STATUS_NOT_SUPPORTED <> STATUS_SMB_BAD_TID.
Proof. split; [reflexivity|]. split; [reflexivity|discriminate]. Qed.

Lemma bad_tid_preflight_witness :
  close_handle no_tree_server 1 [0x01; 0x00; 0xff; 0xff; 0xff; 0xff] []
  = ([], Ok (empty_result STATUS_SMB_BAD_TID))
  /\ delete_handle no_tree_server sample_extractUnicodeBytes 1
       [0x06; 0x00] [0x04; 0x61; 0x00; 0x00; 0x00] 0
     = ([], Ok (empty_result STATUS_SMB_BAD_TID))
  /\ nt_create_andx_handle ms_smb_constants no_tree_server sample_extractUnicodeBytes 1
       (nt_create_params 0) [0x61; 0x00; 0x00; 0x00] 0
     = ([], Ok (empty_result STATUS_SMB_BAD_TID))
  /\ (exists informationLevel,
       readUInt16LE (set_file_info_params 0x03f5) 2 = Ok informationLevel
       /\ trans2_set_fs_information_handle ms_smb_constants no_tree_server
            (fun p => p) (fun a b => a ++ b)
        sample_extractUnicodeBytes 1 (set_file_info_params 0x03f5) [] 0
          = ([], Ok (empty_result
                       (if informationLevel <? INFO_PASSTHROUGH ms_smb_constants
                        then STATUS_NOT_SUPPORTED else STATUS_SMB_BAD_TID))))
  /\ is_Some (getTree sample_server 1)
  /\ readUInt16LE (set_file_info_params 0x0101) 2 = Ok 0x0101
  /\ 0x0101 < INFO_PASSTHROUGH ms_smb_constants
  /\ trans2_set_fs_information_handle ms_smb_constants sample_server
       (fun p => p) (fun a b => a ++ b)
       sample_extractUnicodeBytes 1 (set_file_info_params 0x0101) [] 0
     = ([], Ok (empty_result STATUS_NOT_SUPPORTED)).
Proof.
destruct (bad_tid_preflight ms_smb_constants no_tree_server (fun p => p) (fun a b => a ++ b)
            sample_extractUnicodeBytes node_kMaxLength
            1 [0x01; 0x00; 0xff; 0xff; 0xff; 0xff] [] 0) as (Hnone & _).
destruct (Hnone eq_refl) as (Hclose & _). clear Hnone.
destruct (bad_tid_preflight ms_smb_constants no_tree_server (fun p => p) (fun a b => a ++ b)
            sample_extractUnicodeBytes node_kMaxLength
            1 (set_file_info_params 0x03f5) [] 0) as (Hnone & _).
destruct (Hnone eq_refl) as (_ & _ & _ & _ & Hset). clear Hnone.
destruct (bad_tid_preflight ms_smb_constants no_tree_server (fun p => p) (fun a b => a ++ b)
            sample_extractUnicodeBytes node_kMaxLength
            1 [0x06; 0x00] [0x04; 0x61; 0x00; 0x00; 0x00] 0) as (Hnone & _).
destruct (Hnone eq_refl) as (_ & Hdelete & _). clear Hnone.
destruct (bad_tid_preflight ms_smb_constants no_tree_server (fun p => p) (fun a b => a ++ b)
            sample_extractUnicodeBytes node_kMaxLength
            1 (nt_create_params 0) [0x61; 0x00; 0x00; 0x00] 0) as (Hnone & _).
destruct (Hnone eq_refl) as (_ & _ & _ & Hcreate & _). clear Hnone.
destruct (bad_tid_preflight ms_smb_constants sample_server (fun p => p) (fun a b => a ++ b)
            sample_extractUnicodeBytes node_kMaxLength
            1 (set_file_info_params 0x0101) [] 0) as (_ & Hbelow).
split; [|split; [|split; [|split; [|split]]]].
- apply Hclose. unfold close_well_formed. simpl. lia.
- apply Hdelete. unfold delete_well_formed. simpl. repeat split; [lia..|eauto].
- apply Hcreate. unfold nt_create_andx_well_formed. split; [vm_compute; discriminate|eauto].
- apply Hset. unfold set_file_information_well_formed. simpl. lia.
- simpl. eauto.
- destruct Hbelow as (level & Hlevel & Hhandle).
  { unfold set_file_information_well_formed. simpl. lia. }
  vm_compute in Hlevel. injection Hlevel as <-.
  split; [reflexivity|]. split; [reflexivity|]. apply Hhandle. reflexivity.
Defined.

Lemma nt_create_andx_witness :
  exists (flags : Z) (buf : bytes),
    parse_word (nt_create_params 0x16) 7 4 = Some flags
    /\ params (mkResult STATUS_SUCCESS
                 (PBuffer (build_params ms_smb_constants 0x16 0xff 0 sample_file))
                 EMPTY_BUFFER (Some 0x2a) None) = PBuffer buf
    /\ buf !! 4%nat = Some (if Z.testbit flags 2 then 2 else 0)
    /\ ((inject_Z (Z.of_nat (length buf)) / 2 > 0x2a)%Q ->
        wordCount (mkResult STATUS_SUCCESS
                     (PBuffer (build_params ms_smb_constants 0x16 0xff 0 sample_file))
                     EMPTY_BUFFER (Some 0x2a) None) = Some 0x2a).
Proof.
apply (nt_create_andx_oplock_and_wordCount ms_smb_constants sample_server
         sample_extractUnicodeBytes 1 (nt_create_params 0x16) [0x00; 0x61; 0x00; 0x00; 0x00] 81
         [OpenOrCreate [97] 1 false]).
- reflexivity.
- reflexivity.
Defined.

End CmdFacts.

Module DispatchFacts.
Import Status Spi Cmd Dispatch DispatchSpec.

Lemma in_domain_nested (evs : list Event) (t : Trace) :
  in_domain (evs ++ (in_domain t).1, (in_domain t).2) = in_domain (evs ++ t.1, t.2).
Proof.
destruct t as [tevs [| |e]]; unfold in_domain; simpl; try reflexivity.
by rewrite app_assoc.
Qed.

Section Dispatcher.
Variable COMMAND_TO_STRING : Z -> option string.
Variable cmdHandlers : string -> option Handler.

Abbreviation eachSeries := (eachSeries COMMAND_TO_STRING cmdHandlers).
Abbreviation passes := (passes COMMAND_TO_STRING cmdHandlers).
Abbreviation pass_all := (pass_all COMMAND_TO_STRING cmdHandlers).

(** A command handled without error: its handler is called, the
    continuation is called with no error, and the series goes on, all inside
    the domain of the handler. *)
Lemma eachSeries_pass (msg msg' : Message) (i : nat) (cmd : Command) (rest : list Command) :
  passes msg i cmd = Some msg' ->
  eachSeries msg i (cmd :: rest)
  = in_domain ([EvHandler (commandId cmd); EvCallback (commandId cmd) None]
               ++ (eachSeries msg' (S i) rest).1,
               (eachSeries msg' (S i) rest).2).
Proof.
unfold Dispatch.passes. cbn [Dispatch.eachSeries]. unfold iteratee.
destruct (falsy (COMMAND_TO_STRING (commandId cmd))); [discriminate|].
destruct (cmdHandlers _) as [handler|]; [|discriminate].
destruct (handler msg cmd) as [[r|]|e]; [| |discriminate].
- unfold continuation.
  destruct (status_eqb (status r) STATUS_MORE_PROCESSING_REQUIRED) eqn:Hmore.
  + rewrite orb_true_r. intros [= <-]. unfold and_then, call. simpl.
    destruct (Dispatch.eachSeries _ _ _ _ _) as [evs [| |e]]; reflexivity.
  + destruct (status_eqb (status r) STATUS_SUCCESS) eqn:Hok; [|discriminate].
    intros [= <-]. unfold and_then, call. simpl.
    destruct (Dispatch.eachSeries _ _ _ _ _) as [evs [| |e]]; reflexivity.
- intros [= <-]. unfold continuation, and_then, call. simpl.
  destruct (Dispatch.eachSeries _ _ _ _ _) as [evs [| |e]]; reflexivity.
Qed.

(** A prefix of commands handled without error: their events, then the
    series from the command that follows them. *)
Lemma eachSeries_pass_all (pre : list Command) :
  forall (msg msg1 : Message) (i : nat) (rest : list Command),
    pass_all msg i pre = Some msg1 ->
    eachSeries msg i (pre ++ rest)
    = match pre with
      | [] => eachSeries msg1 (i + length pre) rest
      | _ => in_domain (pass_events pre ++ (eachSeries msg1 (i + length pre) rest).1,
                        (eachSeries msg1 (i + length pre) rest).2)
      end.
Proof.
induction pre as [|cmd pre IH]; intros msg msg1 i rest Hpass.
- injection Hpass as <-. simpl. by rewrite Nat.add_0_r.
- cbn [Dispatch.pass_all] in Hpass.
  destruct (passes msg i cmd) as [msg'|] eqn:Hcmd; [|discriminate].
  cbn [app]. rewrite (eachSeries_pass _ _ _ _ _ Hcmd).
  rewrite (IH _ _ _ _ Hpass).
  replace (i + length (cmd :: pre))%nat with (S i + length pre)%nat by (simpl; lia).
  destruct pre as [|cmd' pre'].
  + reflexivity.
  + rewrite in_domain_nested. unfold pass_events.
    rewrite (bind_cons _ cmd). by rewrite <- app_assoc.
Qed.

(** The iteratee on a command the table does not know: [callback] is
    called once, with STATUS_SMB_BAD_COMMAND, and the final callback sends
    the response; then, for want of a [return], the function goes on.  With
    no handler module named "undefined", [command.toUpperCase()] raises a
    TypeError; with one, the handler runs, and the second call of
    [callback] that its continuation makes is refused inside its domain. *)
Lemma eachSeries_unknown (msg : Message) (i : nat) (cmd : Command) (rest : list Command) :
  COMMAND_TO_STRING (commandId cmd) = None ->
  eachSeries msg i (cmd :: rest)
  = match cmdHandlers "undefined" with
    | None =>
      ([EvCallback (commandId cmd) (Some STATUS_SMB_BAD_COMMAND);
        EvSend STATUS_SMB_BAD_COMMAND (reply_to msg STATUS_SMB_BAD_COMMAND)],
       Raised TypeError)
    | Some _ =>
      ([EvCallback (commandId cmd) (Some STATUS_SMB_BAD_COMMAND);
        EvSend STATUS_SMB_BAD_COMMAND (reply_to msg STATUS_SMB_BAD_COMMAND);
        EvHandler (commandId cmd); EvExit],
       Exited)
    end.
Proof.
intros Hcmd. cbn [Dispatch.eachSeries]. unfold iteratee.
rewrite Hcmd. cbn [falsy handler_key].
destruct (cmdHandlers "undefined") as [handler|]; [|reflexivity].
destruct (handler msg cmd) as [[r|]|e]; [|reflexivity..].
unfold continuation.
destruct (status_eqb (status r) STATUS_SUCCESS || _); reflexivity.
Qed.

Lemma pass_all_known (pre : list Command) :
  forall (msg msg1 : Message) (i : nat),
    pass_all msg i pre = Some msg1 ->
    Forall (fun c => COMMAND_TO_STRING (commandId c) <> None) pre.
Proof.
induction pre as [|cmd pre IH]; intros msg msg1 i Hpass; [constructor|].
cbn [Dispatch.pass_all] in Hpass.
destruct (passes msg i cmd) as [msg'|] eqn:Hcmd; [|discriminate].
constructor; [|eauto].
unfold Dispatch.passes in Hcmd. intros Hnone. rewrite Hnone in Hcmd. discriminate.
Qed.

Lemma callbacks_of_pass_events (id : Z) (pre : list Command) :
  Forall (fun c => commandId c <> id) pre ->
  callbacks_of id (pass_events pre) = [].
Proof.
induction 1 as [|cmd pre Hne _ IH]; [reflexivity|].
unfold pass_events, callbacks_of in *. rewrite bind_cons, omap_app, IH. simpl.
destruct (Z.eqb_spec (commandId cmd) id); [contradiction|reflexivity].
Qed.

(** Every event of a short list is one of the two named. *)
Ltac tail_events :=
  repeat (apply Forall_cons; split; [first [by left | by right]|]); apply Forall_nil_2.

(** C1, amended.  When the command list of a decoded message contains a
    command whose id has no entry in the command table and every command
    before it is handled without error, the dispatcher calls the
    continuation for that command exactly once, with
    STATUS_SMB_BAD_COMMAND; it calls no handler and no continuation for any
    later command; and it sends a response whose header status is
    STATUS_SMB_BAD_COMMAND. *)
Theorem unknown_command_is_answered_bad_command
    (msg msg1 : Message) (pre post : list Command) (cmd : Command) :
  commands msg = pre ++ cmd :: post ->
  COMMAND_TO_STRING (commandId cmd) = None ->
  pass_all msg 0 pre = Some msg1 ->
  exists (tail : list Event) (fin : End),
    _handleRequest COMMAND_TO_STRING cmdHandlers msg
    = (pass_events pre
       ++ [EvCallback (commandId cmd) (Some STATUS_SMB_BAD_COMMAND);
           EvSend STATUS_SMB_BAD_COMMAND (reply_to msg1 STATUS_SMB_BAD_COMMAND)]
       ++ tail, fin)
    /\ Forall (fun e => e = EvExit \/ e = EvHandler (commandId cmd)) tail
    /\ h_status (header (reply_to msg1 STATUS_SMB_BAD_COMMAND)) = STATUS_SMB_BAD_COMMAND
    /\ callbacks_of (commandId cmd)
         (_handleRequest COMMAND_TO_STRING cmdHandlers msg).1
       = [Some STATUS_SMB_BAD_COMMAND].
Proof.
intros Hcmds Hcmd Hpass. unfold _handleRequest. rewrite Hcmds.
rewrite (eachSeries_pass_all _ _ _ _ _ Hpass).
rewrite (eachSeries_unknown _ _ _ _ Hcmd).
assert (Hpre : callbacks_of (commandId cmd) (pass_events pre) = []).
{ apply callbacks_of_pass_events.
  eapply Forall_impl; [exact (pass_all_known _ _ _ _ Hpass)|].
  intros c Hc Heq. simpl in Hc. rewrite Heq in Hc. contradiction. }
assert (Hself : (commandId cmd =? commandId cmd) = true) by apply Z.eqb_refl.
destruct (cmdHandlers "undefined") as [handler|]; destruct pre as [|c pre].
- exists [EvHandler (commandId cmd); EvExit], Exited. cbn [app fst snd pass_events mbind].
  split; [reflexivity|]. split; [tail_events|]. split; [reflexivity|].
  unfold callbacks_of. simpl. by rewrite Hself.
- exists [EvHandler (commandId cmd); EvExit], Exited. unfold in_domain. cbn [fst snd].
  split; [reflexivity|]. split; [tail_events|]. split; [reflexivity|].
  unfold callbacks_of in *. rewrite !omap_app, Hpre. simpl. by rewrite Hself.
- exists [], (Raised TypeError). cbn [app fst snd pass_events mbind].
  split; [reflexivity|]. split; [apply Forall_nil_2|]. split; [reflexivity|].
  unfold callbacks_of. simpl. by rewrite Hself.
- exists [EvExit], Exited. unfold in_domain. cbn [fst snd].
  split; [by rewrite <- !app_assoc|]. split; [tail_events|].
  split; [reflexivity|].
  unfold callbacks_of in *. rewrite !omap_app, Hpre. simpl. by rewrite Hself.
Qed.

(** What the missing [return] costs: the run does not end normally.  The
    TypeError leaves [_handleRequest] when the unknown command is the
    first one, and ends the process, through the domain of the handler
    before it, when it is not. *)
Lemma unknown_command_ends_the_run
    (msg msg1 : Message) (pre post : list Command) (cmd : Command) :
  commands msg = pre ++ cmd :: post ->
  COMMAND_TO_STRING (commandId cmd) = None ->
  cmdHandlers "undefined" = None ->
  pass_all msg 0 pre = Some msg1 ->
  (_handleRequest COMMAND_TO_STRING cmdHandlers msg).2
  = match pre with [] => Raised TypeError | _ => Exited end.
Proof.
intros Hcmds Hcmd Hnone Hpass. unfold _handleRequest. rewrite Hcmds.
rewrite (eachSeries_pass_all _ _ _ _ _ Hpass).
rewrite (eachSeries_unknown _ _ _ _ Hcmd), Hnone.
destruct pre; reflexivity.
Qed.

End Dispatcher.

(** C1 as stated fails: in a chain CLOSE, 0xfe on a TID that does not
    resolve, CLOSE fails first; the response carries STATUS_SMB_BAD_TID,
    and the unknown command 0xfe is never looked at. *)
Lemma earlier_failure_preempts_bad_command :
  unknown_command ∈ commands close_then_unknown
  /\ sample_COMMAND_TO_STRING (commandId unknown_command) = None
  /\ _handleRequest sample_COMMAND_TO_STRING (sample_cmdHandlers no_tree_server)
       close_then_unknown
     = ([EvHandler 0x04; EvCallback 0x04 (Some STATUS_SMB_BAD_TID);
         EvSend STATUS_SMB_BAD_TID (reply_to close_then_unknown STATUS_SMB_BAD_TID)],
        Finished)
  /\ STATUS_SMB_BAD_TID <> STATUS_SMB_BAD_COMMAND.
Proof.
split; [apply list_elem_of_further, list_elem_of_here|].
split; [reflexivity|]. split; [reflexivity|discriminate].
Qed.

(** C1 on a chain CLOSE, 0xfe whose CLOSE succeeds. *)
Lemma unknown_command_witness :
  exists (tail : list Event) (fin : End),
    _handleRequest sample_COMMAND_TO_STRING (sample_cmdHandlers sample_server)
      close_then_unknown
    = (pass_events [close_command]
       ++ [EvCallback 0xfe (Some STATUS_SMB_BAD_COMMAND);
           EvSend STATUS_SMB_BAD_COMMAND
             (reply_to (stash close_then_unknown 0 close_command
                          (empty_result STATUS_SUCCESS)) STATUS_SMB_BAD_COMMAND)]
       ++ tail, fin)
    /\ Forall (fun e => e = EvExit \/ e = EvHandler 0xfe) tail
    /\ h_status (header (reply_to (stash close_then_unknown 0 close_command
                                     (empty_result STATUS_SUCCESS))
                           STATUS_SMB_BAD_COMMAND)) = STATUS_SMB_BAD_COMMAND
    /\ callbacks_of 0xfe
         (_handleRequest sample_COMMAND_TO_STRING (sample_cmdHandlers sample_server)
            close_then_unknown).1
       = [Some STATUS_SMB_BAD_COMMAND].
Proof.
apply (unknown_command_is_answered_bad_command
         sample_COMMAND_TO_STRING (sample_cmdHandlers sample_server)
         close_then_unknown
         (stash close_then_unknown 0 close_command (empty_result STATUS_SUCCESS))
         [close_command] [] unknown_command).
- reflexivity.
- reflexivity.
- reflexivity.
Defined.

End DispatchFacts.

Module SharelistFacts.
Import Status Sharelist.

(** Neither file binds the name [ntstatus]. *)
Lemma ntstatus_unbound :
  resolve file_js_scope ["cb"] "ntstatus" = Throw ReferenceError
  /\ resolve tree_js_scope ["cb"] "ntstatus" = Throw ReferenceError.
Proof. split; reflexivity. Qed.

(** C6 on the code.  Each of the eight mutation operations returns with
    the state of the backend as it was and one function deferred to the
    next tick; when that function runs it raises a ReferenceError
    ([ntstatus] is bound in neither file) before it calls anything: the
    callback of the operation is never called, with STATUS_NOT_SUPPORTED
    or otherwise. *)
Theorem mutation_never_calls_back (b : Backend) (m : Mutation) (cb : nat) :
  perform b m cb = (b, [], Some ReferenceError).
Proof. destruct m; reflexivity. Qed.

(** Had the files required ntstatus, the callback would be given an
    SMBError with STATUS_SMB_NO_SUPPORT, which is not STATUS_NOT_SUPPORTED. *)
Lemma mutation_status_if_required (cb : nat) :
  run_deferred (DeferNoSupport ("ntstatus" :: file_js_scope) cb)
  = Ok [CallBack cb (Some (mkSMBError (Some STATUS_SMB_NO_SUPPORT)))]
  /\ STATUS_SMB_NO_SUPPORT <> STATUS_NOT_SUPPORTED.
Proof. split; [reflexivity|discriminate]. Qed.

End SharelistFacts.

Module NtlmV1Facts.
Import Utils Ntlm NtlmSpec Ntlmv2 Ntlmv2Spec NtlmV1 NtlmV1Spec.

(** *** expandKey keeps the 56 key bits *)

(** The high bits of key byte [i], from cell [i]: the bits that cell shares
    with byte [i - 1] are shifted out. *)
Lemma collapse_high (i : Z) (p : bool) (a b : Z) :
  1 <= i <= 6 -> is_byte a -> is_byte b ->
  Z.land (Z.shiftl (Z.shiftr (with_parity p (spread i a b)) 1) (i + 1)) 0xff
  = Z.land b (256 - 2 ^ (i + 1)).
Proof.
intros Hi Ha Hb.
assert (Hc : i = 1 \/ i = 2 \/ i = 3 \/ i = 4 \/ i = 5 \/ i = 6) by lia.
apply Z.eqb_eq.
destruct p; destruct Hc as [->|[->|[->|[->|[->| ->]]]]];
  (revert a b Ha Hb; apply NtlmFacts.forall_bytes2; vm_compute; reflexivity).
Qed.

(** The low bits of key byte [i], from the top of cell [i + 1]. *)
Lemma collapse_low (i : Z) (p : bool) (b c : Z) :
  0 <= i <= 5 -> is_byte b -> is_byte c ->
  Z.shiftr (with_parity p (spread (i + 1) b c)) (7 - i) = Z.land b (2 ^ (i + 1) - 1).
Proof.
intros Hi Hb Hc.
assert (Hd : i = 0 \/ i = 1 \/ i = 2 \/ i = 3 \/ i = 4 \/ i = 5) by lia.
apply Z.eqb_eq.
destruct p; destruct Hd as [->|[->|[->|[->|[->| ->]]]]];
  (revert b c Hb Hc; apply NtlmFacts.forall_bytes2; vm_compute; reflexivity).
Qed.

Lemma collapse_high_first (a : Z) :
  is_byte a ->
  Z.land (Z.shiftl (Z.shiftr (with_parity false (Z.land a 0xfe)) 1) (0 + 1)) 0xff
  = Z.land a (256 - 2 ^ (0 + 1)).
Proof.
intros Ha. apply Z.eqb_eq. revert a Ha. apply NtlmFacts.forall_bytes1. vm_compute. reflexivity.
Qed.

Lemma collapse_low_last (b : Z) :
  is_byte b ->
  Z.shiftr (with_parity true (Z.land (Z.shiftl b 1) 0xff)) (7 - 6)
  = Z.land b (2 ^ (6 + 1) - 1).
Proof.
intros Hb. apply Z.eqb_eq. revert b Hb. apply NtlmFacts.forall_bytes1. vm_compute. reflexivity.
Qed.

Lemma high_low_join (i : Z) (b : Z) :
  0 <= i <= 6 -> is_byte b ->
  Z.lor (Z.land b (256 - 2 ^ (i + 1))) (Z.land b (2 ^ (i + 1) - 1)) = b.
Proof.
intros Hi Hb.
assert (Hd : i = 0 \/ i = 1 \/ i = 2 \/ i = 3 \/ i = 4 \/ i = 5 \/ i = 6) by lia.
apply Z.eqb_eq.
destruct Hd as [->|[->|[->|[->|[->|[->| ->]]]]]];
  (revert b Hb; apply NtlmFacts.forall_bytes1; vm_compute; reflexivity).
Qed.

Lemma collapse_cell_first (p : bool) (a b : Z) :
  is_byte a -> is_byte b ->
  collapse_cell 0 (with_parity false (Z.land a 0xfe)) (with_parity p (spread (0 + 1) a b)) = a.
Proof.
intros Ha Hb. unfold collapse_cell.
rewrite collapse_high_first, (collapse_low 0) by (assumption || lia).
apply high_low_join; [lia|assumption].
Qed.

Lemma collapse_cell_mid (i : Z) (p q : bool) (a b c : Z) :
  1 <= i <= 5 -> is_byte a -> is_byte b -> is_byte c ->
  collapse_cell i (with_parity p (spread i a b)) (with_parity q (spread (i + 1) b c)) = b.
Proof.
intros Hi Ha Hb Hc. unfold collapse_cell.
rewrite collapse_high, collapse_low by (assumption || lia).
apply high_low_join; [lia|assumption].
Qed.

Lemma collapse_cell_last (p : bool) (a b : Z) :
  is_byte a -> is_byte b ->
  collapse_cell 6 (with_parity p (spread 6 a b))
    (with_parity true (Z.land (Z.shiftl b 1) 0xff)) = b.
Proof.
intros Ha Hb. unfold collapse_cell.
rewrite collapse_high, collapse_low_last by (assumption || lia).
apply high_low_join; [lia|assumption].
Qed.

Lemma collapseKey_expandKey (key56 : bytes) :
  length key56 = 7%nat -> Forall is_byte key56 -> collapseKey (expandKey key56) = key56.
Proof.
intros Hlen Hb. rewrite (NtlmFacts.expandKey_cells key56 Hlen Hb).
do 8 (destruct key56 as [|? key56]; try discriminate Hlen).
clear Hlen.
repeat match goal with
       | H : Forall _ (_ :: _) |- _ => apply Forall_cons in H; destruct H as [? H]
       end.
unfold collapseKey, expandKey_spec.
cbv [seq fmap list_fmap cell lookup list_lookup default from_option id Z.of_nat
     Pos.of_succ_nat Pos.succ].
pose proof (collapse_cell_first true z z0) as E0; change (0 + 1) with 1 in E0.
pose proof (collapse_cell_mid 1 true false z z0 z1) as E1; change (1 + 1) with 2 in E1.
pose proof (collapse_cell_mid 2 false true z0 z1 z2) as E2; change (2 + 1) with 3 in E2.
pose proof (collapse_cell_mid 3 true false z1 z2 z3) as E3; change (3 + 1) with 4 in E3.
pose proof (collapse_cell_mid 4 false true z2 z3 z4) as E4; change (4 + 1) with 5 in E4.
pose proof (collapse_cell_mid 5 true false z3 z4 z5) as E5; change (5 + 1) with 6 in E5.
pose proof (collapse_cell_last false z4 z5) as E6.
rewrite E0, E1, E2, E3, E4, E5, E6 by (assumption || lia).
reflexivity.
Qed.

(** X1.  For every 7-byte key, the 56 key bits can be read back from the 8
    bytes [expandKey] returns: the bit each parity position overwrites is
    also held by the next cell.  So two different keys never expand to the
    same DES key. *)
Theorem expandKey_keeps_every_key_bit (key56 other : bytes) :
  length key56 = 7%nat -> Forall is_byte key56 ->
  length other = 7%nat -> Forall is_byte other ->
  collapseKey (expandKey key56) = key56
  /\ (expandKey other = expandKey key56 -> other = key56).
Proof.
intros Hlen Hb Hlen' Hb'. split; [by apply collapseKey_expandKey|].
intros Heq. rewrite <- (collapseKey_expandKey other), <- (collapseKey_expandKey key56) by done.
by rewrite Heq.
Qed.

Lemma expandKey_keeps_every_key_bit_witness :
  collapseKey (expandKey [0x4b; 0x47; 0x53; 0x21; 0x40; 0x23; 0x24])
  = [0x4b; 0x47; 0x53; 0x21; 0x40; 0x23; 0x24]
  /\ (expandKey [0x4b; 0x47; 0x53; 0x21; 0x40; 0x23; 0x25]
      = expandKey [0x4b; 0x47; 0x53; 0x21; 0x40; 0x23; 0x24] ->
      [0x4b; 0x47; 0x53; 0x21; 0x40; 0x23; 0x25] = [0x4b; 0x47; 0x53; 0x21; 0x40; 0x23; 0x24]).
Proof.
apply (expandKey_keeps_every_key_bit
         [0x4b; 0x47; 0x53; 0x21; 0x40; 0x23; 0x24] [0x4b; 0x47; 0x53; 0x21; 0x40; 0x23; 0x25]).
- reflexivity.
- repeat constructor; unfold is_byte; lia.
- reflexivity.
- repeat constructor; unfold is_byte; lia.
Defined.

(** *** expandKey on keys that are not 7 bytes long *)

Lemma cell_key7 (key : bytes) (i : nat) : (i < 7)%nat -> cell (key7 key) i = cell key i.
Proof.
intros Hi. unfold cell, key7. rewrite lookup_take_lt by done.
destruct (decide (i < length key)%nat) as [Hlt|Hge].
- by rewrite lookup_app_l.
- rewrite lookup_app_r by lia. rewrite (lookup_ge_None_2 key) by lia.
  rewrite lookup_replicate_2 by lia. reflexivity.
Qed.

Lemma expandKey_key7 (key : bytes) : expandKey key = expandKey (key7 key).
Proof. unfold expandKey. rewrite !cell_key7 by lia. reflexivity. Qed.

(** X2.  [expandKey] reads the cells 0 to 6 of its argument and nothing
    else: bytes beyond the seventh are ignored, and a key shorter than 7
    bytes is used as if padded with zero bytes.  The result has 8 bytes
    whatever the key. *)
Theorem expandKey_reads_seven_cells (key : bytes) :
  expandKey key = expandKey (key7 key) /\ length (expandKey key) = 8%nat.
Proof.
split; [apply expandKey_key7|].
unfold expandKey.
generalize (cell key 0), (cell key 1), (cell key 2), (cell key 3), (cell key 4),
  (cell key 5), (cell key 6).
intros c0 c1 c2 c3 c4 c5 c6.
cbv [put_cell cell Z.leb Z.compare Z.to_nat id
  replicate list_insert list_lookup lookup default from_option alter list_alter
  Pos.to_nat Pos.iter_op Nat.add insert length].
reflexivity.
Qed.

Lemma take_pad (l : bytes) (n m : nat) :
  (n <= m)%nat -> take n (l ++ replicate m 0) = take n (l ++ replicate n 0).
Proof.
intros Hnm. destruct (decide (length l <= n)%nat).
- rewrite !take_app_ge by lia. rewrite !take_replicate. f_equal. f_equal. lia.
- by rewrite !take_app_le by lia.
Qed.

(** *** The key buffers of the LM hash and of the responses *)

Lemma length_new_Buffer (mem : bytes) (n : nat) : length (new_Buffer mem n) = n.
Proof. unfold new_Buffer. rewrite length_take, length_app, length_replicate. lia. Qed.

(** The 14-byte key buffer of [createLMHash]: the password bytes cut or
    zero-padded to 14. *)
Lemma keyBuf_padded (mem p : bytes) :
  fill (copy p (new_Buffer mem 14)) 0x0 (length p) = take 14 (p ++ replicate 14 0).
Proof.
unfold fill, copy. rewrite length_new_Buffer.
destruct (decide (length p <= 14)%nat) as [Hle|Hgt].
- rewrite (take_ge p) by lia.
  rewrite length_app, length_drop, length_new_Buffer.
  rewrite take_app_length.
  replace (length p + (14 - length p) - length p)%nat with (14 - length p)%nat by lia.
  rewrite take_app_ge by lia. rewrite take_replicate.
  f_equal. f_equal. lia.
- rewrite (drop_ge (new_Buffer mem 14)) by (rewrite length_new_Buffer; lia).
  rewrite app_nil_r. rewrite take_take. rewrite length_take.
  replace (length p `min` 14)%nat with 14%nat by lia.
  replace (14 `min` length p - length p)%nat with 0%nat by lia.
  replace (14 `min` 14)%nat with 14%nat by lia.
  cbn [replicate]. rewrite app_nil_r.
  replace (length p `min` 14)%nat with 14%nat by lia.
  by rewrite take_app_le by lia.
Qed.

(** The 21-byte key buffer of the responses, for a hash of 16 bytes or
    more: its first 16 bytes and five zero bytes. *)
Lemma hash_padded (mem h : bytes) :
  (16 <= length h)%nat ->
  fill (copy h (new_Buffer mem 21)) 0x0 16 = take 16 h ++ replicate 5 0.
Proof.
intros Hlen. unfold fill, copy. rewrite length_new_Buffer.
rewrite take_app_le by (rewrite length_take; lia).
rewrite take_take. replace (16 `min` 21)%nat with 16%nat by lia.
f_equal. rewrite length_app, length_take, length_drop, length_new_Buffer.
f_equal. lia.
Qed.

Lemma slice_take (buf : bytes) (n : nat) :
  (n <= length buf)%nat -> slice buf 0 (Z.of_nat n) = take n buf.
Proof.
intros Hn. unfold slice, clamp_index.
destruct (Z.ltb_spec 0 0); [lia|]. destruct (Z.ltb_spec (Z.of_nat n) 0); [lia|].
rewrite Z.min_l by lia. rewrite Z.min_l by lia.
change (Z.to_nat 0) with 0%nat. rewrite drop_0. f_equal. lia.
Qed.

Lemma slice_drop_take (buf : bytes) (n m : nat) :
  (n <= m)%nat -> (m <= length buf)%nat ->
  slice buf (Z.of_nat n) (Z.of_nat m) = take (m - n) (drop n buf).
Proof.
intros Hn Hm. unfold slice, clamp_index.
destruct (Z.ltb_spec (Z.of_nat n) 0); [lia|]. destruct (Z.ltb_spec (Z.of_nat m) 0); [lia|].
rewrite !Z.min_l by lia. rewrite Nat2Z.id. f_equal. lia.
Qed.

Lemma slice_from_drop (buf : bytes) (n : nat) :
  (n <= length buf)%nat -> slice_from buf (Z.of_nat n) = drop n buf.
Proof.
intros Hn. unfold slice_from. rewrite slice_drop_take by lia.
rewrite take_ge; [done|]. rewrite length_drop. lia.
Qed.

Section Crypto.

Variable des_ecb : bytes -> bytes -> bytes.
Variable toUpperCase : jsstring -> jsstring.

(** The two DES keys of the LM hash: the password bytes 0..6 and 7..13,
    each zero-padded. *)
Lemma createLMHash_keys (mem : bytes) (pwd : jsstring) :
  let p := ascii (toUpperCase (take 14 pwd)) in
  createLMHash des_ecb toUpperCase mem pwd
  = des_ecb (expandKey (key7 p)) LM_MAGIC
    ++ des_ecb (expandKey (key7 (drop 7 p))) LM_MAGIC.
Proof.
intros p. unfold createLMHash. fold p. rewrite keyBuf_padded.
assert (Hlen : length (take 14 (p ++ replicate 14 0)) = 14%nat).
{ rewrite length_take, length_app, length_replicate. lia. }
change 7 with (Z.of_nat 7).
rewrite slice_take, slice_from_drop by lia.
f_equal; f_equal; f_equal.
- rewrite take_take. change (7 `min` 14)%nat with 7%nat. unfold key7. apply take_pad. lia.
- change 14%nat with (7 + 7)%nat at 1. rewrite <- take_drop_commute.
  rewrite drop_app, drop_replicate. unfold key7. apply take_pad. lia.
Qed.

(** X3.  The LM hash never depends on what the memory of the key buffer
    held before: [new Buffer(14)] is uninitialised, and the copy of the
    password followed by the zero fill overwrites all of it, whatever the
    length of the password. *)
Theorem createLMHash_ignores_memory (mem mem' : bytes) (pwd : jsstring) :
  createLMHash des_ecb toUpperCase mem pwd = createLMHash des_ecb toUpperCase mem' pwd.
Proof. by rewrite !createLMHash_keys. Qed.

(** X4.  For a password of at most 7 characters (after the cut to 14 and
    the upper-casing), the second half of the LM hash is the encryption of
    the magic under the all-zero key: it is the same for all such
    passwords, and the first half is keyed by the zero-padded password. *)
Theorem createLMHash_short_password (mem : bytes) (pwd : jsstring) :
  (length (toUpperCase (take 14 pwd)) <= 7)%nat ->
  createLMHash des_ecb toUpperCase mem pwd
  = des_ecb (expandKey (key7 (ascii (toUpperCase (take 14 pwd))))) LM_MAGIC
    ++ des_ecb (expandKey (replicate 7 0)) LM_MAGIC.
Proof.
intros Hlen. rewrite createLMHash_keys. cbv zeta. f_equal. f_equal. f_equal.
rewrite drop_ge by (unfold ascii; rewrite length_fmap; lia).
reflexivity.
Qed.

(** The three DES keys of a response. *)
Lemma calculateLMResponse_keys (mem hash challenge : bytes) :
  (16 <= length hash)%nat ->
  calculateLMResponse des_ecb mem hash challenge
  = des_ecb (expandKey (take 7 hash)) challenge
    ++ des_ecb (expandKey (take 7 (drop 7 hash))) challenge
    ++ des_ecb (expandKey (take 2 (drop 14 hash) ++ replicate 5 0)) challenge.
Proof.
intros Hlen. unfold calculateLMResponse. rewrite hash_padded by done.
assert (Hl : length (take 16 hash ++ replicate 5 0) = 21%nat).
{ rewrite length_app, length_take, length_replicate. lia. }
change 7 with (Z.of_nat 7) at 1.
rewrite slice_take by lia.
change (slice (take 16 hash ++ replicate 5 0) 7 14)
  with (slice (take 16 hash ++ replicate 5 0) (Z.of_nat 7) (Z.of_nat 14)).
rewrite slice_drop_take by lia.
change 14 with (Z.of_nat 14). rewrite slice_from_drop by lia.
f_equal; [|f_equal]; f_equal; f_equal.
- rewrite take_app_le by (rewrite length_take; lia).
  rewrite take_take. by replace (7 `min` 16)%nat with 7%nat by lia.
- rewrite drop_app_le by (rewrite length_take; lia).
  rewrite take_app_le by (rewrite length_drop, length_take; lia).
  change (14 - 7)%nat with 7%nat. change 16%nat with (7 + 9)%nat.
  rewrite <- take_drop_commute, take_take. reflexivity.
- rewrite drop_app_le by (rewrite length_take; lia).
  f_equal. change 16%nat with (14 + 2)%nat. by rewrite <- take_drop_commute.
Qed.

Lemma calculateNTLMResponse_same (mem hash challenge : bytes) :
  calculateNTLMResponse des_ecb mem hash challenge
  = calculateLMResponse des_ecb mem hash challenge.
Proof. reflexivity. Qed.

(** X5.  For a hash of 16 bytes or more, the LM and the NTLM response are
    three DES encryptions of the challenge: under the hash bytes 0..6,
    under the bytes 7..13, and under a key that holds only the bytes 14
    and 15 followed by five zero bytes.  Bytes of the hash beyond the
    sixteenth and the uninitialised memory of the 21-byte buffer never
    show. *)
Theorem response_third_key_has_two_hash_bytes (mem hash challenge : bytes) :
  (16 <= length hash)%nat ->
  calculateLMResponse des_ecb mem hash challenge
  = des_ecb (expandKey (take 7 hash)) challenge
    ++ des_ecb (expandKey (take 7 (drop 7 hash))) challenge
    ++ des_ecb (expandKey (take 2 (drop 14 hash) ++ replicate 5 0)) challenge
  /\ calculateNTLMResponse des_ecb mem hash challenge
     = calculateLMResponse des_ecb mem hash challenge.
Proof. intros Hlen. split; [by apply calculateLMResponse_keys|reflexivity]. Qed.

(** X6.  [validateLMResponse] and [validateNTLMResponse] accept the
    response that [calculateLMResponse] and [calculateNTLMResponse] compute
    from the same hash (of 16 bytes or more) and challenge, when DES
    returns one block of 8 bytes for the challenge. *)
Theorem validateLMResponse_accepts (mem mem' hash challenge : bytes) :
  (16 <= length hash)%nat ->
  (forall key, length (des_ecb key challenge) = 8%nat) ->
  validateLMResponse des_ecb mem'
    (calculateLMResponse des_ecb mem hash challenge) hash challenge = true
  /\ validateNTLMResponse des_ecb mem'
       (calculateNTLMResponse des_ecb mem hash challenge) hash challenge = true.
Proof.
intros Hlen Hdes.
assert (H : validateLMResponse des_ecb mem'
              (calculateLMResponse des_ecb mem hash challenge) hash challenge = true).
{ unfold validateLMResponse. rewrite !calculateLMResponse_keys by done.
  rewrite !length_app, !Hdes. cbn [negb Z.eqb Nat.add Z.of_nat Pos.of_succ_nat Pos.succ Pos.eqb].
  unfold bufferEquals. by apply bool_decide_eq_true_2. }
split; [exact H|].
unfold validateNTLMResponse. rewrite !calculateNTLMResponse_same. exact H.
Qed.

End Crypto.

Lemma createLMHash_short_password_witness :
  createLMHash sample_des (fun s => s) [9; 9; 9] [0x41; 0x42]
  = sample_des (expandKey (key7 (ascii [0x41; 0x42]))) LM_MAGIC
    ++ sample_des (expandKey (replicate 7 0)) LM_MAGIC.
Proof.
apply (createLMHash_short_password sample_des (fun s => s) [9; 9; 9] [0x41; 0x42]).
simpl. lia.
Defined.

Lemma response_third_key_witness :
  calculateLMResponse sample_des [9; 9; 9] sample_hash sample_challenge
  = sample_des (expandKey (take 7 sample_hash)) sample_challenge
    ++ sample_des (expandKey (take 7 (drop 7 sample_hash))) sample_challenge
    ++ sample_des (expandKey (take 2 (drop 14 sample_hash) ++ replicate 5 0)) sample_challenge
  /\ calculateNTLMResponse sample_des [9; 9; 9] sample_hash sample_challenge
     = calculateLMResponse sample_des [9; 9; 9] sample_hash sample_challenge.
Proof.
apply (response_third_key_has_two_hash_bytes sample_des [9; 9; 9] sample_hash sample_challenge).
simpl. lia.
Defined.

Lemma validateLMResponse_accepts_witness :
  validateLMResponse sample_des []
    (calculateLMResponse sample_des [9; 9; 9] sample_hash sample_challenge)
    sample_hash sample_challenge = true
  /\ validateNTLMResponse sample_des []
       (calculateNTLMResponse sample_des [9; 9; 9] sample_hash sample_challenge)
       sample_hash sample_challenge = true.
Proof.
apply (validateLMResponse_accepts sample_des [9; 9; 9] [] sample_hash sample_challenge).
- simpl. lia.
- intros key. reflexivity.
Defined.

(** *** LMv2 and NTLMv2 *)

Section Crypto2.

Variable hmac_md5 : bytes -> bytes -> vec Z 16.
Variable toUpperCase : jsstring -> jsstring.
Variables (ntlmHash : bytes) (userName domainName : jsstring) (challenge : bytes).

Abbreviation hash2 := (createNTLM2Hash hmac_md5 toUpperCase ntlmHash userName domainName).

Lemma calculateLM2Response_length (clientChallenge : bytes) :
  length (calculateLM2Response hmac_md5 hash2 clientChallenge challenge)
  = (16 + length clientChallenge)%nat.
Proof. unfold calculateLM2Response. by rewrite length_app, length_vec_to_list. Qed.

(** X7.  [validateLMv2Response] accepts the response
    [calculateLM2Response] computes for the same hash, user, domain and
    challenge exactly when the client challenge has 8 bytes: with any
    other length the response is not 24 bytes long and is refused. *)
Theorem validateLMv2Response_accepts_iff (clientChallenge : bytes) :
  validateLMv2Response hmac_md5 toUpperCase
    (calculateLM2Response hmac_md5 hash2 clientChallenge challenge)
    ntlmHash userName domainName challenge = true
  <-> length clientChallenge = 8%nat.
Proof.
unfold validateLMv2Response. rewrite calculateLM2Response_length.
destruct (Z.eqb_spec (Z.of_nat (16 + length clientChallenge)) 24) as [Heq|Hne]; cbn [negb].
- split; [lia|]. intros _.
  unfold calculateLM2Response at 2.
  replace 16 with (Z.of_nat (length (vec_to_list
    (hmac_md5 hash2 (challenge ++ clientChallenge))))) by (by rewrite length_vec_to_list).
  rewrite Ntlmv2Facts.slice_from_app.
  unfold bufferEquals. by apply bool_decide_eq_true_2.
- split; [discriminate|lia].
Qed.

(** X8.  A response whose HMAC (one of its first 128 bits) has one bit
    flipped is refused by [validateLMv2Response]. *)
Theorem validateLMv2Response_rejects_hmac_bit (clientChallenge : bytes) (i : nat) :
  length clientChallenge = 8%nat -> (i < 128)%nat ->
  validateLMv2Response hmac_md5 toUpperCase
    (flip_bit (calculateLM2Response hmac_md5 hash2 clientChallenge challenge) i)
    ntlmHash userName domainName challenge = false.
Proof.
intros Hcc Hi. unfold validateLMv2Response.
rewrite Ntlmv2Facts.flip_bit_length, calculateLM2Response_length, Hcc.
cbn [negb Z.eqb Nat.add Z.of_nat Pos.of_succ_nat Pos.succ Pos.eqb].
unfold calculateLM2Response at 2 3.
set (h := vec_to_list (hmac_md5 hash2 (challenge ++ clientChallenge))).
assert (Hh : length h = 16%nat) by apply length_vec_to_list.
rewrite Ntlmv2Facts.flip_bit_app_l by lia.
replace 16 with (Z.of_nat (length (flip_bit h i)))
  by (by rewrite Ntlmv2Facts.flip_bit_length, Hh).
rewrite Ntlmv2Facts.slice_from_app.
unfold calculateLM2Response. fold h.
unfold bufferEquals. apply bool_decide_eq_false_2.
intros Heq. apply app_inv_tail in Heq.
symmetry in Heq. revert Heq. apply Ntlmv2Facts.flip_bit_neq. lia.
Qed.

(** X9.  [validateNTLMv2Response] accepts the response
    [calculateNTLM2Response] computes from a well-formed blob (36 bytes or
    more, the signature 0x01010000, a terminated attribute list). *)
Theorem validateNTLMv2Response_accepts_computed (blob : bytes) :
  Forall is_byte blob -> well_formed_blob blob ->
  validateNTLMv2Response hmac_md5 toUpperCase
    (calculateNTLM2Response hmac_md5 hash2 blob challenge)
    ntlmHash userName domainName challenge = Ok true.
Proof. apply Ntlmv2Facts.validateNTLMv2Response_accepts. Qed.

(** X10.  Whatever the response, [validateNTLMv2Response] returns a
    boolean or raises the RangeError of a read beyond the blob, and that
    only when the attribute list of the blob is not terminated: the [null]
    that [parseNTLMv2Blob] returns for a short blob is never dereferenced,
    and a response of fewer than 52 bytes is refused before it is
    parsed. *)
Theorem validateNTLMv2Response_raises_only_RangeError (response : bytes) :
  Forall is_byte response ->
  (Z.of_nat (length response) < 52 ->
   validateNTLMv2Response hmac_md5 toUpperCase response
     ntlmHash userName domainName challenge = Ok false)
  /\ (forall e : exn,
        validateNTLMv2Response hmac_md5 toUpperCase response
          ntlmHash userName domainName challenge = Throw e ->
        e = RangeError /\ ~ eol_terminated (slice_from response 16) INFO_OFFSET).
Proof.
intros Hb. unfold validateNTLMv2Response. split.
- intros Hlen. by rewrite (proj2 (Z.ltb_lt _ _)) by (unfold MIN_BLOB_SIZE; lia).
- intros e. destruct (Z.ltb_spec (Z.of_nat (length response)) (16 + MIN_BLOB_SIZE)) as [|Hlen];
    [discriminate|].
  unfold MIN_BLOB_SIZE in Hlen.
  assert (Hsl : slice_from response 16 = drop 16 response).
  { change 16 with (Z.of_nat 16). apply slice_from_drop. lia. }
  rewrite Hsl.
  destruct (Ntlmv2Facts.parseNTLMv2Blob_cases (drop 16 response)) as [[_ (obj & -> & _)]|[Hnt ->]].
  + by apply Forall_drop.
  + rewrite length_drop. unfold MIN_BLOB_SIZE. lia.
  + cbn [mbind result_bind]. by destruct (negb _).
  + cbn [mbind result_bind]. intros [= <-]. done.
Qed.

End Crypto2.

Lemma validateLMv2Response_rejects_hmac_bit_witness :
  validateLMv2Response sample_hmac (fun s => s)
    (flip_bit (calculateLM2Response sample_hmac
                 (createNTLM2Hash sample_hmac (fun s => s) sample_hash [0x55] [0x44])
                 sample_client_challenge sample_challenge) 5)
    sample_hash [0x55] [0x44] sample_challenge = false.
Proof.
apply (validateLMv2Response_rejects_hmac_bit sample_hmac (fun s => s)
         sample_hash [0x55] [0x44] sample_challenge sample_client_challenge 5).
- reflexivity.
- lia.
Defined.

Lemma validateNTLMv2Response_accepts_computed_witness :
  validateNTLMv2Response sample_hmac (fun s => s)
    (calculateNTLM2Response sample_hmac
       (createNTLM2Hash sample_hmac (fun s => s) sample_hash [0x55] [0x44])
       sample_blob sample_challenge)
    sample_hash [0x55] [0x44] sample_challenge = Ok true.
Proof.
apply (validateNTLMv2Response_accepts_computed sample_hmac (fun s => s)
         sample_hash [0x55] [0x44] sample_challenge sample_blob).
- repeat constructor; unfold is_byte; lia.
- unfold well_formed_blob. split; [vm_compute; discriminate|]. split; [reflexivity|].
  eapply eol_later; [reflexivity|discriminate|reflexivity|].
  apply eol_here. reflexivity.
Defined.

Lemma validateNTLMv2Response_raises_only_RangeError_witness :
  (Z.of_nat (length [0x01; 0x02]) < 52 ->
   validateNTLMv2Response sample_hmac (fun s => s) [0x01; 0x02]
     sample_hash [0x55] [0x44] sample_challenge = Ok false)
  /\ (forall e : exn,
        validateNTLMv2Response sample_hmac (fun s => s) [0x01; 0x02]
          sample_hash [0x55] [0x44] sample_challenge = Throw e ->
        e = RangeError /\ ~ eol_terminated (slice_from [0x01; 0x02] 16) INFO_OFFSET).
Proof.
apply (validateNTLMv2Response_raises_only_RangeError sample_hmac (fun s => s)
         sample_hash [0x55] [0x44] sample_challenge [0x01; 0x02]).
repeat constructor; unfold is_byte; lia.
Defined.

End NtlmV1Facts.

Module Ntlmv2BlobFacts.
Import Utils Ntlmv2 Ntlmv2Spec Codec Ntlmv2BlobSpec.

Lemma cell_app_r (pre l : bytes) (i : nat) : cell (pre ++ l) (length pre + i) = cell l i.
Proof.
unfold cell. rewrite lookup_app_r by lia.
by replace (length pre + i - length pre)%nat with i by lia.
Qed.

Lemma cell_app_l (l post : bytes) (i : nat) :
  (i < length l)%nat -> cell (l ++ post) i = cell l i.
Proof. intros Hi. unfold cell. by rewrite lookup_app_l. Qed.

Lemma readUInt16LE_app (pre l : bytes) (k : Z) :
  0 <= k -> readUInt16LE (pre ++ l) (Z.of_nat (length pre) + k) = readUInt16LE l k.
Proof.
intros Hk. unfold readUInt16LE, in_range. rewrite length_app.
replace (Z.to_nat (Z.of_nat (length pre) + k)) with (length pre + Z.to_nat k)%nat by lia.
replace (length pre + Z.to_nat k + 1)%nat with (length pre + (Z.to_nat k + 1))%nat by lia.
rewrite !cell_app_r.
destruct (Z.leb_spec 0 (Z.of_nat (length pre) + k)); [|lia].
destruct (Z.leb_spec 0 k); [|lia]. cbn [andb].
destruct (Z.leb_spec (Z.of_nat (length pre) + k + 2) (Z.of_nat (length pre + length l)));
  destruct (Z.leb_spec (k + 2) (Z.of_nat (length l))); try lia; reflexivity.
Qed.

Lemma readUInt32LE_app (pre l : bytes) (k : Z) :
  0 <= k -> readUInt32LE (pre ++ l) (Z.of_nat (length pre) + k) = readUInt32LE l k.
Proof.
intros Hk. unfold readUInt32LE, in_range. rewrite length_app.
replace (Z.to_nat (Z.of_nat (length pre) + k)) with (length pre + Z.to_nat k)%nat by lia.
replace (length pre + Z.to_nat k + 1)%nat with (length pre + (Z.to_nat k + 1))%nat by lia.
replace (length pre + Z.to_nat k + 2)%nat with (length pre + (Z.to_nat k + 2))%nat by lia.
replace (length pre + Z.to_nat k + 3)%nat with (length pre + (Z.to_nat k + 3))%nat by lia.
rewrite !cell_app_r.
destruct (Z.leb_spec 0 (Z.of_nat (length pre) + k)); [|lia].
destruct (Z.leb_spec 0 k); [|lia]. cbn [andb].
destruct (Z.leb_spec (Z.of_nat (length pre) + k + 4) (Z.of_nat (length pre + length l)));
  destruct (Z.leb_spec (k + 4) (Z.of_nat (length l))); try lia; reflexivity.
Qed.

Lemma readUInt32LE_app_l (l post : bytes) (k : Z) :
  0 <= k -> k + 4 <= Z.of_nat (length l) ->
  readUInt32LE (l ++ post) k = readUInt32LE l k.
Proof.
intros Hk Hl. unfold readUInt32LE, in_range. rewrite length_app.
rewrite !cell_app_l by lia.
destruct (Z.leb_spec 0 k); [|lia]. cbn [andb].
destruct (Z.leb_spec (k + 4) (Z.of_nat (length l + length post)));
  destruct (Z.leb_spec (k + 4) (Z.of_nat (length l))); try lia; reflexivity.
Qed.

(** A 16-bit field read back where it was written. *)
Lemma readUInt16LE_word16le (pre post : bytes) (v : Z) :
  0 <= v < 65536 ->
  readUInt16LE (pre ++ word16le v ++ post) (Z.of_nat (length pre)) = Ok v.
Proof.
intros Hv. rewrite <- (Z.add_0_r (Z.of_nat (length pre))).
rewrite readUInt16LE_app by lia.
unfold readUInt16LE, in_range, word16le. cbn [word_le app length].
destruct (Z.leb_spec (0 + 2) (Z.of_nat (S (S (length post))))); [|lia].
cbn [Z.leb Z.compare andb]. change (Z.to_nat 0) with 0%nat.
cbn [Nat.add cell lookup list_lookup default from_option].
f_equal. unfold id. Z.div_mod_to_equations. lia.
Qed.

Lemma slice_app_mid (pre x post : bytes) (a b : Z) :
  a = Z.of_nat (length pre) -> b = a + Z.of_nat (length x) ->
  slice (pre ++ x ++ post) a b = x.
Proof.
intros -> ->. unfold slice, clamp_index. rewrite !length_app.
destruct (Z.ltb_spec (Z.of_nat (length pre)) 0); [lia|].
destruct (Z.ltb_spec (Z.of_nat (length pre) + Z.of_nat (length x)) 0); [lia|].
rewrite !Z.min_l by lia. rewrite Nat2Z.id, drop_app_length.
replace (Z.to_nat (Z.of_nat (length pre) + Z.of_nat (length x) - Z.of_nat (length pre)))
  with (length x) by lia.
by rewrite take_app_length.
Qed.

Lemma length_encode_entry (e : Z * bytes) :
  length (encode_entry e) = (4 + length e.2)%nat.
Proof. unfold encode_entry. rewrite !length_app. reflexivity. Qed.

(** The type field at the head of what is left of the list. *)
Lemma read_next_type (entries : list (Z * bytes)) (pre post : bytes) :
  Forall valid_entry entries ->
  readUInt16LE (pre ++ (entries ≫= encode_entry) ++ [0; 0] ++ post) (Z.of_nat (length pre))
  = Ok (next_type entries).
Proof.
intros Hv. destruct entries as [|e es].
- apply (readUInt16LE_word16le pre post 0). lia.
- apply Forall_cons in Hv as [[Ht _] _].
  rewrite bind_cons. unfold encode_entry at 1. rewrite <- !app_assoc.
  cbn [next_type]. apply readUInt16LE_word16le. lia.
Qed.

(** The loop over a well-formed list: it stops after the terminator's type
    field, with every attribute stored. *)
Lemma parse_info_entries (post : bytes) (entries : list (Z * bytes)) :
  forall (pre : bytes) (info : gmap Z bytes) (fuel : nat),
    (length entries <= fuel)%nat ->
    Forall valid_entry entries ->
    parse_info fuel (pre ++ (entries ≫= encode_entry) ++ [0; 0] ++ post)
      (Z.of_nat (length pre) + 2) (next_type entries) info
    = Some (Ok (Z.of_nat (length pre) + Z.of_nat (length (entries ≫= encode_entry)) + 2,
                foldl (fun m e => <[e.1 := e.2]> m) info entries)).
Proof.
induction entries as [|e es IH]; intros pre info fuel Hfuel Hv.
- destruct fuel; cbn; do 3 f_equal; lia.
- apply Forall_cons in Hv as [[Ht Hl] Hv].
  destruct fuel as [|fuel]; [cbn in Hfuel; lia|].
  cbn [parse_info next_type].
  destruct (Z.eqb_spec e.1 EOL) as [Heq|_]; [unfold EOL in Heq; lia|].
  rewrite bind_cons.
  assert (Hlen : readUInt16LE (pre ++ (encode_entry e ++ es ≫= encode_entry) ++ [0; 0] ++ post)
                   (Z.of_nat (length pre) + 2) = Ok (Z.of_nat (length e.2))).
  { unfold encode_entry at 1. rewrite <- !app_assoc.
    rewrite (app_assoc pre (word16le e.1)).
    replace (Z.of_nat (length pre) + 2) with (Z.of_nat (length (pre ++ word16le e.1)))
      by (rewrite length_app; cbn; lia).
    apply readUInt16LE_word16le. lia. }
  rewrite Hlen.
  assert (Hval : slice (pre ++ (encode_entry e ++ es ≫= encode_entry) ++ [0; 0] ++ post)
                   (Z.of_nat (length pre) + 2 + 2)
                   (Z.of_nat (length pre) + 2 + 2 + Z.of_nat (length e.2)) = e.2).
  { unfold encode_entry at 1. rewrite <- !app_assoc.
    rewrite (app_assoc (word16le e.1)), (app_assoc pre).
    apply slice_app_mid; [|reflexivity].
    rewrite !length_app. cbn. lia. }
  rewrite Hval.
  assert (Hblob : pre ++ (encode_entry e ++ es ≫= encode_entry) ++ [0; 0] ++ post
                  = (pre ++ encode_entry e) ++ (es ≫= encode_entry) ++ [0; 0] ++ post)
    by (by rewrite <- !app_assoc).
  rewrite Hblob.
  replace (Z.of_nat (length pre) + 2 + 2 + Z.of_nat (length e.2))
    with (Z.of_nat (length (pre ++ encode_entry e)))
    by (rewrite length_app, length_encode_entry; lia).
  rewrite read_next_type by done.
  rewrite IH by (done || cbn in Hfuel; lia).
  cbn [foldl]. do 3 f_equal.
  rewrite !length_app, length_encode_entry. lia.
Qed.

Lemma length_bind_encode (entries : list (Z * bytes)) :
  (length entries <= length (entries ≫= encode_entry))%nat.
Proof.
induction entries as [|e es IH]; [done|].
rewrite bind_cons, length_app, length_encode_entry. cbn. lia.
Qed.

(** X11.  [parseNTLMv2Blob] reads back what the layout of a blob holds:
    the signature, the reserved bytes, the time stamp, the client nonce,
    the attributes up to the terminator (a type listed twice keeps its last
    value), the bytes after the terminator, and the trailer when there is
    one. *)
Theorem parseNTLMv2Blob_decodes_encoded
    (rsv ts nce unk : bytes) (entries : list (Z * bytes)) (unk2 trailer : bytes) :
  length rsv = 4%nat -> length ts = 8%nat -> length nce = 8%nat -> length unk = 4%nat ->
  length unk2 = 4%nat -> Forall valid_entry entries ->
  exists timeLow timeHigh : Z,
    readUInt32LE ts 0 = Ok timeLow /\ readUInt32LE ts 4 = Ok timeHigh
    /\ parseNTLMv2Blob (encode_blob rsv ts nce unk entries unk2 trailer)
       = Ok (Some {| signature := BLOB_SIGNATURE;
                     reserved := rsv;
                     timeStamp := smbToSystemTime (Long timeLow timeHigh);
                     nonce := nce;
                     unknown := unk;
                     info := info_of entries;
                     unknown2 := unk2;
                     unknownTrailer := if decide (trailer = []) then None else Some trailer |}).
Proof.
intros Hrsv Hts Hnce Hunk Hunk2 Hv.
destruct (Ntlmv2Facts.readUInt32LE_in_range ts 0) as [tl Htl]; [lia..|].
destruct (Ntlmv2Facts.readUInt32LE_in_range ts 4) as [th Hth]; [lia..|].
exists tl, th. split; [done|]. split; [done|].
set (enc := entries ≫= encode_entry).
set (blob := encode_blob rsv ts nce unk entries unk2 trailer).
assert (Hlen : Z.of_nat (length blob)
               = 36 + Z.of_nat (length enc) + Z.of_nat (length trailer)).
{ unfold blob, encode_blob. rewrite !length_app. fold enc.
  rewrite Hrsv, Hts, Hnce, Hunk, Hunk2. cbn [length BLOB_SIGNATURE]. lia. }
assert (Hsig : slice blob 0 4 = BLOB_SIGNATURE).
{ apply (slice_app_mid [] BLOB_SIGNATURE); reflexivity. }
assert (Hr : slice blob 4 (4 + 4) = rsv).
{ apply (slice_app_mid BLOB_SIGNATURE rsv); [reflexivity|lia]. }
assert (Htl' : readUInt32LE blob 8 = Ok tl).
{ unfold blob, encode_blob. rewrite (app_assoc BLOB_SIGNATURE rsv).
  change 8 with (8 + 0).
  replace 8 with (Z.of_nat (length (BLOB_SIGNATURE ++ rsv)))
    by (rewrite length_app, Hrsv; reflexivity).
  rewrite readUInt32LE_app by lia. rewrite readUInt32LE_app_l by lia. done. }
assert (Hth' : readUInt32LE blob 12 = Ok th).
{ unfold blob, encode_blob. rewrite (app_assoc BLOB_SIGNATURE rsv).
  change 12 with (8 + 4).
  replace 8 with (Z.of_nat (length (BLOB_SIGNATURE ++ rsv)))
    by (rewrite length_app, Hrsv; reflexivity).
  rewrite readUInt32LE_app by lia. rewrite readUInt32LE_app_l by lia. done. }
assert (Hn : slice blob 16 (16 + 8) = nce).
{ unfold blob, encode_blob.
  rewrite (app_assoc rsv ts), (app_assoc BLOB_SIGNATURE).
  apply slice_app_mid; [|lia]. rewrite !length_app, Hrsv, Hts. reflexivity. }
assert (Hu : slice blob 24 (24 + 4) = unk).
{ unfold blob, encode_blob.
  rewrite (app_assoc ts nce), (app_assoc rsv), (app_assoc BLOB_SIGNATURE).
  apply slice_app_mid; [|lia]. rewrite !length_app, Hrsv, Hts, Hnce. reflexivity. }
assert (Hblob : blob = (BLOB_SIGNATURE ++ rsv ++ ts ++ nce ++ unk)
                       ++ enc ++ [0; 0] ++ ([0; 0] ++ unk2 ++ trailer)).
{ unfold blob, encode_blob. by rewrite <- !app_assoc. }
assert (Hpre : Z.of_nat (length (BLOB_SIGNATURE ++ rsv ++ ts ++ nce ++ unk)) = 28).
{ rewrite !length_app, Hrsv, Hts, Hnce, Hunk. reflexivity. }
assert (Hty : readUInt16LE blob 28 = Ok (next_type entries)).
{ rewrite Hblob, <- Hpre. by apply read_next_type. }
assert (Hinfo : parse_info (S (length blob)) blob (28 + 2) (next_type entries) ∅
                = Some (Ok (28 + Z.of_nat (length enc) + 2, info_of entries))).
{ rewrite Hblob at 2. rewrite <- Hpre. apply parse_info_entries; [|done].
  pose proof (length_bind_encode entries). fold enc in H. lia. }
assert (Hu2 : slice blob (28 + Z.of_nat (length enc) + 2 + 2)
                (28 + Z.of_nat (length enc) + 2 + 2 + 4) = unk2).
{ unfold blob, encode_blob. fold enc.
  rewrite (app_assoc enc), (app_assoc unk), (app_assoc nce), (app_assoc ts),
    (app_assoc rsv), (app_assoc BLOB_SIGNATURE).
  apply slice_app_mid; [|lia].
  rewrite !length_app, Hrsv, Hts, Hnce, Hunk. cbn [length BLOB_SIGNATURE]. lia. }
unfold parseNTLMv2Blob. fold blob.
destruct (Z.ltb_spec (Z.of_nat (length blob)) MIN_BLOB_SIZE) as [Hlt|_];
  [unfold MIN_BLOB_SIZE in Hlt; lia|].
cbv zeta.
change (0 + 4 + 4) with 8. change (8 + 4) with 12. change (12 + 4) with 16.
change (16 + 8 + 4) with 28. change (0 + 4) with 4.
rewrite Htl'. cbn [mbind result_bind]. rewrite Hth'. cbn [mbind result_bind].
rewrite Hty. cbn [mbind result_bind].
rewrite Hinfo. unfold id. cbn [default from_option mbind result_bind].
change (slice blob 4 8) with (slice blob 4 (4 + 4)).
change (slice blob (16 + 8) 28) with (slice blob 24 (24 + 4)).
rewrite Hsig, Hr, Hn, Hu, Hu2.
do 3 f_equal.
destruct (Z.ltb_spec (28 + Z.of_nat (length enc) + 2 + 2 + 4) (Z.of_nat (length blob)))
  as [Hlt|Hge].
- rewrite Hlen in Hlt.
  destruct (decide (trailer = [])) as [Hnil|_];
    [rewrite Hnil in Hlt; cbn [length] in Hlt; lia|].
  f_equal. unfold slice_from.
  assert (Hblob' : blob = (BLOB_SIGNATURE ++ rsv ++ ts ++ nce ++ unk ++ enc
                           ++ [0; 0; 0; 0] ++ unk2) ++ trailer ++ [])
    by (unfold blob, encode_blob; fold enc; by rewrite app_nil_r, <- !app_assoc).
  rewrite Hblob' at 1.
  apply slice_app_mid; [|lia].
  rewrite !length_app, Hrsv, Hts, Hnce, Hunk, Hunk2. cbn [length BLOB_SIGNATURE]. lia.
- rewrite Hlen in Hge.
  destruct (decide (trailer = [])) as [_|Hne]; [reflexivity|].
  destruct trailer; [done|]. cbn [length] in Hge. lia.
Qed.

Lemma parseNTLMv2Blob_decodes_encoded_witness :
  exists timeLow timeHigh : Z,
    readUInt32LE [0x00; 0x90; 0xd3; 0x36; 0xb7; 0x34; 0xc3; 0x01] 0 = Ok timeLow
    /\ readUInt32LE [0x00; 0x90; 0xd3; 0x36; 0xb7; 0x34; 0xc3; 0x01] 4 = Ok timeHigh
    /\ parseNTLMv2Blob
         (encode_blob [0; 0; 0; 0] [0x00; 0x90; 0xd3; 0x36; 0xb7; 0x34; 0xc3; 0x01]
            [0xff; 0xff; 0xff; 0x00; 0x11; 0x22; 0x33; 0x44] [0; 0; 0; 0]
            [(2, [0x44; 0x00; 0x4d; 0x00]); (1, [0x53; 0x00])] [0; 0; 0; 0] [])
       = Ok (Some {| signature := BLOB_SIGNATURE;
                     reserved := [0; 0; 0; 0];
                     timeStamp := smbToSystemTime (Long timeLow timeHigh);
                     nonce := [0xff; 0xff; 0xff; 0x00; 0x11; 0x22; 0x33; 0x44];
                     unknown := [0; 0; 0; 0];
                     info := info_of [(2, [0x44; 0x00; 0x4d; 0x00]); (1, [0x53; 0x00])];
                     unknown2 := [0; 0; 0; 0];
                     unknownTrailer := if decide (@nil Z = []) then None else Some [] |}).
Proof.
apply (parseNTLMv2Blob_decodes_encoded [0; 0; 0; 0]
         [0x00; 0x90; 0xd3; 0x36; 0xb7; 0x34; 0xc3; 0x01]
         [0xff; 0xff; 0xff; 0x00; 0x11; 0x22; 0x33; 0x44] [0; 0; 0; 0]
         [(2, [0x44; 0x00; 0x4d; 0x00]); (1, [0x53; 0x00])] [0; 0; 0; 0] []);
  try reflexivity.
repeat constructor; simpl; lia.
Defined.

End Ntlmv2BlobFacts.

Module DispatchFacts2.
Import Status Cmd Dispatch DispatchSpec DispatchSpec2.

Lemma answers_app (evs1 evs2 : list Event) :
  answers (evs1 ++ evs2) = (answers evs1 + answers evs2)%nat.
Proof. unfold answers. by rewrite omap_app, length_app. Qed.

Lemma answers_pass_events (cmds : list Command) : answers (pass_events cmds) = 0%nat.
Proof.
induction cmds as [|cmd cmds IH]; [reflexivity|].
unfold pass_events in *. rewrite bind_cons, answers_app, IH. reflexivity.
Qed.

Lemma handlers_called_app (evs1 evs2 : list Event) :
  handlers_called (evs1 ++ evs2) = handlers_called evs1 ++ handlers_called evs2.
Proof. apply omap_app. Qed.

Lemma handlers_called_pass_events (cmds : list Command) :
  handlers_called (pass_events cmds) = commandId <$> cmds.
Proof.
induction cmds as [|cmd cmds IH]; [reflexivity|].
unfold pass_events in *. rewrite bind_cons, handlers_called_app, IH. reflexivity.
Qed.

Lemma in_domain_Finished (evs : list Event) : in_domain (evs, Finished) = (evs, Finished).
Proof. reflexivity. Qed.

Lemma in_domain_Exited (evs : list Event) : in_domain (evs, Exited) = (evs, Exited).
Proof. reflexivity. Qed.

Section Dispatcher.
Variable COMMAND_TO_STRING : Z -> option string.
Variable cmdHandlers : string -> option Handler.

Abbreviation eachSeries := (eachSeries COMMAND_TO_STRING cmdHandlers).
Abbreviation pass_all := (pass_all COMMAND_TO_STRING cmdHandlers).
Abbreviation _handleRequest := (_handleRequest COMMAND_TO_STRING cmdHandlers).

Lemma final_None (msg : Message) : final msg None = (final_events msg, Finished).
Proof. unfold final, final_events, sendResponse. by destruct (processed msg). Qed.

(** A run after a prefix of commands that pass, when what follows neither
    raises nor exits. *)
Lemma after_passes (msg msg1 : Message) (pre rest : list Command) (evs : list Event) :
  pass_all msg 0 pre = Some msg1 ->
  eachSeries msg1 (length pre) rest = (evs, Finished) ->
  eachSeries msg 0 (pre ++ rest) = (pass_events pre ++ evs, Finished).
Proof.
intros Hpass Hrest.
rewrite (DispatchFacts.eachSeries_pass_all _ _ _ _ _ _ _ Hpass).
cbn [Nat.add]. rewrite Hrest. by destruct pre.
Qed.

Lemma after_passes_exit (msg msg1 : Message) (pre rest : list Command) (evs : list Event) :
  pass_all msg 0 pre = Some msg1 ->
  eachSeries msg1 (length pre) rest = (evs, Exited) ->
  eachSeries msg 0 (pre ++ rest) = (pass_events pre ++ evs, Exited).
Proof.
intros Hpass Hrest.
rewrite (DispatchFacts.eachSeries_pass_all _ _ _ _ _ _ _ Hpass).
cbn [Nat.add]. rewrite Hrest. by destruct pre.
Qed.

(** X12.  When every command of a message is handled without error, each
    handler is called once, in the order of the commands, and the run ends
    normally with one answer: the response, whose status is the header's
    (STATUS_MORE_PROCESSING_REQUIRED when a handler returned that), or
    [cb()] alone when a handler asked for no further processing. *)
Theorem all_commands_pass (msg msg' : Message) :
  pass_all msg 0 (commands msg) = Some msg' ->
  _handleRequest msg = (pass_events (commands msg) ++ final_events msg', Finished)
  /\ handlers_called (_handleRequest msg).1 = commandId <$> commands msg
  /\ answers (_handleRequest msg).1 = 1%nat.
Proof.
intros Hpass.
assert (Hrun : _handleRequest msg
               = (pass_events (commands msg) ++ final_events msg', Finished)).
{ unfold Dispatch._handleRequest.
  rewrite <- (app_nil_r (commands msg)) at 1.
  apply (after_passes _ _ _ _ _ Hpass). apply final_None. }
split; [exact Hrun|]. rewrite Hrun. cbn [fst]. split.
- rewrite handlers_called_app, handlers_called_pass_events.
  unfold final_events. destruct (processed msg'); by rewrite app_nil_r.
- rewrite answers_app, answers_pass_events.
  unfold final_events. by destruct (processed msg').
Qed.

(** X13.  The first command whose handler returns a failing status ends
    the chain: the continuation is called with that status, the response
    carries it, and no later command is looked at; the failing command's
    result is not stored in the message. *)
Theorem first_failure_ends_the_chain
    (msg msg1 : Message) (pre post : list Command) (cmd : Command)
    (name : string) (handler : Handler) (r : Result) :
  commands msg = pre ++ cmd :: post ->
  pass_all msg 0 pre = Some msg1 ->
  COMMAND_TO_STRING (commandId cmd) = Some name -> name <> "" ->
  cmdHandlers name = Some handler ->
  handler msg1 cmd = Respond (Some r) ->
  status r <> STATUS_SUCCESS -> status r <> STATUS_MORE_PROCESSING_REQUIRED ->
  _handleRequest msg
  = (pass_events pre
     ++ [EvHandler (commandId cmd); EvCallback (commandId cmd) (Some (status r));
         EvSend (status r) (reply_to msg1 (status r))],
     Finished)
  /\ handlers_called (_handleRequest msg).1 = commandId <$> (pre ++ [cmd]).
Proof.
intros Hcmds Hpass Hname Hne Hh Hr Hs1 Hs2.
assert (Hrun : _handleRequest msg
  = (pass_events pre
     ++ [EvHandler (commandId cmd); EvCallback (commandId cmd) (Some (status r));
         EvSend (status r) (reply_to msg1 (status r))],
     Finished)).
{ unfold Dispatch._handleRequest. rewrite Hcmds.
  apply (after_passes _ _ _ _ _ Hpass).
  cbn [Dispatch.eachSeries]. unfold iteratee. rewrite Hname.
  cbn [falsy handler_key]. rewrite bool_decide_eq_false_2 by done.
  rewrite Hh, Hr. unfold continuation, status_eqb.
  rewrite !bool_decide_eq_false_2 by done. reflexivity. }
split; [exact Hrun|]. rewrite Hrun. cbn [fst].
rewrite handlers_called_app, handlers_called_pass_events, fmap_app. reflexivity.
Qed.

(** X14.  A command the table names but for which no handler module was
    loaded is answered STATUS_NOT_IMPLEMENTED, and ends the chain like any
    failure. *)
Theorem missing_handler_is_not_implemented
    (msg msg1 : Message) (pre post : list Command) (cmd : Command) (name : string) :
  commands msg = pre ++ cmd :: post ->
  pass_all msg 0 pre = Some msg1 ->
  COMMAND_TO_STRING (commandId cmd) = Some name -> name <> "" ->
  cmdHandlers name = None ->
  _handleRequest msg
  = (pass_events pre
     ++ [EvCallback (commandId cmd) (Some STATUS_NOT_IMPLEMENTED);
         EvSend STATUS_NOT_IMPLEMENTED (reply_to msg1 STATUS_NOT_IMPLEMENTED)],
     Finished).
Proof.
intros Hcmds Hpass Hname Hne Hh.
unfold Dispatch._handleRequest. rewrite Hcmds.
apply (after_passes _ _ _ _ _ Hpass).
cbn [Dispatch.eachSeries]. unfold iteratee. rewrite Hname.
cbn [falsy handler_key]. rewrite bool_decide_eq_false_2 by done.
rewrite Hh. reflexivity.
Qed.

(** X15.  An exception raised by a handler ends the process
    ([process.exit(1)] in the error handler of the domain): no response is
    sent for the request and no later command is looked at. *)
Theorem handler_exception_exits
    (msg msg1 : Message) (pre post : list Command) (cmd : Command)
    (name : string) (handler : Handler) (e : exn) :
  commands msg = pre ++ cmd :: post ->
  pass_all msg 0 pre = Some msg1 ->
  COMMAND_TO_STRING (commandId cmd) = Some name -> name <> "" ->
  cmdHandlers name = Some handler ->
  handler msg1 cmd = Fault e ->
  _handleRequest msg = (pass_events pre ++ [EvHandler (commandId cmd); EvExit], Exited)
  /\ answers (_handleRequest msg).1 = 0%nat.
Proof.
intros Hcmds Hpass Hname Hne Hh Hr.
assert (Hrun : _handleRequest msg
               = (pass_events pre ++ [EvHandler (commandId cmd); EvExit], Exited)).
{ unfold Dispatch._handleRequest. rewrite Hcmds.
  apply (after_passes_exit _ _ _ _ _ Hpass).
  cbn [Dispatch.eachSeries]. unfold iteratee. rewrite Hname.
  cbn [falsy handler_key]. rewrite bool_decide_eq_false_2 by done.
  rewrite Hh, Hr. reflexivity. }
split; [exact Hrun|]. rewrite Hrun. cbn [fst].
rewrite answers_app, answers_pass_events. reflexivity.
Qed.

(** *** One answer per request *)

Lemma answers_once_in_domain (t : Trace) : answers_once t -> answers_once (in_domain t).
Proof.
intros [H1 H2]. unfold in_domain. destruct t as [evs [| |e]]; cbn [fst snd] in *.
- by split.
- by split.
- split; [|discriminate]. cbn [fst]. rewrite answers_app. cbn. lia.
Qed.

Lemma answers_once_cons (ev : Event) (t : Trace) :
  answers [ev] = 0%nat -> answers_once t -> answers_once (ev :: t.1, t.2).
Proof.
intros H0 [H1 H2]. unfold answers_once. cbn [fst snd].
change (ev :: t.1) with ([ev] ++ t.1). rewrite answers_app, H0. by split.
Qed.

(** A call of the continuation keeps the property of what follows it. *)
Lemma answers_once_call (called : bool) (callback : Callback) (id : Z)
    (msg : Message) (err : option NTSTATUS) :
  (forall msg' err', answers_once (callback msg' err')) ->
  (answers (call called callback id msg err).1 <= 1)%nat
  /\ ((call called callback id msg err).2 = Finished ->
      called = false /\ answers (call called callback id msg err).1 = 1%nat).
Proof.
intros Hk. unfold call. destruct called.
- cbn. split; [lia|discriminate].
- destruct (Hk msg err) as [H1 H2]. unfold and_then. cbn [fst snd app].
  change (EvCallback id err :: (callback msg err).1)
    with ([EvCallback id err] ++ (callback msg err).1).
  split.
  + rewrite answers_app. cbn. lia.
  + intros Hf. split; [done|]. rewrite answers_app. cbn. auto.
Qed.

Lemma answers_once_continuation (called : bool) (callback : Callback) (i : nat)
    (cmd : Command) (msg : Message) (r : option Result) :
  (forall msg' err', answers_once (callback msg' err')) ->
  (answers (continuation called callback i cmd msg r).1 <= 1)%nat
  /\ ((continuation called callback i cmd msg r).2 = Finished ->
      called = false /\ answers (continuation called callback i cmd msg r).1 = 1%nat).
Proof.
intros Hk. unfold continuation.
destruct r as [r|]; [destruct (_ || _)|]; by apply answers_once_call.
Qed.

Lemma answers_once_iteratee (msg : Message) (i : nat) (cmd : Command) (callback : Callback) :
  (forall msg' err', answers_once (callback msg' err')) ->
  answers_once (iteratee COMMAND_TO_STRING cmdHandlers msg i cmd callback).
Proof.
intros Hk. unfold iteratee.
set (command := COMMAND_TO_STRING (commandId cmd)).
destruct (falsy command) eqn:Hfalsy.
- (* the table does not know the command *)
  pose proof (answers_once_call false callback (commandId cmd) msg
                (Some STATUS_SMB_BAD_COMMAND) Hk) as [H1 H2].
  destruct (call false callback (commandId cmd) msg (Some STATUS_SMB_BAD_COMMAND))
    as [evs fin] eqn:Hcall.
  cbn [fst snd] in H1, H2. unfold and_then at 1. cbn [fst snd].
  destruct fin; [|by split..].
  destruct (H2 eq_refl) as [_ Hone].
  match goal with
  | |- answers_once (evs ++ ?t.1, ?t.2) =>
    assert (Hrest : answers t.1 = 0%nat /\ t.2 <> Finished)
  end.
  { destruct (cmdHandlers (handler_key command)) as [handler|].
    - destruct (handler msg cmd) as [r|e]; [|by split].
      unfold continuation. destruct r as [r|]; [destruct (_ || _)|]; by split.
    - destruct (toUpperCase_of command); by split. }
  destruct Hrest as [H0 Hnf]. split; cbn [fst snd]; [|done].
  rewrite answers_app, Hone, H0. lia.
- unfold and_then at 1. cbn [fst snd app].
  destruct (cmdHandlers (handler_key command)) as [handler|].
  + apply answers_once_in_domain.
    unfold and_then. cbn [fst snd app].
    destruct (handler msg cmd) as [r|e].
    * pose proof (answers_once_continuation false callback i cmd msg r Hk) as [H1 H2].
      destruct (continuation false callback i cmd msg r) as [evs fin].
      cbn [fst snd] in *. split; cbn [fst snd].
      -- change (EvHandler (commandId cmd) :: evs) with ([EvHandler (commandId cmd)] ++ evs).
         rewrite answers_app. cbn. lia.
      -- intros Hf. destruct (H2 Hf) as [_ Hone].
         change (EvHandler (commandId cmd) :: evs) with ([EvHandler (commandId cmd)] ++ evs).
         rewrite answers_app. cbn. lia.
    * split; cbn; [lia|discriminate].
  + destruct (toUpperCase_of command).
    * pose proof (answers_once_call false callback (commandId cmd) msg
                    (Some STATUS_NOT_IMPLEMENTED) Hk) as [H1 H2].
      split; [exact H1|]. intros Hf. by destruct (H2 Hf).
    * split; cbn; [lia|discriminate].
Qed.

Lemma answers_once_final (msg : Message) (err : option NTSTATUS) :
  answers_once (final msg err).
Proof.
unfold final, sendResponse. destruct err; [|destruct (processed msg)]; split; cbn; auto.
Qed.

Lemma answers_once_eachSeries (cmds : list Command) :
  forall (msg : Message) (i : nat), answers_once (eachSeries msg i cmds).
Proof.
induction cmds as [|cmd cmds IH]; intros msg i.
- apply answers_once_final.
- cbn [Dispatch.eachSeries]. apply answers_once_iteratee.
  intros msg' [status|]; [apply answers_once_final|apply IH].
Qed.

(** X16.  Whatever the message, the command table and the handlers, a run
    of the dispatcher answers the request at most once (one response sent,
    or one [cb()]), and exactly once when it ends normally: neither the
    missing [return] after an unknown command nor a handler that fails
    makes it answer twice. *)
Theorem request_is_answered_once (msg : Message) :
  (answers (_handleRequest msg).1 <= 1)%nat
  /\ ((_handleRequest msg).2 = Finished -> answers (_handleRequest msg).1 = 1%nat).
Proof. apply (answers_once_eachSeries (commands msg) msg 0). Qed.

End Dispatcher.

Lemma all_commands_pass_witness :
  Dispatch._handleRequest sample_COMMAND_TO_STRING (sample_cmdHandlers sample_server) close_only
  = (pass_events (commands close_only)
     ++ final_events (stash close_only 0 close_command (empty_result STATUS_SUCCESS)),
     Finished)
  /\ handlers_called
       (Dispatch._handleRequest sample_COMMAND_TO_STRING (sample_cmdHandlers sample_server)
          close_only).1
     = commandId <$> commands close_only
  /\ answers
       (Dispatch._handleRequest sample_COMMAND_TO_STRING (sample_cmdHandlers sample_server)
          close_only).1 = 1%nat.
Proof.
apply (all_commands_pass sample_COMMAND_TO_STRING (sample_cmdHandlers sample_server)
         close_only (stash close_only 0 close_command (empty_result STATUS_SUCCESS))).
reflexivity.
Defined.

Lemma first_failure_ends_the_chain_witness :
  Dispatch._handleRequest sample_COMMAND_TO_STRING (sample_cmdHandlers no_tree_server)
    close_then_unknown
  = (pass_events []
     ++ [EvHandler 0x04; EvCallback 0x04 (Some STATUS_SMB_BAD_TID);
         EvSend STATUS_SMB_BAD_TID (reply_to close_then_unknown STATUS_SMB_BAD_TID)],
     Finished)
  /\ handlers_called
       (Dispatch._handleRequest sample_COMMAND_TO_STRING (sample_cmdHandlers no_tree_server)
          close_then_unknown).1
     = commandId <$> ([] ++ [close_command]).
Proof.
apply (first_failure_ends_the_chain
         sample_COMMAND_TO_STRING (sample_cmdHandlers no_tree_server)
         close_then_unknown close_then_unknown [] [unknown_command] close_command "close"
         (as_handler (fun tid params data _ => close_handle no_tree_server tid params data))
         (empty_result STATUS_SMB_BAD_TID)).
- reflexivity.
- reflexivity.
- reflexivity.
- discriminate.
- reflexivity.
- reflexivity.
- discriminate.
- discriminate.
Defined.

Lemma missing_handler_is_not_implemented_witness :
  Dispatch._handleRequest sample_COMMAND_TO_STRING no_cmdHandlers close_only
  = (pass_events []
     ++ [EvCallback 0x04 (Some STATUS_NOT_IMPLEMENTED);
         EvSend STATUS_NOT_IMPLEMENTED (reply_to close_only STATUS_NOT_IMPLEMENTED)],
     Finished).
Proof.
apply (missing_handler_is_not_implemented sample_COMMAND_TO_STRING no_cmdHandlers
         close_only close_only [] [] close_command "close").
- reflexivity.
- reflexivity.
- reflexivity.
- discriminate.
- reflexivity.
Defined.

Lemma handler_exception_exits_witness :
  Dispatch._handleRequest sample_COMMAND_TO_STRING (sample_cmdHandlers sample_server)
    short_close_only
  = (pass_events [] ++ [EvHandler 0x04; EvExit], Exited)
  /\ answers
       (Dispatch._handleRequest sample_COMMAND_TO_STRING (sample_cmdHandlers sample_server)
          short_close_only).1 = 0%nat.
Proof.
apply (handler_exception_exits sample_COMMAND_TO_STRING (sample_cmdHandlers sample_server)
         short_close_only short_close_only [] [] short_close_command "close"
         (as_handler (fun tid params data _ => close_handle sample_server tid params data))
         RangeError).
- reflexivity.
- reflexivity.
- reflexivity.
- discriminate.
- reflexivity.
- reflexivity.
Defined.

End DispatchFacts2.

Module CmdFacts2.
Import Status Utils Utils2 Codec Spi Cmd Ntlmv2 DispatchSpec CmdSpec2.

Lemma readUInt32LE_word32le (pre post : bytes) (v : Z) :
  0 <= v < 2 ^ 32 ->
  readUInt32LE (pre ++ word32le v ++ post) (Z.of_nat (length pre)) = Ok v.
Proof.
intros Hv. rewrite <- (Z.add_0_r (Z.of_nat (length pre))).
rewrite Ntlmv2BlobFacts.readUInt32LE_app by lia.
unfold readUInt32LE, in_range, word32le. cbn [word_le app length].
destruct (Z.leb_spec (0 + 4) (Z.of_nat (S (S (S (S (length post))))))); [|lia].
cbn [Z.leb Z.compare andb]. change (Z.to_nat 0) with 0%nat.
cbn [Nat.add cell lookup list_lookup default from_option].
f_equal. unfold id. change (2 ^ 32) with 4294967296 in Hv. Z.div_mod_to_equations. lia.
Qed.

Lemma le_value_word_le (n : nat) (x : Z) : le_value (word_le n x) = x mod 256 ^ Z.of_nat n.
Proof.
revert x. induction n as [|n IH]; intros x.
- cbn. by rewrite Z.mod_1_r.
- cbn [word_le le_value]. rewrite IH, Nat2Z.inj_succ, Z.pow_succ_r by lia.
  rewrite Z.rem_mul_r by lia. reflexivity.
Qed.

(** A field read where [put] wrote it. *)
Lemma field_in (p pre post : bytes) (n : nat) (x : Z) (off : nat) :
  p = pre ++ word_le n x ++ post -> off = length pre ->
  field p off n = x mod 256 ^ Z.of_nat n.
Proof.
intros -> ->. unfold field. rewrite drop_app_length.
rewrite take_app_length' by (symmetry; apply CmdFacts.length_word_le).
apply le_value_word_le.
Qed.

(** *** The READ_ANDX response *)

Lemma le_value_bound (l : bytes) :
  Forall is_byte l -> 0 <= le_value l < 256 ^ Z.of_nat (length l).
Proof.
induction 1 as [|b l Hb _ IH]; [cbn; lia|].
cbn [le_value length]. rewrite Nat2Z.inj_succ, Z.pow_succ_r by lia.
unfold is_byte in Hb. lia.
Qed.

Lemma parse_word_bound (buf : bytes) (off : Z) (v : Z) :
  Forall is_byte buf -> parse_word buf off 2 = Some v -> 0 <= v < 65536.
Proof.
intros Hb. unfold parse_word. destruct (_ <=? _); [|discriminate]. intros [= <-].
assert (Hs : Forall is_byte (slice buf off (off + Z.of_nat 2))).
{ unfold slice. by apply Forall_take, Forall_drop. }
assert (Hl : (length (slice buf off (off + Z.of_nat 2)) <= 2)%nat).
{ unfold slice, clamp_index. rewrite length_take.
  destruct (Z.ltb_spec off 0), (Z.ltb_spec (off + Z.of_nat 2) 0); lia. }
pose proof (le_value_bound _ Hs) as Hv.
assert (256 ^ Z.of_nat (length (slice buf off (off + Z.of_nat 2))) <= 256 ^ 2)
  by (apply Z.pow_le_mono_r; lia).
change (256 ^ 2) with 65536 in *. lia.
Qed.

(** The parser reads the field at its offset as [parse_word] does, and
    what it reads is the field of the buffer there. *)
Lemma parse_next_word (buf : bytes) (off : Z) (n : nat) :
  (parse_next buf off n).1 = parse_word buf off n.
Proof. unfold parse_next, parse_word. by destruct (_ <=? _). Qed.

Lemma slice_field (buf : bytes) (off : nat) (n : nat) :
  (off + n <= length buf)%nat ->
  slice buf (Z.of_nat off) (Z.of_nat off + Z.of_nat n) = take n (drop off buf).
Proof.
intros Hlen. unfold slice, clamp_index.
destruct (Z.ltb_spec (Z.of_nat off) 0); [lia|].
destruct (Z.ltb_spec (Z.of_nat off + Z.of_nat n) 0); [lia|].
rewrite !Z.min_l by lia.
replace (Z.to_nat (Z.of_nat off + Z.of_nat n - Z.of_nat off)) with n by lia.
by rewrite Nat2Z.id.
Qed.

Lemma parse_next_field (buf : bytes) (off : nat) (n : nat) :
  parse_next buf (Z.of_nat off) n
  = if bool_decide (off + n <= length buf)%nat
    then (Some (field buf off n), Z.of_nat (off + n)) else (None, Z.of_nat off).
Proof.
unfold parse_next, field.
destruct (Z.leb_spec (Z.of_nat off + Z.of_nat n) (Z.of_nat (length buf))).
- rewrite bool_decide_eq_true_2 by lia. rewrite slice_field by lia.
  by rewrite Nat2Z.inj_add.
- by rewrite bool_decide_eq_false_2 by lia.
Qed.

Lemma take_drop_cells (buf : bytes) (off n : nat) :
  (off + n <= length buf)%nat ->
  take n (drop off buf) = (fun i => cell buf (off + i)) <$> seq 0 n.
Proof.
intros Hlen. apply list_eq. intros i.
rewrite list_lookup_fmap.
destruct (decide (i < n)%nat) as [Hi|Hi].
- rewrite lookup_take_lt, lookup_drop by done.
  rewrite lookup_seq_lt by done. cbn. unfold cell.
  destruct (lookup_lt_is_Some_2 buf (off + i)) as [x ->]; [lia|]. reflexivity.
- rewrite lookup_take_ge by lia. by rewrite lookup_seq_ge by lia.
Qed.

Lemma readUInt16LE_field (buf : bytes) (off : nat) (v : Z) :
  readUInt16LE buf (Z.of_nat off) = Ok v -> v = field buf off 2.
Proof.
unfold readUInt16LE, in_range.
destruct (Z.leb_spec 0 (Z.of_nat off)); [|discriminate].
destruct (Z.leb_spec (Z.of_nat off + 2) (Z.of_nat (length buf))); [|discriminate].
cbn [andb]. intros [= <-]. unfold field. rewrite take_drop_cells by lia.
rewrite Nat2Z.id. cbn [seq fmap list_fmap le_value]. rewrite Nat.add_0_r. lia.
Qed.

Lemma readUInt32LE_field (buf : bytes) (off : nat) (v : Z) :
  readUInt32LE buf (Z.of_nat off) = Ok v -> v = field buf off 4.
Proof.
unfold readUInt32LE, in_range.
destruct (Z.leb_spec 0 (Z.of_nat off)); [|discriminate].
destruct (Z.leb_spec (Z.of_nat off + 4) (Z.of_nat (length buf))); [|discriminate].
cbn [andb]. intros [= <-]. unfold field. rewrite take_drop_cells by lia.
rewrite Nat2Z.id. cbn [seq fmap list_fmap le_value]. rewrite Nat.add_0_r. lia.
Qed.

Lemma field_bound (buf : bytes) (off n : nat) :
  Forall is_byte buf -> 0 <= field buf off n < 256 ^ Z.of_nat n.
Proof.
intros Hb. unfold field.
assert (Hs : Forall is_byte (take n (drop off buf))) by by apply Forall_take, Forall_drop.
pose proof (le_value_bound _ Hs) as Hv.
assert (256 ^ Z.of_nat (length (take n (drop off buf))) <= 256 ^ Z.of_nat n).
{ apply Z.pow_le_mono_r; [lia|]. rewrite length_take. lia. }
lia.
Qed.

(** A value that 53 bits hold is the number [toNumber] gives. *)
Lemma toNumber_exact (v : Z) : Z.abs v < 2 ^ 53 -> toNumber v = v.
Proof.
intros Hv. unfold toNumber.
assert (Hlog : Z.log2 (Z.abs v) < 53).
{ destruct (Z.eq_dec (Z.abs v) 0) as [->|Hne]; [reflexivity|].
  apply Z.log2_lt_pow2; lia. }
destruct (Z.leb_spec (Z.log2 (Z.abs v) - 52) 0); [reflexivity|lia].
Qed.

(** Beyond 53 bits the number is rounded, a tie to the even neighbour. *)
Lemma toNumber_rounds :
  toNumber (2 ^ 53 + 1) = 2 ^ 53 /\ toNumber (2 ^ 53 + 3) = 2 ^ 53 + 4
  /\ toNumber (- (2 ^ 53 + 1)) = - 2 ^ 53.
Proof. repeat split. Qed.

(** In READ_ANDX parameters of 8 or 9 bytes the offset does not fit, and
    the maximal count is read where the offset would have been. *)
Lemma read_andx_short_params (buf : bytes) :
  (length buf = 8 \/ length buf = 9)%nat ->
  parse_chain buf (0 + 4) [2; 4; 2]%nat
  = [Some (field buf 4 2); None; Some (field buf 6 2)].
Proof.
intros Hlen. cbn [parse_chain]. change (0 + 4) with (Z.of_nat 4).
rewrite !parse_next_field, bool_decide_eq_true_2 by lia. cbn [fst snd].
rewrite !parse_next_field, bool_decide_eq_false_2 by lia. cbn [fst snd].
rewrite !parse_next_field, bool_decide_eq_true_2 by lia. reflexivity.
Qed.

(** The offset of a READ_ANDX whose high half is below 2^21. *)
Lemma toNumber_Long (low high : Z) :
  0 <= low < 2 ^ 32 -> 0 <= high < 2 ^ 21 ->
  toNumber (Long low high) = low + 2 ^ 32 * high.
Proof.
intros Hl Hh. unfold Long.
rewrite (Z.mod_small low), (Z.mod_small high) by lia.
destruct (Z.ltb_spec (low + 2 ^ 32 * high) (2 ^ 63)); [|lia].
apply toNumber_exact. lia.
Qed.

Section Handlers.
Variable SMB : Constants.
Variable server : Server.
Variable getParentPath : jsstring -> jsstring.
Variable Path_join : jsstring -> jsstring -> jsstring.
Variable extractUnicodeBytes : bytes -> Z -> result bytes.
Variable kMaxLength : Z.

(** X17.  On a TID that resolves, a request that names a FID which does
    not resolve to an open file is answered STATUS_SMB_BAD_FID, with empty
    params and data and nothing done to the backend: by CLOSE, by READ_ANDX
    (also when the FID field is missing from the request), and by TRANS2
    set-file-information at the passthrough levels. *)
Theorem bad_fid_preflight (tid : Z) (tree : Tree) (commandParams commandData : bytes)
    (commandDataOffset : Z) :
  getTree server tid = Some tree ->
  (forall fid : Z,
      close_well_formed commandParams ->
      readUInt16LE commandParams 0 = Ok fid -> getFile tree fid = None ->
      close_handle server tid commandParams commandData
      = ([], Ok (empty_result STATUS_SMB_BAD_FID)))
  /\ ((isNamedPipe tree = false -> 16 <= Z.of_nat (length commandParams)) ->
      parse_word commandParams 4 2 ≫= getFile tree = None ->
      read_andx_handle server kMaxLength tid commandParams commandData
      = ([], Ok (empty_result STATUS_SMB_BAD_FID)))
  /\ (forall fid informationLevel : Z,
        readUInt16LE commandParams 0 = Ok fid ->
        readUInt16LE commandParams 2 = Ok informationLevel ->
        INFO_PASSTHROUGH SMB <= informationLevel ->
        getFile tree fid = None ->
        trans2_set_fs_information_handle SMB server getParentPath Path_join
          extractUnicodeBytes tid commandParams commandData commandDataOffset
        = ([], Ok (empty_result STATUS_SMB_BAD_FID))).
Proof.
intros Htree. split; [|split].
- intros fid Hwf Hfid Hfile. unfold close_handle, close_well_formed in *.
  rewrite Hfid.
  destruct (Ntlmv2Facts.readUInt32LE_in_range commandParams 2) as [w ->]; [lia..|].
  by rewrite Htree, Hfile.
- intros Hlen Hfile. unfold read_andx_handle.
  destruct (parse_next commandParams (0 + 4) 2) as [fid off1] eqn:Hfid.
  apply (f_equal fst) in Hfid. rewrite parse_next_word in Hfid. cbn [fst] in Hfid.
  change (0 + 4) with 4 in Hfid. subst fid.
  destruct (parse_next commandParams off1 4) as [offset off2].
  destruct (parse_next commandParams off2 2) as [maxCountOfBytesToReturn off3].
  assert (Hhigh : exists v,
            (if Z.of_nat (length commandParams) =? 24
             then readUInt32LE commandParams 20 else Ok 0) = Ok v).
  { destruct (Z.eqb_spec (Z.of_nat (length commandParams)) 24); [|eauto].
    apply Ntlmv2Facts.readUInt32LE_in_range; lia. }
  destruct Hhigh as [offsetHigh ->]. rewrite Htree.
  destruct (isNamedPipe tree) eqn:Hpipe; cbn [negb].
  + by rewrite Hfile.
  + destruct (Ntlmv2Facts.readUInt16LE_in_range commandParams 14) as [w ->];
      [lia|specialize (Hlen eq_refl); lia|].
    by rewrite Hfile.
- intros fid level Hfid Hlevel Hpass Hfile. unfold trans2_set_fs_information_handle.
  rewrite Hfid, Hlevel.
  destruct (Z.ltb_spec level (INFO_PASSTHROUGH SMB)); [lia|].
  by rewrite Htree, Hfile.
Qed.

(** X18.  CLOSE on an open file closes it exactly once, whatever the time
    field holds; the time of last modification is set before that, to the
    field's seconds in milliseconds, unless the field is 0 or 0xffffffff;
    and every error of [closeFile] is reported as STATUS_UNSUCCESSFUL,
    whatever status the error carries. *)
Theorem close_closes_once (tid fid lastTimeModified : Z) (tree : Tree) (file : File)
    (commandData : bytes) :
  0 <= fid < 65536 -> 0 <= lastTimeModified < 2 ^ 32 ->
  getTree server tid = Some tree -> getFile tree fid = Some file ->
  close_handle server tid (close_params fid lastTimeModified) commandData
  = ((if bool_decide (lastTimeModified = 0 \/ lastTimeModified = 0xffffffff) then []
      else [SetLastModifiedTime fid (lastTimeModified * 1000)])
     ++ [CloseFile fid],
     Ok (empty_result (match closeFile tree fid with
                       | Some _ => STATUS_UNSUCCESSFUL
                       | None => STATUS_SUCCESS
                       end))).
Proof.
intros Hfid Ht Htree Hfile. unfold close_handle, close_params.
pose proof (Ntlmv2BlobFacts.readUInt16LE_word16le [] (word32le lastTimeModified) fid Hfid)
  as H16.
pose proof (readUInt32LE_word32le (word16le fid) [] lastTimeModified Ht) as H32.
rewrite app_nil_r in H32. change (Z.of_nat (length (word16le fid))) with 2 in H32.
change (Z.of_nat (length [])) with 0 in H16. cbn [app] in H16.
rewrite H16, H32.
rewrite Htree, Hfile.
destruct (Z.eqb_spec lastTimeModified 0) as [->|H0]; cbn [negb andb].
- rewrite bool_decide_eq_true_2 by (by left). by destruct (closeFile tree fid).
- destruct (Z.eqb_spec lastTimeModified 4294967295) as [->|H1]; cbn [negb].
  + rewrite bool_decide_eq_true_2 by (by right). by destruct (closeFile tree fid).
  + rewrite bool_decide_eq_false_2 by (intros [?|?]; done).
    by destruct (closeFile tree fid).
Qed.

(** The first error among the deletions, if there is one. *)
Lemma delete_files_error (files : list File) :
  (delete_files files).2 = None <-> Forall (fun f => delete f = None) files.
Proof.
unfold delete_files. cbn [snd].
induction files as [|f files IH]; [split; [by constructor|done]|].
cbn [omap list_omap]. destruct (delete f) as [err|] eqn:Hd.
- cbn [head]. split; [discriminate|]. intros Hall. apply Forall_cons in Hall as [Hf _].
  rewrite Hd in Hf. discriminate.
- rewrite Forall_cons, IH. tauto.
Qed.

(** X19.  DELETE on a TID that resolves lists the files the name matches;
    with none it answers STATUS_NO_SUCH_FILE and deletes nothing; otherwise
    it calls [delete] on every file listed, also after one of them failed,
    and answers STATUS_SUCCESS exactly when every deletion succeeded. *)
Theorem delete_deletes_every_match (tid : Z) (tree : Tree) (files : list File)
    (commandParams commandData : bytes) (commandDataOffset : Z) (name : bytes) :
  2 <= Z.of_nat (length commandParams) -> 1 <= Z.of_nat (length commandData) ->
  extractUnicodeBytes commandData (1 + calculatePadLength (commandDataOffset + 1) 2) = Ok name ->
  getTree server tid = Some tree ->
  listFiles tree (from_utf16le name) = inr files ->
  exists s : NTSTATUS,
    delete_handle server extractUnicodeBytes tid commandParams commandData commandDataOffset
    = (ListFiles (from_utf16le name) :: (DeleteFile <$> (fid <$> files)),
       Ok (empty_result s))
    /\ (files = [] -> s = STATUS_NO_SUCH_FILE)
    /\ (files <> [] -> (s = STATUS_SUCCESS <-> Forall (fun f => delete f = None) files)).
Proof.
intros Hp Hd Hname Htree Hlist. unfold delete_handle.
destruct (Ntlmv2Facts.readUInt16LE_in_range commandParams 0) as [attrs ->]; [lia..|].
destruct (CmdFacts.readUInt8_in_range commandData 0) as [fmt ->]; [lia..|].
change (0 + 1 + calculatePadLength (commandDataOffset + (0 + 1)) 2)
  with (1 + calculatePadLength (commandDataOffset + 1) 2).
rewrite Hname, Htree, Hlist.
destruct files as [|f files].
- rewrite bool_decide_eq_true_2 by done. eexists. split; [reflexivity|]. by split.
- rewrite bool_decide_eq_false_2 by done.
  pose proof (delete_files_error (f :: files)) as Herr.
  destruct (delete_files (f :: files)) as [effects err] eqn:Hdel.
  assert (Heff : effects = DeleteFile <$> (fid <$> (f :: files)))
    by (unfold delete_files in Hdel; by injection Hdel as <- _).
  subst effects. cbn [snd] in Herr.
  eexists. split; [reflexivity|]. split; [done|]. intros _.
  rewrite <- Herr. destruct err as [err|].
  + split; [|discriminate]. intros Hs. by apply CmdFacts.status_or_unsuccessful_fails in Hs.
  + by split.
Qed.

(** X20.  A READ_ANDX response with STATUS_SUCCESS, from a file whose
    [read] keeps within the buffer it is given: the file the FID of the
    request names was read once, into a zero-filled buffer of the maximal
    count, from the position of the request; the response has 12 words of
    parameters; its data block is a pad byte followed by the bytes the read
    left at the start of that buffer, as many as it reported; DataLength
    (word 5) and DataLengthHigh (word 7) together hold the count the read
    reported, and DataOffset (word 6) is 60.  In a request of 12 words the
    maximal count is the field at byte 10, with the word at byte 14 as its
    high half on a disk share, and the position is the 64-bit offset at
    bytes 6 and 20, when that is below 2^53. *)
Theorem read_andx_response (tid : Z) (tree : Tree) (commandParams commandData : bytes)
    (effects : list Effect) (r : Result) :
  Forall is_byte commandParams ->
  getTree server tid = Some tree ->
  (forall fid file, getFile tree fid = Some file -> read_in_bounds file) ->
  read_andx_handle server kMaxLength tid commandParams commandData = (effects, Ok r) ->
  status r = STATUS_SUCCESS ->
  exists (file : File) (maxCount : Z) (position : option Z) (bytesRead : Z)
         (buffer p : bytes),
    getFile tree (field commandParams 4 2) = Some file
    /\ 0 <= maxCount
    /\ read file (replicate (Z.to_nat maxCount) 0) 0 maxCount position
       = inr (bytesRead, buffer)
    /\ effects = [ReadFile (field commandParams 4 2) maxCount position]
    /\ params r = PBuffer p /\ length p = 24%nat
    /\ data r = 0 :: take (Z.to_nat bytesRead) buffer
    /\ field p 10 2 + 65536 * field p 14 2 = bytesRead
    /\ field p 12 2 = DATA_OFFSET
    /\ (length commandParams = 24%nat ->
        (isNamedPipe tree = true -> maxCount = field commandParams 10 2)
        /\ (isNamedPipe tree = false -> field commandParams 14 2 < 2 ^ 15 ->
            maxCount = field commandParams 10 2 + 65536 * field commandParams 14 2)
        /\ (field commandParams 20 4 < 2 ^ 21 ->
            position = Some (field commandParams 6 4 + 2 ^ 32 * field commandParams 20 4))).
Proof.
clear SMB getParentPath Path_join extractUnicodeBytes.
intros Hb Htree Hbounds Hrun Hok. unfold read_andx_handle in Hrun.
change (0 + 4) with (Z.of_nat 4) in Hrun. rewrite parse_next_field in Hrun.
destruct (bool_decide (4 + 2 <= length commandParams)%nat) eqn:Hlen6.
2:{ (* no FID: no file *)
  destruct (parse_next commandParams (Z.of_nat 4) 4) as [offset off2].
  destruct (parse_next commandParams off2 2) as [mc off3].
  destruct (if Z.of_nat (length commandParams) =? 24 then _ else _) as [offsetHigh|];
    [|discriminate Hrun].
  rewrite Htree in Hrun.
  destruct (if negb (isNamedPipe tree) then _ else _) as [maxCount|]; [|discriminate Hrun].
  cbn [mbind option_bind] in Hrun. injection Hrun as <- <-. discriminate Hok. }
apply bool_decide_eq_true_1 in Hlen6.
rewrite parse_next_field in Hrun.
assert (Hoff : exists offset off2,
  (if bool_decide (4 + 2 + 4 <= length commandParams)%nat
   then (Some (field commandParams (4 + 2) 4), Z.of_nat (4 + 2 + 4))
   else (None, Z.of_nat (4 + 2))) = (offset, off2)
  /\ ((10 <= length commandParams)%nat ->
      offset = Some (field commandParams 6 4) /\ off2 = Z.of_nat 10)).
{ destruct (bool_decide _) eqn:E; eexists _, _; (split; [reflexivity|]); intros Hl.
  - split; reflexivity.
  - apply bool_decide_eq_false_1 in E. lia. }
destruct Hoff as (offset & off2 & Hoff & Hoffset). rewrite Hoff in Hrun. clear Hoff.
destruct (parse_next commandParams off2 2) as [mc off3] eqn:Hmc.
destruct (if Z.of_nat (length commandParams) =? 24 then _ else _) as [offsetHigh|] eqn:Hhigh;
  [|discriminate Hrun].
rewrite Htree in Hrun.
destruct (if negb (isNamedPipe tree) then _ else _) as [maxCount|] eqn:Hmax;
  [|discriminate Hrun].
cbn [mbind option_bind] in Hrun.
destruct (getFile tree (field commandParams 4 2)) as [file|] eqn:Hfile.
2:{ injection Hrun as <- <-. discriminate Hok. }
pose proof (Hbounds _ _ Hfile) as Hin.
destruct (isDirectory file).
{ injection Hrun as <- <-. discriminate Hok. }
unfold new_Buffer_zeroed in Hrun at 1.
destruct maxCount as [maxCount|]; [|discriminate Hrun].
destruct (Z.ltb_spec maxCount 0) as [|Hpos]; [discriminate Hrun|].
destruct (Z.ltb_spec kMaxLength maxCount) as [|Hkmax]; [discriminate Hrun|].
cbn [orb] in Hrun. rewrite length_replicate, Z2Nat.id in Hrun by lia.
set (position := if negb (offsetHigh =? 0) then _ else offset) in Hrun.
destruct (read file _ 0 maxCount position) as [err|[bytesRead buffer]] eqn:Hread.
{ injection Hrun as <- <-. cbn in Hok. by apply CmdFacts.status_or_unsuccessful_fails in Hok. }
pose proof (Hin _ _ _ _ _ _ Hread) as [Hn Hlenb]. rewrite length_replicate in Hn, Hlenb.
destruct (readUInt8 commandParams 0) as [next|]; [|discriminate Hrun].
destruct (readUInt16LE commandParams 2) as [nextOffset|]; [|discriminate Hrun].
unfold new_Buffer_zeroed in Hrun.
destruct (Z.ltb_spec (1 + bytesRead) 0); [lia|].
destruct (Z.ltb_spec kMaxLength (1 + bytesRead)); [discriminate Hrun|].
cbn [orb] in Hrun.
replace (Z.to_nat (1 + bytesRead)) with (S (Z.to_nat bytesRead)) in Hrun by lia.
cbn [replicate] in Hrun. injection Hrun as <- <-. cbn [params data int_of default from_option id].
(* the bounds of the maximal count *)
assert (Hmcb : 0 <= int_of mc < 65536).
{ apply (f_equal fst) in Hmc. rewrite parse_next_word in Hmc. cbn [fst] in Hmc.
  destruct mc as [v|]; cbn; [|lia]. by apply (parse_word_bound commandParams off2). }
assert (Hmaxb : maxCount < 2 ^ 31 + 65536).
{ destruct (isNamedPipe tree); cbn [negb] in Hmax.
  - injection Hmax as ->. cbn in Hmcb. lia.
  - destruct (readUInt16LE commandParams 14) as [high|] eqn:Hh; [|discriminate Hmax].
    cbv zeta in Hmax. injection Hmax as <-.
    destruct (Z.ltb_spec (Z.shiftl high 16) (2 ^ 31)); [lia|].
    apply Ntlmv2Facts.readUInt16LE_Ok in Hh as (_ & _ & Hh). specialize (Hh Hb).
    rewrite Z.shiftl_mul_pow2 in * by lia. lia. }
exists file, maxCount, position, bytesRead, buffer. eexists.
split; [reflexivity|]. split; [exact Hpos|]. split; [exact Hread|].
split; [reflexivity|]. split; [reflexivity|]. split; [reflexivity|].
split.
{ f_equal. rewrite length_take, Hlenb.
  replace (Z.to_nat bytesRead `min` Z.to_nat maxCount)%nat with (Z.to_nat bytesRead) by lia.
  by rewrite drop_replicate, Nat.sub_diag, app_nil_r. }
split.
{ unfold field, word8, word16le. cbn [word_le app drop take le_value].
  change 65535 with (Z.ones 16). rewrite Z.land_ones, Z.shiftr_div_pow2 by lia.
  change (2 ^ 16) with 65536. change (2 ^ 31) with 2147483648 in Hmaxb.
  clear - Hn Hmaxb. Z.div_mod_to_equations. lia. }
split; [reflexivity|].
intros Hlen24.
assert (Ho : offset = Some (field commandParams 6 4) /\ off2 = Z.of_nat 10)
  by (apply Hoffset; lia).
destruct Ho as [-> ->].
rewrite parse_next_field, bool_decide_eq_true_2 in Hmc by lia. injection Hmc as <- <-.
split; [|split].
- intros Hpipe. rewrite Hpipe in Hmax. cbn [negb] in Hmax. by injection Hmax as <-.
- intros Hpipe Hh15. rewrite Hpipe in Hmax. cbn [negb] in Hmax.
  destruct (readUInt16LE commandParams 14) as [high|] eqn:Hh; [|discriminate Hmax].
  apply (readUInt16LE_field commandParams 14) in Hh. subst high.
  cbv zeta in Hmax. injection Hmax as <-. cbn [int_of default from_option id].
  pose proof (field_bound commandParams 14 2 Hb) as Hf.
  rewrite Z.shiftl_mul_pow2 by lia. change (2 ^ 16) with 65536.
  destruct (Z.ltb_spec (field commandParams 14 2 * 65536) (2 ^ 31)); lia.
- intros Hh21. rewrite Hlen24 in Hhigh. cbn [Z.eqb Z.of_nat Pos.of_succ_nat Pos.succ Pos.eqb] in Hhigh.
  apply (readUInt32LE_field commandParams 20) in Hhigh. subst offsetHigh.
  pose proof (field_bound commandParams 20 4 Hb) as Hf20.
  pose proof (field_bound commandParams 6 4 Hb) as Hf6.
  subst position. cbn [int_of default from_option id].
  destruct (Z.eqb_spec (field commandParams 20 4) 0) as [E|E]; cbn [negb].
  + rewrite E. f_equal. lia.
  + f_equal. apply toNumber_Long; [|lia]. change (256 ^ Z.of_nat 4) with (2 ^ 32) in Hf6. lia.
Qed.

(** X21.  A TRANS2 set-file-information result with STATUS_SUCCESS never
    carries data, and comes from at most one operation on the backend.  Its
    [params] is the status number itself, not a buffer, unless the request
    was a rename, whose result has the empty buffer. *)
Theorem trans2_success_carries_status_as_params
    (tid : Z) (commandParams commandData : bytes) (commandDataOffset : Z)
    (effects : list Effect) (r : Result) :
  trans2_set_fs_information_handle SMB server getParentPath Path_join
    extractUnicodeBytes tid commandParams commandData commandDataOffset
  = (effects, Ok r) ->
  status r = STATUS_SUCCESS ->
  data r = []
  /\ (length effects <= 1)%nat
  /\ (params r = PStatus STATUS_SUCCESS
      \/ exists fid path, effects = [Rename fid path] /\ params r = PBuffer []).
Proof.
unfold trans2_set_fs_information_handle. intros Hrun Hok.
destruct (readUInt16LE commandParams 0) as [fid|]; [|discriminate Hrun].
destruct (readUInt16LE commandParams 2) as [level|]; [|discriminate Hrun].
destruct (level <? INFO_PASSTHROUGH SMB).
{ injection Hrun as <- <-. discriminate Hok. }
destruct (getTree server tid) as [tree|].
2:{ injection Hrun as <- <-. discriminate Hok. }
destruct (getFile tree fid) as [file|].
2:{ injection Hrun as <- <-. discriminate Hok. }
destruct (level =? FILE_DISPOSITION_INFORMATION SMB).
{ destruct (readUInt8 commandData 0) as [pending|]; [|discriminate Hrun].
  injection Hrun as <- <-. split; [reflexivity|].
  split; [destruct (negb _); cbn; lia|by left]. }
destruct (level =? FILE_END_OF_FILE_INFORMATION SMB).
{ destruct (read_u64 commandData) as [endOfFile|]; [|discriminate Hrun].
  injection Hrun as <- <-. unfold set_length_result in *.
  destruct (setLength file endOfFile) as [err|].
  - cbn in Hok. by apply CmdFacts.status_or_unsuccessful_fails in Hok.
  - split; [reflexivity|]. split; [cbn; lia|by left]. }
destruct (level =? FILE_ALLOCATION_INFORMATION SMB).
{ destruct (read_u64 commandData) as [allocationSize|]; [|discriminate Hrun].
  destruct (_ && _).
  - injection Hrun as <- <-. unfold set_length_result in *.
    destruct (setLength file 0) as [err|].
    + cbn in Hok. by apply CmdFacts.status_or_unsuccessful_fails in Hok.
    + split; [reflexivity|]. split; [cbn; lia|by left].
  - injection Hrun as <- <-. split; [reflexivity|]. split; [cbn; lia|by left]. }
destruct (level =? FILE_RENAME_INFORMATION SMB).
{ destruct (readUInt8 commandData _) as [replaceIfExists|]; [|discriminate Hrun].
  destruct (readUInt32LE commandData _) as [rootDirectory|]; [|discriminate Hrun].
  destruct (readUInt32LE commandData _) as [fileNameLength|]; [|discriminate Hrun].
  destruct (extractUnicodeBytes commandData _) as [nameBytes|]; [|discriminate Hrun].
  injection Hrun as <- <-. split; [reflexivity|]. split; [cbn; lia|].
  right. eexists _, _. split; reflexivity. }
injection Hrun as <- <-. discriminate Hok.
Qed.

(** X22.  In the parameters of an NT_CREATE_ANDX response, whether
    extended or not, the FID of the file opened is the 16-bit field at
    byte 5, the create action the 32-bit field at byte 7, the allocation
    size and the end of file the 64-bit fields at bytes 47 and 55, and the
    directory flag the byte 67: each holds the value the File gave, cut to
    the width of the field. *)
Theorem nt_create_andx_response_fields
    (flags : Z) (commandParams : bytes) (file : File) (r : Result) :
  buildResult SMB flags commandParams file = Ok r ->
  exists p : bytes,
    params r = PBuffer p
    /\ status r = STATUS_SUCCESS /\ data r = []
    /\ field p 5 2 = fid file mod 2 ^ 16
    /\ field p 7 4 = getCreateAction file mod 2 ^ 32
    /\ field p 47 8 = getAllocationSize file mod 2 ^ 64
    /\ field p 55 8 = getDataSize file mod 2 ^ 64
    /\ field p 67 1 = if isDirectory file then 1 else 0.
Proof.
unfold buildResult. intros Hbuild.
destruct (readUInt8 commandParams 0) as [next|]; [|discriminate Hbuild].
destruct (readUInt16LE commandParams 2) as [nextOffset|]; [|discriminate Hbuild].
cbn [mbind result_bind] in Hbuild.
exists (build_params SMB flags next nextOffset file).
split; [by destruct (_ >? _); injection Hbuild as <-|].
split; [by destruct (_ >? _); injection Hbuild as <-|].
split; [by destruct (_ >? _); injection Hbuild as <-|].
clear Hbuild.
split; [|split; [|split; [|split]]].
- eapply (field_in _ (word8 next ++ word8 0 ++ word16le nextOffset ++ word8 _));
    [|reflexivity].
  unfold build_params. rewrite <- !app_assoc. reflexivity.
- eapply (field_in _ (word8 next ++ word8 0 ++ word16le nextOffset ++ word8 _
                      ++ word16le (fid file))); [|reflexivity].
  unfold build_params. rewrite <- !app_assoc. reflexivity.
- eapply (field_in _ (word8 next ++ word8 0 ++ word16le nextOffset ++ word8 _
                      ++ word16le (fid file) ++ word32le (getCreateAction file)
                      ++ smb_time_words (getCreatedTime file)
                      ++ smb_time_words (getLastAccessedTime file)
                      ++ smb_time_words (getLastModifiedTime file)
                      ++ smb_time_words (getLastChangedTime file)
                      ++ word32le (getAttributes file))); [|reflexivity].
  unfold build_params. rewrite <- !app_assoc. reflexivity.
- eapply (field_in _ (word8 next ++ word8 0 ++ word16le nextOffset ++ word8 _
                      ++ word16le (fid file) ++ word32le (getCreateAction file)
                      ++ smb_time_words (getCreatedTime file)
                      ++ smb_time_words (getLastAccessedTime file)
                      ++ smb_time_words (getLastModifiedTime file)
                      ++ smb_time_words (getLastChangedTime file)
                      ++ word32le (getAttributes file)
                      ++ word64le (getAllocationSize file))); [|reflexivity].
  unfold build_params. rewrite <- !app_assoc. reflexivity.
- transitivity ((if isDirectory file then 1 else 0) mod 256 ^ Z.of_nat 1);
    [|by destruct (isDirectory file)].
  unfold build_params.
  destruct (truthy (Z.land flags NT_CREATE_REQUEST_EXTENDED_RESPONSE)).
  + eapply (field_in _ (word8 next ++ word8 0 ++ word16le nextOffset ++ word8 _
                        ++ word16le (fid file) ++ word32le (getCreateAction file)
                        ++ smb_time_words (getCreatedTime file)
                        ++ smb_time_words (getLastAccessedTime file)
                        ++ smb_time_words (getLastModifiedTime file)
                        ++ smb_time_words (getLastChangedTime file)
                        ++ word32le (getAttributes file)
                        ++ word64le (getAllocationSize file)
                        ++ word64le (getDataSize file)
                        ++ word16le _ ++ word16le _)); [|reflexivity].
    rewrite <- !app_assoc. reflexivity.
  + eapply (field_in _ (word8 next ++ word8 0 ++ word16le nextOffset ++ word8 _
                        ++ word16le (fid file) ++ word32le (getCreateAction file)
                        ++ smb_time_words (getCreatedTime file)
                        ++ smb_time_words (getLastAccessedTime file)
                        ++ smb_time_words (getLastModifiedTime file)
                        ++ smb_time_words (getLastChangedTime file)
                        ++ word32le (getAttributes file)
                        ++ word64le (getAllocationSize file)
                        ++ word64le (getDataSize file)
                        ++ word16le _ ++ word16le _) []); [|reflexivity].
    rewrite <- !app_assoc, app_nil_r. reflexivity.
Qed.

End Handlers.

Lemma bad_fid_preflight_witness :
  close_handle sample_server 1 (close_params 2 0) []
  = ([], Ok (empty_result STATUS_SMB_BAD_FID))
  /\ read_andx_handle sample_server node_kMaxLength 1 (read_andx_params 2 0 16 0) []
     = ([], Ok (empty_result STATUS_SMB_BAD_FID))
  /\ trans2_set_fs_information_handle ms_smb_constants sample_server
       (fun p => p) (fun a b => a ++ b) sample_extractUnicodeBytes
       1 [0x02; 0x00; 0xf5; 0x03; 0x00; 0x00] [0x01] 0
     = ([], Ok (empty_result STATUS_SMB_BAD_FID)).
Proof.
destruct (bad_fid_preflight ms_smb_constants sample_server (fun p => p) (fun a b => a ++ b)
            sample_extractUnicodeBytes node_kMaxLength 1 sample_tree (close_params 2 0) [] 0 eq_refl)
  as (Hclose & _ & _).
destruct (bad_fid_preflight ms_smb_constants sample_server (fun p => p) (fun a b => a ++ b)
            sample_extractUnicodeBytes node_kMaxLength 1 sample_tree (read_andx_params 2 0 16 0) [] 0 eq_refl)
  as (_ & Hread & _).
destruct (bad_fid_preflight ms_smb_constants sample_server (fun p => p) (fun a b => a ++ b)
            sample_extractUnicodeBytes node_kMaxLength 1 sample_tree
            [0x02; 0x00; 0xf5; 0x03; 0x00; 0x00] [0x01] 0 eq_refl)
  as (_ & _ & Hset).
split; [|split].
- apply (Hclose 2); [unfold close_well_formed; simpl; lia|reflexivity|reflexivity].
- apply Hread; [intros _; simpl; lia|reflexivity].
- apply (Hset 2 0x03f5); [reflexivity|reflexivity|simpl; lia|reflexivity].
Defined.

Lemma close_closes_once_witness :
  close_handle sample_server 1 (close_params 1 5) []
  = ((if bool_decide (5 = 0 \/ 5 = 0xffffffff) then []
      else [SetLastModifiedTime 1 (5 * 1000)]) ++ [CloseFile 1],
     Ok (empty_result (match closeFile sample_tree 1 with
                       | Some _ => STATUS_UNSUCCESSFUL
                       | None => STATUS_SUCCESS
                       end))).
Proof.
apply (close_closes_once sample_server 1 1 5 sample_tree sample_file []).
- lia.
- lia.
- reflexivity.
- reflexivity.
Defined.

Lemma delete_deletes_every_match_witness :
  exists s : NTSTATUS,
    delete_handle abc_server sample_extractUnicodeBytes 1
      [0x06; 0x00] [0x04; 0x00; 0x61; 0x00; 0x00; 0x00] 0
    = (ListFiles (from_utf16le [0x61; 0x00]) :: (DeleteFile <$> (fid <$> [abc_file])),
       Ok (empty_result s))
    /\ ([abc_file] = [] -> s = STATUS_NO_SUCH_FILE)
    /\ ([abc_file] <> [] ->
        (s = STATUS_SUCCESS <-> Forall (fun f => delete f = None) [abc_file])).
Proof.
apply (delete_deletes_every_match abc_server sample_extractUnicodeBytes 1 abc_tree [abc_file]
         [0x06; 0x00] [0x04; 0x00; 0x61; 0x00; 0x00; 0x00] 0 [0x61; 0x00]).
- simpl. lia.
- simpl. lia.
- reflexivity.
- reflexivity.
- reflexivity.
Defined.

Lemma abc_file_read_in_bounds : read_in_bounds abc_file.
Proof.
intros buffer offset len position bytesRead buffer'. cbn [read abc_file].
intros [= <- <-]. split; [lia|].
rewrite length_take. cbn [length app]. rewrite length_drop. lia.
Qed.

Lemma read_andx_response_witness :
  exists (file : File) (maxCount : Z) (position : option Z) (bytesRead : Z)
         (buffer p : bytes),
    getFile abc_tree (field (read_andx_params 1 5 2 0) 4 2) = Some file
    /\ 0 <= maxCount
    /\ read file (replicate (Z.to_nat maxCount) 0) 0 maxCount position
       = inr (bytesRead, buffer)
    /\ [ReadFile 1 2 (Some 5)] = [ReadFile (field (read_andx_params 1 5 2 0) 4 2) maxCount position]
    /\ params (mkResult STATUS_SUCCESS
                 (PBuffer [0xff; 0; 0; 0; 0; 0; 0; 0; 0; 0; 2; 0; 60; 0; 0; 0;
                           0; 0; 0; 0; 0; 0; 0; 0]) [0; 97; 98] None None) = PBuffer p
    /\ length p = 24%nat
    /\ data (mkResult STATUS_SUCCESS
               (PBuffer [0xff; 0; 0; 0; 0; 0; 0; 0; 0; 0; 2; 0; 60; 0; 0; 0;
                         0; 0; 0; 0; 0; 0; 0; 0]) [0; 97; 98] None None)
       = 0 :: take (Z.to_nat bytesRead) buffer
    /\ field p 10 2 + 65536 * field p 14 2 = bytesRead
    /\ field p 12 2 = DATA_OFFSET
    /\ (length (read_andx_params 1 5 2 0) = 24%nat ->
        (isNamedPipe abc_tree = true -> maxCount = field (read_andx_params 1 5 2 0) 10 2)
        /\ (isNamedPipe abc_tree = false -> field (read_andx_params 1 5 2 0) 14 2 < 2 ^ 15 ->
            maxCount = field (read_andx_params 1 5 2 0) 10 2
                       + 65536 * field (read_andx_params 1 5 2 0) 14 2)
        /\ (field (read_andx_params 1 5 2 0) 20 4 < 2 ^ 21 ->
            position = Some (field (read_andx_params 1 5 2 0) 6 4
                             + 2 ^ 32 * field (read_andx_params 1 5 2 0) 20 4))).
Proof.
apply (read_andx_response abc_server node_kMaxLength 1 abc_tree (read_andx_params 1 5 2 0) []).
- apply Forall_forall. intros x Hx. vm_compute in Hx. unfold is_byte.
  repeat (apply elem_of_cons in Hx as [->|Hx]; [lia|]). by apply elem_of_nil in Hx.
- reflexivity.
- intros fid file. cbn [getFile abc_tree]. destruct (fid =? 1); [|discriminate].
  intros [= <-]. apply abc_file_read_in_bounds.
- reflexivity.
- reflexivity.
Defined.

Lemma trans2_success_carries_status_as_params_witness :
  data success_with_status_params = []
  /\ (length [SetDeleteOnClose 1] <= 1)%nat
  /\ (params success_with_status_params = PStatus STATUS_SUCCESS
      \/ exists fid path,
           [SetDeleteOnClose 1] = [Rename fid path]
           /\ params success_with_status_params = PBuffer []).
Proof.
apply (trans2_success_carries_status_as_params ms_smb_constants sample_server
         (fun p => p) (fun a b => a ++ b) sample_extractUnicodeBytes
         1 (set_file_info_params 0x03f5) [0x01] 0).
- reflexivity.
- reflexivity.
Defined.

Lemma nt_create_andx_response_fields_witness :
  exists p : bytes,
    params (mkResult STATUS_SUCCESS
              (PBuffer (build_params ms_smb_constants 0x16 0xff 0 sample_file))
              EMPTY_BUFFER (Some 0x2a) None) = PBuffer p
    /\ status (mkResult STATUS_SUCCESS
                 (PBuffer (build_params ms_smb_constants 0x16 0xff 0 sample_file))
                 EMPTY_BUFFER (Some 0x2a) None) = STATUS_SUCCESS
    /\ data (mkResult STATUS_SUCCESS
               (PBuffer (build_params ms_smb_constants 0x16 0xff 0 sample_file))
               EMPTY_BUFFER (Some 0x2a) None) = []
    /\ field p 5 2 = fid sample_file mod 2 ^ 16
    /\ field p 7 4 = getCreateAction sample_file mod 2 ^ 32
    /\ field p 47 8 = getAllocationSize sample_file mod 2 ^ 64
    /\ field p 55 8 = getDataSize sample_file mod 2 ^ 64
    /\ field p 67 1 = if isDirectory sample_file then 1 else 0.
Proof.
apply (nt_create_andx_response_fields ms_smb_constants 0x16 (nt_create_params 0x16) sample_file).
reflexivity.
Defined.

End CmdFacts2.

Module SmbErrorFacts.
Import Status SmbError.

Section Tables.
Variable STATUS_TO_STRING : NTSTATUS -> option string.
Variable errno_table : Z -> option (string * string).

Lemma status_of_code_fails (code : option string) :
  status_of_code code STATUS_UNSUCCESSFUL <> STATUS_SUCCESS.
Proof.
unfold status_of_code. destruct code as [code|]; [|discriminate].
repeat (destruct (bool_decide _); [discriminate|]). discriminate.
Qed.

Lemma fromSystemError_status (err : SystemError) (message : option string) :
  e_status (fromSystemError STATUS_TO_STRING errno_table err message)
  = match err with
    | ErrString _ => STATUS_UNSUCCESSFUL
    | ErrObject _ errno code _ =>
      if truthy_number errno || truthy_string code then
        status_of_code (match errno ≫= errno_table with
                        | Some (_, table_code) => Some table_code
                        | None => code
                        end) STATUS_UNSUCCESSFUL
      else STATUS_UNSUCCESSFUL
    end.
Proof.
unfold fromSystemError. destruct err as [s|m errno code path]; [reflexivity|].
destruct (truthy_number errno || truthy_string code); [|reflexivity].
by destruct (errno ≫= errno_table) as [[d c]|].
Qed.

(** X23.  [SMBError.fromSystemError] never builds an error whose status is
    STATUS_SUCCESS, so a handler that reports [err.status ||
    STATUS_UNSUCCESSFUL] reports the status of the error itself; an error
    given as a string, and an error object with neither [errno] nor [code],
    always give STATUS_UNSUCCESSFUL. *)
Theorem fromSystemError_never_succeeds (err : SystemError) (message : option string) :
  e_status (fromSystemError STATUS_TO_STRING errno_table err message) <> STATUS_SUCCESS
  /\ status_or_unsuccessful
       (as_SMBError (fromSystemError STATUS_TO_STRING errno_table err message))
     = e_status (fromSystemError STATUS_TO_STRING errno_table err message)
  /\ (forall s, err = ErrString s ->
        e_status (fromSystemError STATUS_TO_STRING errno_table err message)
        = STATUS_UNSUCCESSFUL)
  /\ (forall m path, err = ErrObject m None None path ->
        e_status (fromSystemError STATUS_TO_STRING errno_table err message)
        = STATUS_UNSUCCESSFUL).
Proof.
assert (Hne : e_status (fromSystemError STATUS_TO_STRING errno_table err message)
              <> STATUS_SUCCESS).
{ rewrite fromSystemError_status. destruct err as [s|m errno code path]; [discriminate|].
  destruct (_ || _); [apply status_of_code_fails|discriminate]. }
split; [exact Hne|]. split; [|split].
- unfold status_or_unsuccessful, as_SMBError. cbn [err_status].
  by destruct (e_status _).
- intros s ->. by rewrite fromSystemError_status.
- intros m path ->. by rewrite fromSystemError_status.
Qed.

End Tables.

End SmbErrorFacts.

Module RectFacts2.
Import Rect RectSpec RectSpec2.

Lemma reads_served_app (evs1 evs2 : list Event) :
  reads_served (evs1 ++ evs2) = reads_served evs1 ++ reads_served evs2.
Proof. apply omap_app. Qed.

Lemma slice_from_0 (buf : bytes) : slice_from buf 0 = buf.
Proof.
unfold slice_from, slice, clamp_index. destruct (Z.ltb_spec 0 0); [lia|].
destruct (Z.ltb_spec (Z.of_nat (List.length buf)) 0); [lia|].
rewrite !Z.min_l by lia. change (Z.to_nat 0) with 0%nat.
rewrite drop_0, take_ge; [done|lia].
Qed.

Lemma set_tasks_same (r : Rectifier) : set_tasks r (tasks r) = r.
Proof. by destruct r. Qed.

Lemma farestChunk_one (target : Z) (w : Waiter) :
  0 <= target -> farestChunk [(target, w)] = target.
Proof. intros Ht. unfold farestChunk. cbn. lia. Qed.

(** The back-pressure step of [updateTask] while the stream is behind the
    target: nothing is paused, nothing resumed. *)
Lemma updateTask_behind (r : Rectifier) (target : Z) (w : Waiter) :
  tasks r = [(target, w)] -> paused r = false -> loaded r = false ->
  0 <= cacheSize r -> 0 <= target -> position r < target ->
  updateTask r = Ok (r, []).
Proof.
intros Htasks Hpaused Hloaded Hcache Ht Hpos. unfold updateTask.
rewrite Htasks, farestChunk_one by done.
destruct (Z.gtb_spec (position r - target) (cacheSize r)); [lia|].
assert (Hstep : (if Qltb (inject_Z (position r - target)) (inject_Z (cacheSize r) / 5)%Q
                 then if paused r
                      then r0 ← with_req r req_resume; Ok (set_paused r0 false, [EvResume])
                      else Ok (r, [])
                 else Ok (r, [])) = Ok (r, [])).
{ rewrite Hpaused. by destruct (Qltb _ _). }
rewrite Hstep. cbn [mbind result_bind run_tasks].
destruct (Z.leb_spec target (position r)); [lia|].
rewrite Hloaded. destruct (target >? size r); cbn; rewrite <- Htasks, set_tasks_same; done.
Qed.

(** A chunk that leaves the stream behind the target is queued, and that
    is all. *)
Lemma on_data_behind (r : Rectifier) (start target : Z) (w : Waiter) (stream chunk : bytes) :
  feeding r start target w stream -> Forall is_byte chunk -> 0 <= start ->
  start + Z.of_nat (List.length (stream ++ chunk)) < target ->
  exists r', on_data r chunk = Ok (r', []) /\ feeding r' start target w (stream ++ chunk)
             /\ size r' = size r.
Proof.
intros [Hb Hby Hl Hp Ht Hpa Hlo Hreq Hc] Hchunk Hstart Hlt.
rewrite length_app in Hlt.
unfold on_data. rewrite slice_from_0.
eexists. split; [apply updateTask_behind with (target := target) (w := w)|].
- exact Ht.
- exact Hpa.
- exact Hlo.
- exact Hc.
- lia.
- simpl. lia.
- split; [|reflexivity]. split; simpl.
  + by rewrite concat_app, Hb; cbn; rewrite app_nil_r.
  + apply Forall_app. split; [done|]. by constructor.
  + rewrite Hl, length_app. lia.
  + rewrite Hp, length_app. lia.
  + exact Ht.
  + exact Hpa.
  + exact Hlo.
  + exact Hreq.
  + exact Hc.
Qed.

(** The loop of [updateTask] over the one task, once the stream has
    reached its target: the waiter is called and reads its bytes. *)
Lemma run_tasks_serves (r : Rectifier) (p sz target len pos : Z) (buffer : bytes) (cb : nat) :
  length_invariant r -> Forall (Forall is_byte) (buffers r) ->
  0 < len -> len <= Rect.length r -> (Z.to_nat len <= List.length buffer)%nat ->
  target <= p ->
  exists r',
    run_tasks p sz [(target, read_waiter buffer len pos cb)] r
    = (r', [],
       [EvWaiter target (read_waiter buffer len pos cb);
        EvRead cb len (take (Z.to_nat len) (concat (buffers r)) ++ drop (Z.to_nat len) buffer)])
    /\ concat (buffers r') = drop (Z.to_nat len) (concat (buffers r)).
Proof.
intros Hinv Hby Hlen Hle Hbuf Htp.
destruct (RectReadFacts.read_from_start r buffer len pos cb Hinv Hby Hlen) as (r' & Hread & Hc & _).
- lia.
- rewrite Z.min_l by lia. exact Hbuf.
- rewrite Z.min_l in Hread, Hc by lia.
  exists r'. cbn [run_tasks]. destruct (Z.leb_spec target p); [|lia].
  unfold call_waiter, read_waiter. cbn [w_buffer w_offset w_length w_position w_cb].
  rewrite Hread. split; [reflexivity|exact Hc].
Qed.

(** The chunk with which the stream reaches the target: the read is
    served, once, with the first bytes of the stream. *)
Lemma on_data_reaches (r : Rectifier) (start target len pos : Z) (buffer : bytes) (cb : nat)
    (stream chunk : bytes) :
  feeding r start target (read_waiter buffer len pos cb) stream ->
  Forall is_byte chunk -> 0 <= target -> 0 < len ->
  len <= Z.of_nat (List.length (stream ++ chunk)) ->
  target <= start + Z.of_nat (List.length (stream ++ chunk)) ->
  (Z.to_nat len <= List.length buffer)%nat ->
  exists r' evs,
    on_data r chunk = Ok (r', evs)
    /\ reads_served evs
       = [(cb, len, take (Z.to_nat len) (stream ++ chunk) ++ drop (Z.to_nat len) buffer)]
    /\ waiters_invoked evs = [(target, read_waiter buffer len pos cb)]
    /\ requests_made evs = []
    /\ tasks r' = []
    /\ concat (buffers r') = drop (Z.to_nat len) (stream ++ chunk).
Proof.
intros [Hb Hby Hl Hp Ht Hpa Hlo [q Hreq] Hc] Hchunk Htarget Hlen Hle Hreach Hbuf.
rewrite length_app in Hle, Hreach.
unfold on_data. rewrite slice_from_0.
set (r1 := set_position _ _).
assert (Hcat : concat (buffers r1) = stream ++ chunk)
  by (simpl; by rewrite concat_app, Hb; cbn; rewrite app_nil_r).
assert (Hby1 : Forall (Forall is_byte) (buffers r1))
  by (simpl; apply Forall_app; split; [done|by constructor]).
assert (Hl1 : Rect.length r1 = Z.of_nat (List.length (stream ++ chunk)))
  by (simpl; rewrite Hl, length_app; lia).
assert (Hp1 : position r1 = start + Z.of_nat (List.length (stream ++ chunk)))
  by (simpl; rewrite Hp, length_app; lia).
rewrite length_app in Hl1, Hp1.
unfold updateTask.
replace (tasks r1) with [(target, read_waiter buffer len pos cb)] by (by rewrite <- Ht).
rewrite farestChunk_one by done.
assert (Hstep : exists r2 ev0,
  (if position r1 - target >? cacheSize r1
   then r0 ← with_req r1 req_pause; Ok (set_paused r0 true, [EvPause])
   else if Qltb (inject_Z (position r1 - target)) (inject_Z (cacheSize r1) / 5)%Q
        then if paused r1
             then r0 ← with_req r1 req_resume; Ok (set_paused r0 false, [EvResume])
             else Ok (r1, [])
        else Ok (r1, [])) = Ok (r2, ev0)
  /\ buffers r2 = buffers r1 /\ Rect.length r2 = Rect.length r1
  /\ reads_served ev0 = [] /\ waiters_invoked ev0 = [] /\ requests_made ev0 = []).
{ destruct (position r1 - target >? cacheSize r1).
  - unfold with_req. replace (req r1) with (Some q) by (by rewrite <- Hreq).
    cbn [mbind result_bind]. eexists _, _. split; [reflexivity|]. by repeat split.
  - replace (paused r1) with false by (by rewrite <- Hpa).
    destruct (Qltb _ _); eexists _, _; (split; [reflexivity|]); by repeat split. }
destruct Hstep as (r2 & ev0 & -> & Hb2 & Hl2 & Hr0 & Hw0 & Hq0).
cbn [mbind result_bind].
destruct (run_tasks_serves r2 (position r1) (size r1) target len pos buffer cb)
  as (r' & Hrun & Hcat').
- unfold length_invariant. rewrite Hl2, Hb2, Hl1, Hcat, length_app. lia.
- by rewrite Hb2.
- done.
- rewrite Hl2, Hl1. lia.
- done.
- lia.
- rewrite Hrun. eexists _, _. split; [reflexivity|].
  rewrite reads_served_app, RectFacts.waiters_invoked_app, RectFacts.requests_made_app.
  rewrite Hr0, Hw0, Hq0, Hb2, Hcat. cbn [app]. repeat split; try reflexivity.
  change (buffers (set_tasks r' [])) with (buffers r').
  by rewrite Hcat', Hb2, Hcat.
Qed.

(** The chunks that leave the stream behind the target, one after the
    other. *)
Lemma run_data_behind (before : list bytes) :
  forall (r : Rectifier) (start target : Z) (w : Waiter) (stream : bytes),
    feeding r start target w stream -> Forall (Forall is_byte) before -> 0 <= start ->
    start + Z.of_nat (List.length (stream ++ concat before)) < target ->
    exists r', run r (OpData <$> before) = Ok (r', [])
               /\ feeding r' start target w (stream ++ concat before)
               /\ size r' = size r.
Proof.
induction before as [|chunk before IH]; intros r start target w stream Hf Hby Hstart Hlt.
- exists r. cbn [concat]. rewrite app_nil_r.
  split; [reflexivity|]. split; [exact Hf|reflexivity].
- apply Forall_cons in Hby as [Hchunk Hby].
  cbn [concat] in Hlt. rewrite app_assoc in Hlt.
  destruct (on_data_behind r start target w stream chunk Hf Hchunk Hstart)
    as (r1 & Hdata & Hf1 & Hsz1).
  { rewrite length_app in Hlt. lia. }
  destruct (IH r1 start target w (stream ++ chunk) Hf1 Hby Hstart Hlt)
    as (r' & Hrun & Hf' & Hsz').
  exists r'. cbn [fmap list_fmap run step].
  destruct Hf as [_ _ _ _ _ _ _ [q Hreq] _]. rewrite Hreq, Hdata.
  cbn [mbind result_bind]. change (list_fmap _ _ OpData before) with (OpData <$> before).
  rewrite Hrun. cbn [mbind result_bind app].
  split; [reflexivity|]. split; [|congruence].
  cbn [concat]. by rewrite app_assoc.
Qed.

Lemma run_app (ops1 ops2 : list Op) :
  forall r : Rectifier,
    run r (ops1 ++ ops2)
    = '(r1, ev1) ← run r ops1; '(r2, ev2) ← run r1 ops2; Ok (r2, ev1 ++ ev2).
Proof.
induction ops1 as [|op ops1 IH]; intros r.
- cbn. by destruct (run r ops2) as [[r2 ev2]|].
- cbn [app run]. destruct (step r op) as [[r1 ev1]|]; [|reflexivity].
  cbn [mbind result_bind]. rewrite IH.
  destruct (run r1 ops1) as [[r2 ev2]|]; [|reflexivity]. cbn [mbind result_bind].
  destruct (run r2 ops2) as [[r3 ev3]|]; [|reflexivity]. cbn [mbind result_bind].
  by rewrite app_assoc.
Qed.

(** [readFile] on a file served by URL: a Rectifier of its own for the
    read, one request, and the waiter left pending. *)
Lemma readFile_url_feeding (size pos len : Z) (buffer : bytes) (cb : nat) :
  0 <= pos -> 0 < len ->
  exists r0,
    readFile_url size buffer 0 len pos cb = Ok (r0, [EvRequest])
    /\ feeding r0 pos (pos + len) (read_waiter buffer len pos cb) []
    /\ position r0 = pos.
Proof.
intros Hpos Hlen. unfold readFile_url, when. cbn [closed constructor].
change (running (set_tasks (constructor size pos) _)) with false.
cbn [negb start tasks constructor app].
set (r0 := set_running _ true).
assert (Hup : updateTask r0 = Ok (r0, [])).
{ apply updateTask_behind with (target := pos + len) (w := read_waiter buffer len pos cb);
    try reflexivity; simpl; lia. }
rewrite Hup. cbn [mbind result_bind app]. exists r0. split; [reflexivity|].
split; [|reflexivity]. split; try reflexivity; simpl; try lia; eauto.
Qed.

(** The stream as the read sees it: after the response, the chunks that
    leave it behind the target are queued; the chunk with which it reaches
    the target serves the read. *)
Lemma read_served_by_stream (size pos len status : Z) (buffer : bytes) (cb : nat)
    (before : list bytes) (last : bytes) :
  0 <= pos -> 0 < len -> (Z.to_nat len <= List.length buffer)%nat ->
  Forall (Forall is_byte) before -> Forall is_byte last ->
  let start := if status =? 206 then pos else 0 in
  start + Z.of_nat (List.length (concat before)) < pos + len ->
  pos + len <= start + Z.of_nat (List.length (concat before ++ last)) ->
  exists r0 r1 r2 evs,
    readFile_url size buffer 0 len pos cb = Ok (r0, [EvRequest])
    /\ run r0 (OpResponse status :: (OpData <$> before)) = Ok (r1, [])
    /\ run r0 (OpResponse status :: (OpData <$> (before ++ [last]))) = Ok (r2, evs)
    /\ reads_served evs
       = [(cb, len, take (Z.to_nat len) (concat before ++ last) ++ drop (Z.to_nat len) buffer)]
    /\ tasks r2 = []
    /\ concat (buffers r2) = drop (Z.to_nat len) (concat before ++ last).
Proof.
intros Hpos Hlen Hbuf Hby Hlast start Hlt Hge.
destruct (readFile_url_feeding size pos len buffer cb Hpos Hlen) as (r0 & Hread & Hf0 & Hp0).
assert (Hstart : 0 <= start <= pos) by (unfold start; destruct (status =? 206); lia).
assert (Hf : feeding (on_response r0 status) start (pos + len)
               (read_waiter buffer len pos cb) []).
{ destruct Hf0 as [Hb Hbb Hl Hp Ht Hpa Hlo Hreq Hc].
  unfold on_response, start. destruct (status =? 206); cbn [negb]; [by split|].
  split; simpl; try done. }
destruct (run_data_behind before (on_response r0 status) start (pos + len)
            (read_waiter buffer len pos cb) [] Hf Hby) as (r1 & Hrun1 & Hf1 & _);
  [lia|exact Hlt|]. cbn [app] in Hf1.
destruct (on_data_reaches r1 start (pos + len) len pos buffer cb (concat before) last Hf1 Hlast)
  as (r2 & evs & Hdata & Hreads & _ & _ & Htasks & Hcat); [lia|lia| |exact Hge|exact Hbuf|].
{ rewrite length_app in *. lia. }
assert (Hresp : step r0 (OpResponse status) = Ok (on_response r0 status, [])).
{ destruct Hf0 as [_ _ _ _ _ _ _ [q Hreq] _]. cbn [step]. by rewrite Hreq. }
exists r0, r1, r2, evs. split; [exact Hread|]. split; [|split].
- cbn [run]. rewrite Hresp. cbn [mbind result_bind]. rewrite Hrun1. reflexivity.
- cbn [run]. rewrite Hresp. cbn [mbind result_bind].
  rewrite fmap_app, run_app, Hrun1. cbn [mbind result_bind fmap list_fmap run step].
  destruct Hf1 as [_ _ _ _ _ _ _ [q Hreq] _]. rewrite Hreq, Hdata.
  cbn [mbind result_bind app]. by rewrite app_nil_r.
- by repeat split.
Qed.

(** X24.  A read of [len] bytes at [pos] of a file served by URL, when the
    server honours the range (status 206): the one request is made, nothing
    is handed to the caller while fewer than [len] bytes have arrived, and
    with the chunk that completes them the callback is called once, with
    [len] and the first [len] bytes of the stream at the start of the
    buffer; what is left of the stream stays queued. *)
Theorem ranged_read_is_served_once (size pos len : Z) (buffer : bytes) (cb : nat)
    (before : list bytes) (last : bytes) :
  0 <= pos -> 0 < len -> (Z.to_nat len <= List.length buffer)%nat ->
  Forall (Forall is_byte) before -> Forall is_byte last ->
  Z.of_nat (List.length (concat before)) < len ->
  len <= Z.of_nat (List.length (concat before ++ last)) ->
  exists r0 r1 r2 evs,
    readFile_url size buffer 0 len pos cb = Ok (r0, [EvRequest])
    /\ run r0 (OpResponse 206 :: (OpData <$> before)) = Ok (r1, [])
    /\ run r0 (OpResponse 206 :: (OpData <$> (before ++ [last]))) = Ok (r2, evs)
    /\ reads_served evs
       = [(cb, len, take (Z.to_nat len) (concat before ++ last) ++ drop (Z.to_nat len) buffer)]
    /\ tasks r2 = []
    /\ concat (buffers r2) = drop (Z.to_nat len) (concat before ++ last).
Proof.
intros Hpos Hlen Hbuf Hby Hlast Hlt Hge.
apply (read_served_by_stream size pos len 206 buffer cb before last); try done; cbn; lia.
Qed.

(** X25.  When the server does not honour the range (a status other than
    206), the Rectifier restarts its count at 0 but keeps the target of the
    read at [pos + len]: the read is served only once [pos + len] bytes
    have arrived, and then with the first [len] bytes of the stream, which
    are the bytes of the file from offset 0, not from [pos]. *)
Theorem unranged_read_gets_the_head_of_the_file (size pos len status : Z) (buffer : bytes)
    (cb : nat) (before : list bytes) (last : bytes) :
  status <> 206 ->
  0 <= pos -> 0 < len -> (Z.to_nat len <= List.length buffer)%nat ->
  Forall (Forall is_byte) before -> Forall is_byte last ->
  Z.of_nat (List.length (concat before)) < pos + len ->
  pos + len <= Z.of_nat (List.length (concat before ++ last)) ->
  exists r0 r1 r2 evs,
    readFile_url size buffer 0 len pos cb = Ok (r0, [EvRequest])
    /\ run r0 (OpResponse status :: (OpData <$> before)) = Ok (r1, [])
    /\ run r0 (OpResponse status :: (OpData <$> (before ++ [last]))) = Ok (r2, evs)
    /\ reads_served evs
       = [(cb, len, take (Z.to_nat len) (concat before ++ last) ++ drop (Z.to_nat len) buffer)]
    /\ tasks r2 = []
    /\ concat (buffers r2) = drop (Z.to_nat len) (concat before ++ last).
Proof.
intros Hstatus Hpos Hlen Hbuf Hby Hlast Hlt Hge.
apply (read_served_by_stream size pos len status buffer cb before last); try done;
  destruct (Z.eqb_spec status 206); try done; cbn; lia.
Qed.

Lemma ranged_read_is_served_once_witness :
  exists r0 r1 r2 evs,
    readFile_url 100 [0; 0] 0 2 10 7 = Ok (r0, [EvRequest])
    /\ run r0 (OpResponse 206 :: (OpData <$> [[1]])) = Ok (r1, [])
    /\ run r0 (OpResponse 206 :: (OpData <$> ([[1]] ++ [[2; 3]]))) = Ok (r2, evs)
    /\ reads_served evs
       = [(7%nat, 2, take (Z.to_nat 2) (concat [[1]] ++ [2; 3]) ++ drop (Z.to_nat 2) [0; 0])]
    /\ tasks r2 = []
    /\ concat (buffers r2) = drop (Z.to_nat 2) (concat [[1]] ++ [2; 3]).
Proof.
apply (ranged_read_is_served_once 100 10 2 [0; 0] 7 [[1]] [2; 3]).
- lia.
- lia.
- simpl. lia.
- repeat constructor; unfold is_byte; lia.
- repeat constructor; unfold is_byte; lia.
- simpl. lia.
- simpl. lia.
Defined.

Lemma unranged_read_gets_the_head_of_the_file_witness :
  exists r0 r1 r2 evs,
    readFile_url 100 [0; 0] 0 2 10 7 = Ok (r0, [EvRequest])
    /\ run r0 (OpResponse 200 :: (OpData <$> [[1; 2; 3; 4; 5; 6; 7; 8]])) = Ok (r1, [])
    /\ run r0 (OpResponse 200
                 :: (OpData <$> ([[1; 2; 3; 4; 5; 6; 7; 8]] ++ [[9; 10; 11; 12; 13]])))
       = Ok (r2, evs)
    /\ reads_served evs
       = [(7%nat, 2,
           take (Z.to_nat 2) (concat [[1; 2; 3; 4; 5; 6; 7; 8]] ++ [9; 10; 11; 12; 13])
           ++ drop (Z.to_nat 2) [0; 0])]
    /\ tasks r2 = []
    /\ concat (buffers r2)
       = drop (Z.to_nat 2) (concat [[1; 2; 3; 4; 5; 6; 7; 8]] ++ [9; 10; 11; 12; 13]).
Proof.
apply (unranged_read_gets_the_head_of_the_file 100 10 2 200 [0; 0] 7
         [[1; 2; 3; 4; 5; 6; 7; 8]] [9; 10; 11; 12; 13]).
- lia.
- lia.
- lia.
- simpl. lia.
- repeat constructor; unfold is_byte; lia.
- repeat constructor; unfold is_byte; lia.
- simpl. lia.
- simpl. lia.
Defined.

End RectFacts2.

Module SharelistFsFacts.
Import Status Rect RectSpec Sharelist SmbError SharelistFs.

Section Prototype.
Variable inherited : string -> option Inherited.

(** The constructor on a plain key: the counter of the path goes up by
    one, from 0 when the Array has no such property or holds NaN there;
    nothing else of the Array changes. *)
Lemma FSFile_new_plain (b : Backend) (path type : string) (size : Z) :
  plain_key inherited path ->
  FSFile_new inherited b path type size
  = (mkBackend
       (mkCountArray (<[path := Int (count_of (fileCount b) path + 1)]> (a_own (fileCount b)))
          (a_length (fileCount b)))
       (files b ++ [mkFSFile path type size path false]),
     Ok (mkFSFile path type size path false)).
Proof.
intros (Hlen & Hidx & Hinh). unfold FSFile_new, array_get, array_set, count_of.
rewrite !bool_decide_eq_false_2 by done. rewrite Hidx, Hinh.
destruct (a_own (fileCount b) !! path) as [[n|]|] eqn:Hown; cbn [ToBoolean ToNumber negb].
- destruct (Z.eqb_spec n 0) as [->|Hn]; cbn [negb].
  + cbn [a_own a_length]. rewrite lookup_insert_eq. cbn [ToNumber num_add].
    by rewrite insert_insert_eq.
  + rewrite ?Hown. cbn [ToNumber num_add]. reflexivity.
- cbn [a_own a_length]. rewrite lookup_insert_eq. cbn [ToNumber num_add].
  by rewrite insert_insert_eq.
- cbn [a_own a_length]. rewrite lookup_insert_eq. cbn [ToNumber num_add].
  by rewrite insert_insert_eq.
Qed.

Lemma count_of_insert (a : CountArray) (path name : string) (n len : Z) :
  count_of (mkCountArray (<[path := Int n]> (a_own a)) len) name
  = if bool_decide (path = name) then n else count_of a name.
Proof.
unfold count_of. cbn [a_own]. destruct (decide (path = name)) as [->|Hne].
- by rewrite lookup_insert_eq, bool_decide_eq_true_2.
- by rewrite lookup_insert_ne, bool_decide_eq_false_2.
Qed.

(** The constructor on a name the prototype chain defines as a method, as
    [constructor]: the function read is truthy, so that the counter is not
    set to 0, and its increment stores NaN. *)
Lemma FSFile_new_method_name (b : Backend) (path type : string) (size : Z) :
  path <> "length" -> array_index path = None ->
  inherited path = Some method -> a_own (fileCount b) !! path = None ->
  a_own (fileCount (FSFile_new inherited b path type size).1) !! path = Some NaN
  /\ (FSFile_new inherited b path type size).2 = Ok (mkFSFile path type size path false).
Proof.
intros Hlen Hidx Hinh Hown. unfold FSFile_new, array_get, array_set.
rewrite !bool_decide_eq_false_2 by done. rewrite Hown, Hinh, Hidx.
cbn [ToBoolean ToNumber i_truthy i_number i_assign method negb num_add].
rewrite !Hown. cbn [ToNumber i_number method num_add fst snd fileCount a_own].
by rewrite lookup_insert_eq.
Qed.

Lemma new_children_spec (children : list Child) :
  Forall (fun i => plain_key inherited (c_name i)) children ->
  forall b : Backend,
    exists (b' : Backend) (files : list FSFile),
      new_children inherited b children = (b', Ok files)
      /\ filePath <$> files = c_name <$> children
      /\ forall name,
           count_of (fileCount b') name
           = count_of (fileCount b) name + times_listed name children.
Proof.
induction 1 as [|i children Hi _ IH]; intros b.
- exists b, []. split; [reflexivity|]. split; [reflexivity|].
  intros name. unfold times_listed. cbn. lia.
- cbn [new_children]. rewrite (FSFile_new_plain b _ _ _ Hi).
  match goal with
  | |- context [new_children inherited ?b1 children] =>
    destruct (IH b1) as (b2 & ks & Hnew & Hnames & Hcount)
  end.
  rewrite Hnew. exists b2, (mkFSFile (c_name i) (c_type i) (c_size i) (c_name i) false :: ks).
  split; [reflexivity|]. split; [cbn; by rewrite Hnames|].
  intros name. rewrite Hcount. cbn [fileCount]. rewrite count_of_insert.
  unfold times_listed. rewrite filter_cons.
  destruct (decide (c_name i = name)) as [Heq|Hne].
  + rewrite bool_decide_eq_true_2 by done. rewrite Heq. cbn [List.length]. lia.
  + rewrite bool_decide_eq_false_2 by done. lia.
Qed.

End Prototype.

Section Instance.
Variable ls : string -> option Resp.
Variable STATUS_TO_STRING : NTSTATUS -> option string.
Variable errno_table : Z -> option (string * string).
Variable rejection_text : string.
Variable exception_text : exn -> string.
Variable inherited : string -> option Inherited.

(** X26.  [list] on a pattern that ends in "/*", when the listing of the
    parent resolves with children whose names are plain keys of the Array
    of counters (none is [length], an element index, or a name the
    prototype chain of an Array defines): the callback is given one file
    per child, in order, each under the bare name of the child, and the
    counter of open files of every name goes up by the number of children
    that bear it; nothing in [list] takes it down again. *)
Theorem list_counts_every_child (b : Backend) (pattern : string) (cb : nat)
    (resp : Resp) (children : list Child) :
  endsWith pattern "/*" = true ->
  ls (strip_wildcard pattern) = Some resp ->
  resp_children resp = Some children ->
  Forall (fun i => plain_key inherited (c_name i)) children ->
  exists (b' : Backend) (files : list FSFile),
    FSTree_list ls inherited b pattern cb
    = (b', [SetRuntime (basePath pattern); Ls (strip_wildcard pattern); ListCb cb files])
    /\ filePath <$> files = c_name <$> children
    /\ forall name,
         count_of (fileCount b') name
         = count_of (fileCount b) name + times_listed name children.
Proof.
intros Hends Hls Hch Hplain. unfold FSTree_list. rewrite Hends, Hls, Hch.
destruct (new_children_spec inherited children Hplain b) as (b' & files & -> & Hnames & Hcount).
exists b', files. by repeat split.
Qed.

(** X27.  [open] on a folder, or on an entry with a body, hands its
    callback an error whose status is STATUS_UNSUCCESSFUL, and so does a
    rejected listing; the counters of open files are left alone. *)
Theorem open_refuses_folders (b : Backend) (name : string) (cb : nat) :
  (forall resp, ls name = Some resp -> resp_type resp = "folder" \/ resp_body resp = true) ->
  exists err : Error,
    (FSTree_open ls STATUS_TO_STRING errno_table rejection_text exception_text inherited
       b name cb).1 = b
    /\ last (FSTree_open ls STATUS_TO_STRING errno_table rejection_text exception_text
               inherited b name cb).2
       = Some (OpenCb cb (inl err))
    /\ e_status err = STATUS_UNSUCCESSFUL.
Proof.
intros Hfolder. unfold FSTree_open.
destruct (ls name) as [resp|] eqn:Hls.
- destruct (Hfolder resp eq_refl) as [Ht|Hb].
  + rewrite bool_decide_eq_true_2 by done. cbn [negb andb].
    eexists. split; [reflexivity|]. split; [reflexivity|].
    apply SmbErrorFacts.fromSystemError_status.
  + rewrite Hb, andb_false_r.
    eexists. split; [reflexivity|]. split; [reflexivity|].
    apply SmbErrorFacts.fromSystemError_status.
- eexists. split; [reflexivity|]. split; [reflexivity|].
  apply SmbErrorFacts.fromSystemError_status.
Qed.

Variable fs_open : option Z.
Variable fs_close : Z -> option string.

(** X28.  [open] on an entry that is a file, under a name that is a plain
    key of the Array of counters, hands the callback a file object and
    takes the counter of its path up by one; [close] on that file takes it
    down again, so that open followed by close leaves every counter as it
    was.  When the file was never read, [close] does not call its callback
    at all. *)
Theorem open_then_close_restores_the_counter
    (b : Backend) (name : string) (cb cb' : nat) (resp : Resp) (outputType : option string) :
  ls name = Some resp -> resp_type resp <> "folder" -> resp_body resp = false ->
  plain_key inherited name ->
  exists (b1 : Backend) (k : FSFile) (fileCount2 : CountArray),
    FSTree_open ls STATUS_TO_STRING errno_table rejection_text exception_text inherited
      b name cb
    = (b1, [SetRuntime (basePath name); Ls name; OpenCb cb (inr k)])
    /\ count_of (fileCount b1) name = count_of (fileCount b) name + 1
    /\ FSFile_close fs_close inherited (fileCount b1) (handle_of k outputType) cb'
       = (Ok fileCount2, handle_of k outputType, [])
    /\ forall path, count_of fileCount2 path = count_of (fileCount b) path.
Proof.
intros Hls Htype Hbody Hplain. unfold FSTree_open. rewrite Hls, Hbody.
rewrite bool_decide_eq_false_2 by done. cbn [negb andb].
rewrite (FSFile_new_plain inherited b _ _ _ Hplain).
destruct Hplain as (Hlen & Hidx & Hinh).
eexists _, _, _. split; [reflexivity|]. cbn [fileCount].
split; [by rewrite count_of_insert, bool_decide_eq_true_2|].
split.
{ unfold FSFile_close, closeFile, handle_of.
  cbn [h_rectifier h_fd truthy_fd h_path realPath].
  unfold array_get, array_set. rewrite !bool_decide_eq_false_2 by done.
  cbn [a_own a_length]. rewrite lookup_insert_eq. cbn [ToNumber num_add].
  rewrite Hidx. reflexivity. }
intros path. rewrite insert_insert_eq, count_of_insert.
destruct (decide (name = path)) as [->|Hne].
- rewrite bool_decide_eq_true_2 by done. lia.
- by rewrite bool_decide_eq_false_2.
Qed.

(** X29.  A file served by URL that is closed while a read is pending:
    the read made one request and left its waiter with a Rectifier; the
    close aborts the request and calls its own callback once, and does not
    call the callback of the pending read; and the file forgets the
    Rectifier, so that a second close does nothing at all. *)
Theorem close_drops_the_pending_read
    (path : string) (size pos len : Z) (buffer : bytes) (cb cb2 cb3 : nat) :
  0 <= pos -> 0 < len ->
  exists (h1 h2 : Handle),
    readFile fs_open (mkHandle path None size None None) buffer 0 len pos cb
    = Ok (h1, [OfRectifier EvRequest])
    /\ closeFile fs_close h1 cb2 = (h2, [OfRectifier EvAbort; OfRectifier (EvClosed cb2)])
    /\ h_rectifier h2 = None
    /\ closeFile fs_close h2 cb3 = (h2, []).
Proof.
intros Hpos Hlen.
destruct (RectFacts2.readFile_url_feeding size pos len buffer cb Hpos Hlen)
  as (r0 & Hread & [_ _ _ _ _ _ _ [q Hreq] _] & _).
unfold readFile_url in Hread.
unfold readFile. cbn [h_outputType default h_fd truthy_fd h_rectifier h_size h_path].
rewrite bool_decide_eq_true_2 by done. rewrite Hread.
eexists _, _. split; [reflexivity|].
unfold closeFile. cbn [h_rectifier h_path h_outputType h_size h_fd truthy_fd].
unfold close. cbn [req set_closed set_loaded set_tasks]. rewrite Hreq.
cbn [fmap list_fmap]. by repeat split.
Qed.

End Instance.

Lemma list_counts_every_child_witness :
  exists (b' : Backend) (files : list FSFile),
    FSTree_list sample_ls sample_inherited empty_backend "/d/*" 1
    = (b', [SetRuntime (basePath "/d/*"); Ls (strip_wildcard "/d/*"); ListCb 1 files])
    /\ filePath <$> files = c_name <$> [mkChild "x" "file" 1; mkChild "y" "file" 2]
    /\ forall name,
         count_of (fileCount b') name
         = count_of (fileCount empty_backend) name
           + times_listed name [mkChild "x" "file" 1; mkChild "y" "file" 2].
Proof.
apply (list_counts_every_child sample_ls sample_inherited empty_backend "/d/*" 1
         (mkResp "folder" false 0 (Some [mkChild "x" "file" 1; mkChild "y" "file" 2]))
         [mkChild "x" "file" 1; mkChild "y" "file" 2]).
- reflexivity.
- reflexivity.
- reflexivity.
- repeat (apply Forall_cons; split; [split; [discriminate|split; reflexivity]|]).
  apply Forall_nil_2.
Defined.

Lemma open_refuses_folders_witness :
  exists err : Error,
    (FSTree_open sample_ls (fun _ => None) (fun _ => None) "open file error "
       sample_exception_text sample_inherited empty_backend "/d" 1).1 = empty_backend
    /\ last (FSTree_open sample_ls (fun _ => None) (fun _ => None) "open file error "
               sample_exception_text sample_inherited empty_backend "/d" 1).2
       = Some (OpenCb 1 (inl err))
    /\ e_status err = STATUS_UNSUCCESSFUL.
Proof.
apply (open_refuses_folders sample_ls (fun _ => None) (fun _ => None) "open file error "
         sample_exception_text sample_inherited empty_backend "/d" 1).
intros resp Hresp. vm_compute in Hresp. injection Hresp as <-. left. reflexivity.
Defined.

Lemma open_then_close_restores_the_counter_witness :
  exists (b1 : Backend) (k : FSFile) (fileCount2 : CountArray),
    FSTree_open sample_ls (fun _ => None) (fun _ => None) "open file error "
      sample_exception_text sample_inherited empty_backend "/a" 1
    = (b1, [SetRuntime (basePath "/a"); Ls "/a"; OpenCb 1 (inr k)])
    /\ count_of (fileCount b1) "/a" = count_of (fileCount empty_backend) "/a" + 1
    /\ FSFile_close (fun _ => None) sample_inherited (fileCount b1) (handle_of k None) 2
       = (Ok fileCount2, handle_of k None, [])
    /\ forall path, count_of fileCount2 path = count_of (fileCount empty_backend) path.
Proof.
apply (open_then_close_restores_the_counter sample_ls (fun _ => None) (fun _ => None)
         "open file error " sample_exception_text sample_inherited (fun _ => None)
         empty_backend "/a" 1 2 (mkResp "file" false 3 None) None).
- reflexivity.
- discriminate.
- reflexivity.
- split; [discriminate|split; reflexivity].
Defined.

Lemma close_drops_the_pending_read_witness :
  exists (h1 h2 : Handle),
    readFile None (mkHandle "/a" None 3 None None) [0; 0] 0 2 0 1
    = Ok (h1, [OfRectifier EvRequest])
    /\ closeFile (fun _ => None) h1 2 = (h2, [OfRectifier EvAbort; OfRectifier (EvClosed 2)])
    /\ h_rectifier h2 = None
    /\ closeFile (fun _ => None) h2 3 = (h2, []).
Proof.
apply (close_drops_the_pending_read None (fun _ => None) "/a" 3 0 2 [0; 0] 1 2 3).
- lia.
- lia.
Defined.

End SharelistFsFacts.
